(** * Costureira Pro: client/counter aggregation and find-or-create lookups

    A shallow embedding of the database-resident core of the application
    (the PL/pgSQL functions and triggers of [supabase/migrations]) and of the
    mutating calls of [src/hooks/useSupabase.ts] that drive it.

    Tables are lists of rows in physical order; a statement is a function
    from a database state to either an error (the statement is rolled back,
    the state is unchanged) or a new state.  Values that the database draws
    from its environment are explicit inputs: [rnd] is the value returned by
    [gen_random_uuid()], [now] the value returned by [NOW()], and [auth] the
    value of [auth.uid()] for the request. *)

From Stdlib Require Import ZArith NArith List String Ascii Bool Lia.
From Stdlib Require Import Sorted Permutation.
Import ListNotations.

Local Open Scope Z_scope.

(** ** SQL scalar types *)

(** [UUID]: a 128-bit identifier. *)
Definition uuid := N.
Bind Scope N_scope with uuid.
(** [TEXT]. *)
Definition text := string.
Bind Scope string_scope with text.
(** [TIMESTAMP WITH TIME ZONE]: microseconds since the epoch (UTC). *)
Definition timestamptz := Z.
(** [DATE]: days since the epoch. *)
Definition date := Z.
(** [DECIMAL(10,2)]: a count of hundredths; at most ten digits in all. *)
Definition numeric := Z.
(** [INTEGER]: 32-bit signed. *)
Definition int4 := Z.

Definition numeric_10_2_fits (v : numeric) : bool :=
  (-10000000000 <? v) && (v <? 10000000000).

Definition int4_fits (v : int4) : bool :=
  (-2147483648 <=? v) && (v <=? 2147483647).

(** [created_at::date] with the session time zone at UTC. *)
Definition to_date (t : timestamptz) : date := t / 86400000000.

(** [LOWER(text)] as a database under the C locale computes it: the letters
    A to Z are folded and every other byte is kept.  Under a Unicode locale
    the database folds further letters; on strings of ASCII characters the
    two agree (the Turkic locales apart).  The results on name matching
    below use no equation of [LOWER]: they compare [LOWER] images only. *)
Definition lower_ascii (c : ascii) : ascii :=
  let n := N_of_ascii c in
  if ((65 <=? n) && (n <=? 90))%N then ascii_of_N (n + 32) else c.

Fixpoint LOWER (s : text) : text :=
  match s with
  | EmptyString => EmptyString
  | String c s' => String (lower_ascii c) (LOWER s')
  end.

(** [COALESCE(a, b)]. *)
Definition COALESCE {A : Type} (a b : option A) : option A :=
  match a with
  | Some _ => a
  | None => b
  end.

(** [SUM(...)]: [NULL] over no rows. *)
Definition SUM (l : list Z) : option Z :=
  match l with
  | [] => None
  | _ => Some (fold_right Z.add 0 l)
  end.

(** [MAX(...)]: [NULL] inputs are ignored; [NULL] over no (non-null) rows. *)
Fixpoint MAX (l : list (option Z)) : option Z :=
  match l with
  | [] => None
  | None :: l' => MAX l'
  | Some x :: l' =>
      match MAX l' with
      | None => Some x
      | Some m => Some (Z.max x m)
      end
  end.

(** [a = b] on a nullable left operand, used as a [WHERE] condition: a
    [NULL] comparison does not select the row. *)
Definition text_is (a : option text) (b : text) : bool :=
  match a with
  | Some s => String.eqb s b
  | None => false
  end.

(** ** Errors *)

Inductive error : Type :=
| NotAuthenticated          (* new Error('User not authenticated') *)
| not_null_violation (column : string)
| check_violation (constraint : string)
| foreign_key_violation (constraint : string)
| unique_violation (constraint : string)
| numeric_value_out_of_range
| insufficient_privilege.   (* row-level security policy violated *)

Inductive result (A : Type) : Type :=
| Ok (a : A)
| Err (e : error).

Arguments Ok {A} a.
Arguments Err {A} e.

Definition bind {A B : Type} (r : result A) (k : A -> result B) : result B :=
  match r with
  | Ok a => k a
  | Err e => Err e
  end.

Notation "x <- c ;; k" := (bind c (fun x => k))
  (at level 61, c at next level, right associativity).

Definition guard (b : bool) (e : error) : result unit :=
  if b then Ok tt else Err e.

(** ** Rows *)

(** What an [INSERT] says about one column: the column is left out (its
    [DEFAULT] applies), or given as [NULL], or given a value. *)
Inductive field (A : Type) : Type :=
| DEFAULT
| NULL
| VALUE (a : A).

Arguments DEFAULT {A}.
Arguments NULL {A}.
Arguments VALUE {A} a.

Definition resolve {A : Type} (dflt : option A) (f : field A) : option A :=
  match f with
  | DEFAULT => dflt
  | NULL => None
  | VALUE a => Some a
  end.

(** A [NOT NULL] column. *)
Definition required {A : Type} (column : string) (v : option A) : result A :=
  match v with
  | Some a => Ok a
  | None => Err (not_null_violation column)
  end.

(** What an [UPDATE ... SET] says about one column. *)
Inductive assign (A : Type) : Type :=
| KEEP
| SET (v : option A).

Arguments KEEP {A}.
Arguments SET {A} v.

Definition assigned {A : Type} (old : option A) (a : assign A) : option A :=
  match a with
  | KEEP => old
  | SET v => v
  end.

Module Client.
Record t : Type := mk {
    id : uuid;
    user_id : uuid;
    name : text;
    phone : option text;
    email : option text;
    is_favorite : option bool;
    total_spent : option numeric;
    last_service_date : option date;
    notes : option text;
    created_at : option timestamptz;
    updated_at : option timestamptz
  }.
End Client.

Module Service.
Record t : Type := mk {
    id : uuid;
    user_id : uuid;
    client_id : uuid;
    client_name : text;
    description : text;
    value : numeric;
    delivery_date : option date;
    status : option text;
    notes : option text;
    created_at : option timestamptz;
    updated_at : option timestamptz
  }.

  (** The columns of an [INSERT INTO services]. *)
Record payload : Type := mk_payload {
    p_id : field uuid;
    p_user_id : field uuid;
    p_client_id : field uuid;
    p_client_name : field text;
    p_description : field text;
    p_value : field numeric;
    p_delivery_date : field date;
    p_status : field text;
    p_notes : field text;
    p_created_at : field timestamptz;
    p_updated_at : field timestamptz
  }.

  (** The [SET] list of an [UPDATE services]. *)
Record patch : Type := mk_patch {
    s_user_id : assign uuid;
    s_client_id : assign uuid;
    s_client_name : assign text;
    s_description : assign text;
    s_value : assign numeric;
    s_delivery_date : assign date;
    s_status : assign text;
    s_notes : assign text;
    s_created_at : assign timestamptz;
    s_updated_at : assign timestamptz
  }.
End Service.

Module PieceCounter.
Record t : Type := mk {
    id : uuid;
    user_id : uuid;
    client_id : uuid;
    client_name : text;
    total_pieces : option int4;
    created_at : option timestamptz;
    updated_at : option timestamptz
  }.
End PieceCounter.

Module PieceCounterHistory.
Record t : Type := mk {
    id : uuid;
    user_id : uuid;
    counter_id : uuid;
    client_name : text;
    pieces_added : int4;
    description : option text;
    created_at : option timestamptz
  }.

  (** The columns of an [INSERT INTO piece_counter_history]. *)
Record payload : Type := mk_payload {
    p_id : field uuid;
    p_user_id : field uuid;
    p_counter_id : field uuid;
    p_client_name : field text;
    p_pieces_added : field int4;
    p_description : field text;
    p_created_at : field timestamptz
  }.
End PieceCounterHistory.

(** ** The database *)

(** The migrations disagree on two declarations, kept here as part of the
    state: [services_value_check] is the [CHECK (value >= 0)] that only
    [20250122000001_costureira_pro_schema.sql] puts on [services.value] (that
    table has neither [user_id] nor [client_name], the columns
    [createService] writes); [updated_at_triggers] are the [BEFORE UPDATE]
    triggers [update_*_updated_at], declared by [20250122000001] and
    [1756644875000] and by no other migration.  [auth_users] are the
    accounts: the rows of [auth.users], each with its [profiles] row, which
    the [user_id] columns reference. *)
Record DB : Type := mkDB {
  services_value_check : bool;
  updated_at_triggers : bool;
  auth_users : list uuid;
  clients : list Client.t;
  services : list Service.t;
  piece_counters : list PieceCounter.t;
  piece_counter_history : list PieceCounterHistory.t
}.

Definition with_clients (db : DB) (cs : list Client.t) : DB :=
  mkDB (services_value_check db) (updated_at_triggers db) (auth_users db)
       cs (services db) (piece_counters db) (piece_counter_history db).

Definition with_services (db : DB) (ss : list Service.t) : DB :=
  mkDB (services_value_check db) (updated_at_triggers db) (auth_users db)
       (clients db) ss (piece_counters db) (piece_counter_history db).

Definition with_piece_counters (db : DB) (ks : list PieceCounter.t) : DB :=
  mkDB (services_value_check db) (updated_at_triggers db) (auth_users db)
       (clients db) (services db) ks (piece_counter_history db).

Definition with_piece_counter_history (db : DB)
    (hs : list PieceCounterHistory.t) : DB :=
  mkDB (services_value_check db) (updated_at_triggers db) (auth_users db)
       (clients db) (services db) (piece_counters db) hs.

Definition mem (x : uuid) (l : list uuid) : bool := existsb (N.eqb x) l.

(** [auth.uid() = user_id], as a policy condition. *)
Definition rls_owner (auth : option uuid) (owner : uuid) : bool :=
  match auth with
  | Some u => N.eqb u owner
  | None => false
  end.

(** ** Identity resolution: clients *)

(** [INSERT INTO public.clients (user_id, name) VALUES (...)] from inside the
    [SECURITY DEFINER] function: every other column takes its default. *)
Definition new_client (rnd : uuid) (now : timestamptz)
    (p_user_id : uuid) (p_client_name : text) : Client.t :=
  {| Client.id := rnd;
     Client.user_id := p_user_id;
     Client.name := p_client_name;
     Client.phone := None;
     Client.email := None;
     Client.is_favorite := Some false;
     Client.total_spent := Some 0;
     Client.last_service_date := None;
     Client.notes := None;
     Client.created_at := Some now;
     Client.updated_at := Some now |}.

Definition insert_client (c : Client.t) (db : DB) : result DB :=
  _ <- guard (negb (mem (Client.id c) (map Client.id (clients db))))
             (unique_violation "clients_pkey") ;;
  _ <- guard (mem (Client.user_id c) (auth_users db))
             (foreign_key_violation "clients_user_id_fkey") ;;
  Ok (with_clients db (clients db ++ [c])).

(** [WHERE user_id = p_user_id AND LOWER(name) = LOWER(p_client_name)]. *)
Definition client_matches (p_user_id : uuid) (p_client_name : text)
    (c : Client.t) : bool :=
  N.eqb (Client.user_id c) p_user_id
  && String.eqb (LOWER (Client.name c)) (LOWER p_client_name).

Definition get_or_create_client (rnd : uuid) (now : timestamptz)
    (p_user_id : uuid) (p_client_name : text) (db : DB)
    : result (uuid * DB) :=
  match find (client_matches p_user_id p_client_name) (clients db) with
  | Some c => Ok (Client.id c, db)
  | None =>
      db' <- insert_client (new_client rnd now p_user_id p_client_name) db ;;
      Ok (rnd, db')
  end.

(** ** Derived statistics: clients *)

(** The rows a [WHERE client_id = cid] selects. *)
Definition services_of (cid : uuid) (ss : list Service.t) : list Service.t :=
  filter (fun s => N.eqb (Service.client_id s) cid) ss.

(** [SELECT COALESCE(SUM(value), 0) FROM services
     WHERE client_id = cid AND status = 'paid']. *)
Definition select_total_spent (cid : uuid) (ss : list Service.t)
    : option numeric :=
  COALESCE
    (SUM (map Service.value
            (filter (fun s => N.eqb (Service.client_id s) cid
                              && text_is (Service.status s) "paid"%string) ss)))
    (Some 0).

(** [SELECT MAX(created_at::date) FROM services WHERE client_id = cid]. *)
Definition select_last_service_date (cid : uuid) (ss : list Service.t)
    : option date :=
  MAX (map (fun s => option_map to_date (Service.created_at s))
           (services_of cid ss)).

Definition set_client_stats (total : option numeric) (last : option date)
    (now : timestamptz) (c : Client.t) : Client.t :=
  {| Client.id := Client.id c;
     Client.user_id := Client.user_id c;
     Client.name := Client.name c;
     Client.phone := Client.phone c;
     Client.email := Client.email c;
     Client.is_favorite := Client.is_favorite c;
     Client.total_spent := total;
     Client.last_service_date := last;
     Client.notes := Client.notes c;
     Client.created_at := Client.created_at c;
     Client.updated_at := Some now |}.

(** [UPDATE clients SET total_spent = (...), last_service_date = (...),
     updated_at = NOW() WHERE id = cid].  The function is [SECURITY DEFINER]:
    no policy filters the rows.  Storing a total of more than ten digits in
    [DECIMAL(10,2)] raises, when there is a row to store it in. *)
Definition recompute_client_stats (cid : uuid) (now : timestamptz) (db : DB)
    : result DB :=
  let total := select_total_spent cid (services db) in
  let last := select_last_service_date cid (services db) in
  if mem cid (map Client.id (clients db)) then
    _ <- guard (match total with
                | Some v => numeric_10_2_fits v
                | None => true
                end) numeric_value_out_of_range ;;
    Ok (with_clients db
          (map (fun c => if N.eqb (Client.id c) cid
                         then set_client_stats total last now c
                         else c)
               (clients db)))
  else Ok db.

(** The trigger function of the unnamed migrations ([part_002], [part_003]):
    one [UPDATE] keyed by [COALESCE(NEW.client_id, OLD.client_id)].  [NEW] is
    absent in a [DELETE] trigger and [OLD] in an [INSERT] trigger. *)
Definition update_client_stats (NEW OLD : option Service.t)
    (now : timestamptz) (db : DB) : result DB :=
  match COALESCE (option_map Service.client_id NEW)
                 (option_map Service.client_id OLD) with
  | Some cid => recompute_client_stats cid now db
  | None => Ok db
  end.

(** The trigger function of [1756644875000], [SECURITY DEFINER] as well: a
    branch per [TG_OP].  ([update_client_stats] of [20250122000001] has the
    same branches but is not [SECURITY DEFINER]: its [UPDATE] of [clients]
    runs under the caller's policies, and is not what is modelled here.) *)
Inductive TG_OP : Type := INSERT | UPDATE | DELETE.

Definition update_client_statistics (op : TG_OP) (NEW OLD : option Service.t)
    (now : timestamptz) (db : DB) : result DB :=
  match op with
  | INSERT | UPDATE =>
      match NEW with
      | Some n => recompute_client_stats (Service.client_id n) now db
      | None => Ok db
      end
  | DELETE =>
      match OLD with
      | Some o => recompute_client_stats (Service.client_id o) now db
      | None => Ok db
      end
  end.

(** ** The [services] table *)

(** [CHECK (status IN ('progress', 'delivered', 'paid'))]: a check whose
    condition is [NULL] passes. *)
Definition status_check (s : option text) : bool :=
  match s with
  | None => true
  | Some s =>
      (String.eqb s "progress" || String.eqb s "delivered"
       || String.eqb s "paid")%string
  end.

(** [CHECK (value >= 0)], where the table declares it. *)
Definition value_check (db : DB) (v : numeric) : bool :=
  negb (services_value_check db) || (0 <=? v).

(** The constraints of a [services] row: the fit of [value] in its type,
    the checks, and the two foreign keys. *)
Definition services_constraints (db : DB) (s : Service.t) : result unit :=
  _ <- guard (numeric_10_2_fits (Service.value s)) numeric_value_out_of_range ;;
  _ <- guard (status_check (Service.status s))
             (check_violation "services_status_check") ;;
  _ <- guard (value_check db (Service.value s))
             (check_violation "services_value_check") ;;
  _ <- guard (mem (Service.user_id s) (auth_users db))
             (foreign_key_violation "services_user_id_fkey") ;;
  guard (mem (Service.client_id s) (map Client.id (clients db)))
        (foreign_key_violation "services_client_id_fkey").

(** The row an [INSERT] builds: defaults for the columns left out, then the
    [NOT NULL] columns. *)
Definition service_of_payload (rnd : uuid) (now : timestamptz)
    (p : Service.payload) : result Service.t :=
  id <- required "id" (resolve (Some rnd) (Service.p_id p)) ;;
  user_id <- required "user_id" (resolve None (Service.p_user_id p)) ;;
  client_id <- required "client_id" (resolve None (Service.p_client_id p)) ;;
  client_name <-
    required "client_name" (resolve None (Service.p_client_name p)) ;;
  description <-
    required "description" (resolve None (Service.p_description p)) ;;
  value <- required "value" (resolve None (Service.p_value p)) ;;
  Ok {| Service.id := id;
        Service.user_id := user_id;
        Service.client_id := client_id;
        Service.client_name := client_name;
        Service.description := description;
        Service.value := value;
        Service.delivery_date := resolve None (Service.p_delivery_date p);
        Service.status := resolve (Some "progress"%string) (Service.p_status p);
        Service.notes := resolve None (Service.p_notes p);
        Service.created_at := resolve (Some now) (Service.p_created_at p);
        Service.updated_at := resolve (Some now) (Service.p_updated_at p) |}.

(** [INSERT INTO services ... RETURNING *] as the [authenticated] role:
    policy "Users can insert own services" ([auth.uid() = user_id]), the
    constraints, the primary key, then the [AFTER INSERT] trigger. *)
Definition insert_service (auth : option uuid) (rnd : uuid)
    (now : timestamptz) (p : Service.payload) (db : DB)
    : result (Service.t * DB) :=
  _ <- guard (match resolve None (Service.p_user_id p) with
              | Some u => rls_owner auth u
              | None => false
              end) insufficient_privilege ;;
  NEW <- service_of_payload rnd now p ;;
  _ <- services_constraints db NEW ;;
  _ <- guard (negb (mem (Service.id NEW) (map Service.id (services db))))
             (unique_violation "services_pkey") ;;
  db' <- update_client_stats (Some NEW) None now
           (with_services db (services db ++ [NEW])) ;;
  Ok (NEW, db').

Fixpoint replace_first {A : Type} (f : A -> bool) (y : A) (l : list A)
    : list A :=
  match l with
  | [] => []
  | x :: l' => if f x then y :: l' else x :: replace_first f y l'
  end.

Fixpoint remove_first {A : Type} (f : A -> bool) (l : list A) : list A :=
  match l with
  | [] => []
  | x :: l' => if f x then l' else x :: remove_first f l'
  end.

(** [WHERE id = sid] under the policy [auth.uid() = user_id]; [id] is the
    primary key, so at most one row is addressed. *)
Definition service_addressed (auth : option uuid) (sid : uuid)
    (s : Service.t) : bool :=
  N.eqb (Service.id s) sid && rls_owner auth (Service.user_id s).

Definition patched_service (db : DB) (now : timestamptz) (OLD : Service.t)
    (p : Service.patch) : result Service.t :=
  user_id <- required "user_id"
    (assigned (Some (Service.user_id OLD)) (Service.s_user_id p)) ;;
  client_id <- required "client_id"
    (assigned (Some (Service.client_id OLD)) (Service.s_client_id p)) ;;
  client_name <- required "client_name"
    (assigned (Some (Service.client_name OLD)) (Service.s_client_name p)) ;;
  description <- required "description"
    (assigned (Some (Service.description OLD)) (Service.s_description p)) ;;
  value <- required "value"
    (assigned (Some (Service.value OLD)) (Service.s_value p)) ;;
  Ok {| Service.id := Service.id OLD;
        Service.user_id := user_id;
        Service.client_id := client_id;
        Service.client_name := client_name;
        Service.description := description;
        Service.value := value;
        Service.delivery_date :=
          assigned (Service.delivery_date OLD) (Service.s_delivery_date p);
        Service.status := assigned (Service.status OLD) (Service.s_status p);
        Service.notes := assigned (Service.notes OLD) (Service.s_notes p);
        Service.created_at :=
          assigned (Service.created_at OLD) (Service.s_created_at p);
        Service.updated_at :=
          if updated_at_triggers db then Some now
          else assigned (Service.updated_at OLD) (Service.s_updated_at p) |}.

(** [UPDATE services SET ... WHERE id = sid] as the [authenticated] role,
    then the [AFTER UPDATE] trigger with both row images. *)
Definition update_service (auth : option uuid) (now : timestamptz)
    (sid : uuid) (p : Service.patch) (db : DB) : result DB :=
  match find (service_addressed auth sid) (services db) with
  | None => Ok db
  | Some OLD =>
      NEW <- patched_service db now OLD p ;;
      _ <- guard (rls_owner auth (Service.user_id NEW))
                 insufficient_privilege ;;
      _ <- services_constraints db NEW ;;
      update_client_stats (Some NEW) (Some OLD) now
        (with_services db
           (replace_first (service_addressed auth sid) NEW (services db)))
  end.

(** [DELETE FROM services WHERE id = sid] as the [authenticated] role, then
    the [AFTER DELETE] trigger. *)
Definition delete_service (auth : option uuid) (now : timestamptz)
    (sid : uuid) (db : DB) : result DB :=
  match find (service_addressed auth sid) (services db) with
  | None => Ok db
  | Some OLD =>
      update_client_stats None (Some OLD) now
        (with_services db
           (remove_first (service_addressed auth sid) (services db)))
  end.

(** ** Piece counters *)

Definition new_piece_counter (rnd : uuid) (now : timestamptz)
    (p_user_id p_client_id : uuid) (p_client_name : text) : PieceCounter.t :=
  {| PieceCounter.id := rnd;
     PieceCounter.user_id := p_user_id;
     PieceCounter.client_id := p_client_id;
     PieceCounter.client_name := p_client_name;
     PieceCounter.total_pieces := Some 0;
     PieceCounter.created_at := Some now;
     PieceCounter.updated_at := Some now |}.

Definition insert_piece_counter (k : PieceCounter.t) (db : DB) : result DB :=
  _ <- guard (negb (mem (PieceCounter.id k)
                        (map PieceCounter.id (piece_counters db))))
             (unique_violation "piece_counters_pkey") ;;
  _ <- guard (mem (PieceCounter.user_id k) (auth_users db))
             (foreign_key_violation "piece_counters_user_id_fkey") ;;
  _ <- guard (mem (PieceCounter.client_id k) (map Client.id (clients db)))
             (foreign_key_violation "piece_counters_client_id_fkey") ;;
  Ok (with_piece_counters db (piece_counters db ++ [k])).

(** [WHERE user_id = p_user_id AND client_id = p_client_id]. *)
Definition counter_matches (p_user_id p_client_id : uuid)
    (k : PieceCounter.t) : bool :=
  N.eqb (PieceCounter.user_id k) p_user_id
  && N.eqb (PieceCounter.client_id k) p_client_id.

Definition get_or_create_piece_counter (rnd : uuid) (now : timestamptz)
    (p_user_id p_client_id : uuid) (p_client_name : text) (db : DB)
    : result (uuid * DB) :=
  match find (counter_matches p_user_id p_client_id) (piece_counters db) with
  | Some k => Ok (PieceCounter.id k, db)
  | None =>
      db' <- insert_piece_counter
               (new_piece_counter rnd now p_user_id p_client_id p_client_name)
               db ;;
      Ok (rnd, db')
  end.

(** [total_pieces + NEW.pieces_added]: [NULL] stays [NULL]. *)
Definition add_pieces (total : option int4) (delta : int4) : option int4 :=
  option_map (fun t => t + delta) total.

Definition bump_counter (delta : int4) (now : timestamptz)
    (k : PieceCounter.t) : PieceCounter.t :=
  {| PieceCounter.id := PieceCounter.id k;
     PieceCounter.user_id := PieceCounter.user_id k;
     PieceCounter.client_id := PieceCounter.client_id k;
     PieceCounter.client_name := PieceCounter.client_name k;
     PieceCounter.total_pieces := add_pieces (PieceCounter.total_pieces k) delta;
     PieceCounter.created_at := PieceCounter.created_at k;
     PieceCounter.updated_at := Some now |}.

Definition int4_result_fits (v : option int4) : bool :=
  match v with
  | Some t => int4_fits t
  | None => true
  end.

(** The [AFTER INSERT] trigger on [piece_counter_history]:
    [UPDATE piece_counters SET total_pieces = total_pieces + NEW.pieces_added,
     updated_at = NOW() WHERE id = NEW.counter_id].  A sum outside [INTEGER]
    raises. *)
Definition update_piece_counter_total (NEW : PieceCounterHistory.t)
    (now : timestamptz) (db : DB) : result DB :=
  let cid := PieceCounterHistory.counter_id NEW in
  let delta := PieceCounterHistory.pieces_added NEW in
  _ <- guard (forallb (fun k => negb (N.eqb (PieceCounter.id k) cid)
                                || int4_result_fits
                                     (add_pieces (PieceCounter.total_pieces k)
                                                 delta))
                      (piece_counters db))
             numeric_value_out_of_range ;;
  Ok (with_piece_counters db
        (map (fun k => if N.eqb (PieceCounter.id k) cid
                       then bump_counter delta now k
                       else k)
             (piece_counters db))).

Definition history_of_payload (rnd : uuid) (now : timestamptz)
    (p : PieceCounterHistory.payload) : result PieceCounterHistory.t :=
  id <- required "id" (resolve (Some rnd) (PieceCounterHistory.p_id p)) ;;
  user_id <-
    required "user_id" (resolve None (PieceCounterHistory.p_user_id p)) ;;
  counter_id <-
    required "counter_id" (resolve None (PieceCounterHistory.p_counter_id p)) ;;
  client_name <-
    required "client_name"
      (resolve None (PieceCounterHistory.p_client_name p)) ;;
  pieces_added <-
    required "pieces_added"
      (resolve None (PieceCounterHistory.p_pieces_added p)) ;;
  Ok {| PieceCounterHistory.id := id;
        PieceCounterHistory.user_id := user_id;
        PieceCounterHistory.counter_id := counter_id;
        PieceCounterHistory.client_name := client_name;
        PieceCounterHistory.pieces_added := pieces_added;
        PieceCounterHistory.description :=
          resolve None (PieceCounterHistory.p_description p);
        PieceCounterHistory.created_at :=
          resolve (Some now) (PieceCounterHistory.p_created_at p) |}.

(** [INSERT INTO piece_counter_history ... RETURNING *] as the
    [authenticated] role: policy "Users can insert their own piece counter
    history", the constraints, then the trigger. *)
Definition insert_history (auth : option uuid) (rnd : uuid)
    (now : timestamptz) (p : PieceCounterHistory.payload) (db : DB)
    : result (PieceCounterHistory.t * DB) :=
  _ <- guard (match resolve None (PieceCounterHistory.p_user_id p) with
              | Some u => rls_owner auth u
              | None => false
              end) insufficient_privilege ;;
  NEW <- history_of_payload rnd now p ;;
  _ <- guard (int4_fits (PieceCounterHistory.pieces_added NEW))
             numeric_value_out_of_range ;;
  _ <- guard (negb (mem (PieceCounterHistory.id NEW)
                        (map PieceCounterHistory.id
                             (piece_counter_history db))))
             (unique_violation "piece_counter_history_pkey") ;;
  _ <- guard (mem (PieceCounterHistory.user_id NEW) (auth_users db))
             (foreign_key_violation "piece_counter_history_user_id_fkey") ;;
  _ <- guard (mem (PieceCounterHistory.counter_id NEW)
                  (map PieceCounter.id (piece_counters db)))
             (foreign_key_violation "piece_counter_history_counter_id_fkey") ;;
  db' <- update_piece_counter_total NEW now
           (with_piece_counter_history db (piece_counter_history db ++ [NEW])) ;;
  Ok (NEW, db').

(** [SELECT total_pieces FROM piece_counters WHERE id = kid]: the outer
    option is the presence of the row, the inner one the nullable column. *)
Definition total_pieces_of (kid : uuid) (db : DB) : option (option int4) :=
  option_map PieceCounter.total_pieces
    (find (fun k => N.eqb (PieceCounter.id k) kid) (piece_counters db)).

(** ** The [clients] table, from the application *)

Definition set_is_favorite (db : DB) (now : timestamptz) (b : bool)
    (c : Client.t) : Client.t :=
  {| Client.id := Client.id c;
     Client.user_id := Client.user_id c;
     Client.name := Client.name c;
     Client.phone := Client.phone c;
     Client.email := Client.email c;
     Client.is_favorite := Some b;
     Client.total_spent := Client.total_spent c;
     Client.last_service_date := Client.last_service_date c;
     Client.notes := Client.notes c;
     Client.created_at := Client.created_at c;
     Client.updated_at :=
       if updated_at_triggers db then Some now else Client.updated_at c |}.

(** [WHERE id = clientId] under the policy "Users can update own clients". *)
Definition client_addressed (auth : option uuid) (clientId : uuid)
    (c : Client.t) : bool :=
  N.eqb (Client.id c) clientId && rls_owner auth (Client.user_id c).

(** [UPDATE clients SET is_favorite = b WHERE id = clientId] as the
    [authenticated] role.  No row addressed is not an error. *)
Definition update_client_is_favorite (auth : option uuid)
    (now : timestamptz) (clientId : uuid) (b : bool) (db : DB) : result DB :=
  Ok (with_clients db
        (map (fun c => if client_addressed auth clientId c
                       then set_is_favorite db now b c
                       else c)
             (clients db))).

(** ** The mutating calls of [useSupabase.ts]

    Each call is a sequence of requests; every request is one transaction, so
    a call returns its outcome together with the state the requests that
    succeeded left behind.  [user] is the account of the session
    ([supabase.auth.getUser()]), which is also [auth.uid()] for the requests.
    [console.error] is not part of the state. *)

Record serviceData : Type := mk_serviceData {
  sd_client_name : text;
  sd_description : text;
  sd_value : numeric;
  sd_delivery_date : option date;
  sd_status : text
}.

Definition optional {A : Type} (v : option A) : field A :=
  match v with
  | Some a => VALUE a
  | None => DEFAULT
  end.

Definition createService (user : option uuid) (rnd_client rnd_service : uuid)
    (now_rpc now_insert : timestamptz) (d : serviceData) (db : DB)
    : result Service.t * DB :=
  match user with
  | None => (Err NotAuthenticated, db)
  | Some user_id =>
      match get_or_create_client rnd_client now_rpc user_id
              (sd_client_name d) db with
      | Err clientError => (Err clientError, db)
      | Ok (clientId, db1) =>
          match insert_service (Some user_id) rnd_service now_insert
                  {| Service.p_id := DEFAULT;
                     Service.p_user_id := VALUE user_id;
                     Service.p_client_id := VALUE clientId;
                     Service.p_client_name := VALUE (sd_client_name d);
                     Service.p_description := VALUE (sd_description d);
                     Service.p_value := VALUE (sd_value d);
                     Service.p_delivery_date := optional (sd_delivery_date d);
                     Service.p_status := VALUE (sd_status d);
                     Service.p_notes := DEFAULT;
                     Service.p_created_at := DEFAULT;
                     Service.p_updated_at := DEFAULT |} db1 with
          | Err error => (Err error, db1)
          | Ok (data, db2) => (Ok data, db2)
          end
      end
  end.

Record piecesData : Type := mk_piecesData {
  pd_client_name : text;
  pd_pieces_added : int4;
  pd_description : option text
}.

Definition addPiecesToCounter (user : option uuid)
    (rnd_client rnd_counter rnd_history : uuid)
    (now_client now_counter now_insert : timestamptz)
    (data : piecesData) (db : DB) : result PieceCounterHistory.t * DB :=
  match user with
  | None => (Err NotAuthenticated, db)
  | Some user_id =>
      match get_or_create_client rnd_client now_client user_id
              (pd_client_name data) db with
      | Err clientError => (Err clientError, db)
      | Ok (clientId, db1) =>
          match get_or_create_piece_counter rnd_counter now_counter user_id
                  clientId (pd_client_name data) db1 with
          | Err counterError => (Err counterError, db1)
          | Ok (counterId, db2) =>
              match insert_history (Some user_id) rnd_history now_insert
                      {| PieceCounterHistory.p_id := DEFAULT;
                         PieceCounterHistory.p_user_id := VALUE user_id;
                         PieceCounterHistory.p_counter_id := VALUE counterId;
                         PieceCounterHistory.p_client_name :=
                           VALUE (pd_client_name data);
                         PieceCounterHistory.p_pieces_added :=
                           VALUE (pd_pieces_added data);
                         PieceCounterHistory.p_description :=
                           optional (pd_description data);
                         PieceCounterHistory.p_created_at := DEFAULT |}
                      db2 with
              | Err historyError => (Err historyError, db2)
              | Ok (historyData, db3) => (Ok historyData, db3)
              end
          end
      end
  end.

Definition updateClientFavorite (user : option uuid) (now : timestamptz)
    (clientId : uuid) (isFavorite : bool) (db : DB) : result unit * DB :=
  match update_client_is_favorite user now clientId isFavorite db with
  | Err error => (Err error, db)
  | Ok db' => (Ok tt, db')
  end.

(** ** Statements and their sequences *)

Inductive stmt : Type :=
| rpc_get_or_create_client (rnd : uuid) (now : timestamptz)
    (p_user_id : uuid) (p_client_name : text)
| rpc_get_or_create_piece_counter (rnd : uuid) (now : timestamptz)
    (p_user_id p_client_id : uuid) (p_client_name : text)
| insert_into_services (auth : option uuid) (rnd : uuid) (now : timestamptz)
    (p : Service.payload)
| update_services (auth : option uuid) (now : timestamptz) (sid : uuid)
    (p : Service.patch)
| delete_from_services (auth : option uuid) (now : timestamptz) (sid : uuid)
| insert_into_piece_counter_history (auth : option uuid) (rnd : uuid)
    (now : timestamptz) (p : PieceCounterHistory.payload)
| update_clients_is_favorite (auth : option uuid) (now : timestamptz)
    (clientId : uuid) (b : bool).

Definition exec (s : stmt) (db : DB) : result DB :=
  match s with
  | rpc_get_or_create_client rnd now u n =>
      r <- get_or_create_client rnd now u n db ;; Ok (snd r)
  | rpc_get_or_create_piece_counter rnd now u c n =>
      r <- get_or_create_piece_counter rnd now u c n db ;; Ok (snd r)
  | insert_into_services auth rnd now p =>
      r <- insert_service auth rnd now p db ;; Ok (snd r)
  | update_services auth now sid p => update_service auth now sid p db
  | delete_from_services auth now sid => delete_service auth now sid db
  | insert_into_piece_counter_history auth rnd now p =>
      r <- insert_history auth rnd now p db ;; Ok (snd r)
  | update_clients_is_favorite auth now cid b =>
      update_client_is_favorite auth now cid b db
  end.

(** A statement that raises is rolled back and leaves the state as it was. *)
Definition step (db : DB) (s : stmt) : DB :=
  match exec s db with
  | Ok db' => db'
  | Err _ => db
  end.

Definition run (l : list stmt) (db : DB) : DB := fold_left step l db.

(** The same sequence where every statement has to succeed. *)
Fixpoint exec_all (l : list stmt) (db : DB) : result DB :=
  match l with
  | [] => Ok db
  | s :: l' => db' <- exec s db ;; exec_all l' db'
  end.

(** A database with its accounts and no application row. *)
Definition empty_db (value_checked triggers : bool) (users : list uuid) : DB :=
  mkDB value_checked triggers users [] [] [] [].

(** ** The derived fields, as the specification words them *)

(** "The sum of [value] over C's services whose status is paid". *)
Definition paid_total (cid : uuid) (ss : list Service.t) : numeric :=
  fold_right Z.add 0
    (map Service.value
       (filter (fun s => text_is (Service.status s) "paid"%string)
               (services_of cid ss))).

(** "The maximum creation date over all of C's services, or null if C has
    none". *)
Definition last_creation_date (cid : uuid) (ss : list Service.t)
    : option date :=
  MAX (map (fun s => option_map to_date (Service.created_at s))
           (services_of cid ss)).

Definition client_stats_hold (db : DB) (c : Client.t) : Prop :=
  Client.total_spent c = Some (paid_total (Client.id c) (services db))
  /\ Client.last_service_date c
     = last_creation_date (Client.id c) (services db).

Definition client_stats_consistent (db : DB) : Prop :=
  forall c, In c (clients db) -> client_stats_hold db c.

(** [services.client_id REFERENCES clients(id)]. *)
Definition services_fk (db : DB) : Prop :=
  forall s, In s (services db) ->
            In (Service.client_id s) (map Client.id (clients db)).

(** "Summing [pieces_added] over all of that counter's history rows". *)
Definition ledger_total (kid : uuid) (hs : list PieceCounterHistory.t)
    : int4 :=
  fold_right Z.add 0
    (map PieceCounterHistory.pieces_added
       (filter (fun h => N.eqb (PieceCounterHistory.counter_id h) kid) hs)).

(** [piece_counter_history.counter_id REFERENCES piece_counters(id)]. *)
Definition history_fk (db : DB) : Prop :=
  forall h, In h (piece_counter_history db) ->
            In (PieceCounterHistory.counter_id h)
               (map PieceCounter.id (piece_counters db)).

(** An [UPDATE services] that leaves [client_id] out of its [SET] list;
    every other statement qualifies. *)
Definition keeps_client (s : stmt) : Prop :=
  match s with
  | update_services _ _ _ p => Service.s_client_id p = KEEP
  | _ => True
  end.

(** The statement appends to the ledger of counter [K]. *)
Definition appends_to (K : uuid) (s : stmt) : Prop :=
  match s with
  | insert_into_piece_counter_history _ _ _ p =>
      PieceCounterHistory.p_counter_id p = VALUE K
  | _ => False
  end.

(** The signed delta a history insertion carries. *)
Definition delta_of (s : stmt) : int4 :=
  match s with
  | insert_into_piece_counter_history _ _ _ p =>
      match PieceCounterHistory.p_pieces_added p with
      | VALUE d => d
      | _ => 0
      end
  | _ => 0
  end.

(** What [updateClientFavorite] may change on a row: [c'] is [c] up to
    [is_favorite] and [updated_at]. *)
Definition same_but_favorite (c c' : Client.t) : Prop :=
  Client.id c' = Client.id c
  /\ Client.user_id c' = Client.user_id c
  /\ Client.name c' = Client.name c
  /\ Client.phone c' = Client.phone c
  /\ Client.email c' = Client.email c
  /\ Client.total_spent c' = Client.total_spent c
  /\ Client.last_service_date c' = Client.last_service_date c
  /\ Client.notes c' = Client.notes c
  /\ Client.created_at c' = Client.created_at c.

(** The piece-counter tables are as they were. *)
Definition counters_untouched (db db' : DB) : Prop :=
  piece_counters db' = piece_counters db
  /\ piece_counter_history db' = piece_counter_history db.

(** The client and service tables are as they were. *)
Definition services_untouched (db db' : DB) : Prop :=
  clients db' = clients db /\ services db' = services db.

(** The stored total of counter [K] is the recomputation from its ledger. *)
Definition counter_tracks_ledger (K : uuid) (db : DB) : Prop :=
  total_pieces_of K db
  = Some (Some (ledger_total K (piece_counter_history db))).

(** The invariant of the client statistics: the derived fields agree with
    the services, and every service references a client. *)
Definition client_inv (db : DB) : Prop :=
  client_stats_consistent db /\ services_fk db.

(** ** How one statement changes each table *)

(** The columns of a client that no statement writes. *)
Definition client_key (c : Client.t) : uuid * uuid * text :=
  (Client.id c, Client.user_id c, Client.name c).

(** The columns of a piece counter that no statement writes. *)
Definition counter_key (k : PieceCounter.t) : uuid * uuid * uuid :=
  (PieceCounter.id k, PieceCounter.user_id k, PieceCounter.client_id k).

(** What [get_or_create_client] looks a client up by. *)
Definition client_lookup_key (c : Client.t) : uuid * text :=
  (Client.user_id c, LOWER (Client.name c)).

(** What [get_or_create_piece_counter] looks a counter up by. *)
Definition counter_lookup_key (k : PieceCounter.t) : uuid * uuid :=
  (PieceCounter.user_id k, PieceCounter.client_id k).

(** [clients]: the same rows up to the derived and bookkeeping columns, or
    one row more, with an unused identifier, an existing account, and a name
    no client of the account matches. *)
Definition clients_step (db db' : DB) : Prop :=
  map client_key (clients db') = map client_key (clients db)
  \/ exists c,
       clients db' = clients db ++ [c]
       /\ ~ In (Client.id c) (map Client.id (clients db))
       /\ In (Client.user_id c) (auth_users db)
       /\ find (client_matches (Client.user_id c) (Client.name c))
               (clients db) = None.

(** [services]: unchanged, one row more, one row replaced under its
    identifier, or one row less.  A row the statement writes belongs to the
    caller, and so does a row it replaces or removes. *)
Definition services_step (auth : option uuid) (db db' : DB) : Prop :=
  services db' = services db
  \/ (exists NEW,
        services db' = services db ++ [NEW]
        /\ rls_owner auth (Service.user_id NEW) = true
        /\ ~ In (Service.id NEW) (map Service.id (services db))
        /\ In (Service.user_id NEW) (auth_users db)
        /\ In (Service.client_id NEW) (map Client.id (clients db)))
  \/ (exists f OLD NEW,
        find f (services db) = Some OLD
        /\ services db' = replace_first f NEW (services db)
        /\ rls_owner auth (Service.user_id OLD) = true
        /\ rls_owner auth (Service.user_id NEW) = true
        /\ Service.id NEW = Service.id OLD
        /\ In (Service.user_id NEW) (auth_users db)
        /\ In (Service.client_id NEW) (map Client.id (clients db)))
  \/ (exists f OLD,
        find f (services db) = Some OLD
        /\ services db' = remove_first f (services db)
        /\ rls_owner auth (Service.user_id OLD) = true).

(** [piece_counters]: the same rows up to the total and bookkeeping columns,
    or one row more. *)
Definition counters_step (db db' : DB) : Prop :=
  map counter_key (piece_counters db') = map counter_key (piece_counters db)
  \/ exists k,
       piece_counters db' = piece_counters db ++ [k]
       /\ ~ In (PieceCounter.id k) (map PieceCounter.id (piece_counters db))
       /\ In (PieceCounter.user_id k) (auth_users db)
       /\ In (PieceCounter.client_id k) (map Client.id (clients db))
       /\ find (counter_matches (PieceCounter.user_id k)
                                (PieceCounter.client_id k))
               (piece_counters db) = None.

(** [piece_counter_history]: unchanged, or one row more. *)
Definition history_step (db db' : DB) : Prop :=
  piece_counter_history db' = piece_counter_history db
  \/ exists h,
       piece_counter_history db' = piece_counter_history db ++ [h]
       /\ ~ In (PieceCounterHistory.id h)
               (map PieceCounterHistory.id (piece_counter_history db))
       /\ In (PieceCounterHistory.user_id h) (auth_users db)
       /\ In (PieceCounterHistory.counter_id h)
             (map PieceCounter.id (piece_counters db)).

(** The account a statement runs as; the two functions run as their
    owner. *)
Definition issued_as (s : stmt) : option uuid :=
  match s with
  | rpc_get_or_create_client _ _ _ _ => None
  | rpc_get_or_create_piece_counter _ _ _ _ _ => None
  | insert_into_services auth _ _ _ => auth
  | update_services auth _ _ _ => auth
  | delete_from_services auth _ _ => auth
  | insert_into_piece_counter_history auth _ _ _ => auth
  | update_clients_is_favorite auth _ _ _ => auth
  end.

(** Primary keys. *)
Definition primary_keys (db : DB) : Prop :=
  NoDup (map Client.id (clients db))
  /\ NoDup (map Service.id (services db))
  /\ NoDup (map PieceCounter.id (piece_counters db))
  /\ NoDup (map PieceCounterHistory.id (piece_counter_history db)).

(** Foreign keys: every [user_id] names an account, every [client_id] a
    client, every [counter_id] a piece counter. *)
Definition foreign_keys (db : DB) : Prop :=
  (forall c, In c (clients db) -> In (Client.user_id c) (auth_users db))
  /\ (forall s, In s (services db) ->
                In (Service.user_id s) (auth_users db)
                /\ In (Service.client_id s) (map Client.id (clients db)))
  /\ (forall k, In k (piece_counters db) ->
                In (PieceCounter.user_id k) (auth_users db)
                /\ In (PieceCounter.client_id k) (map Client.id (clients db)))
  /\ (forall h, In h (piece_counter_history db) ->
                In (PieceCounterHistory.user_id h) (auth_users db)
                /\ In (PieceCounterHistory.counter_id h)
                      (map PieceCounter.id (piece_counters db))).

(** ** The screens

    The pure parts of the components that call the hooks.  A JavaScript
    [number] that holds an amount is the count of hundredths it stands for;
    comparisons and signs of differences are the same on both. *)

(** Truthiness of a nullable boolean. *)
Definition truthy (b : option bool) : bool :=
  match b with
  | Some true => true
  | _ => false
  end.

(** A nullable amount in arithmetic: [null] counts as 0. *)
Definition js_number (v : option numeric) : Z :=
  match v with
  | Some x => x
  | None => 0
  end.

(** [ClientsScreen.handleToggleFavorite]: the call with [!currentFavorite];
    an error is logged, not rethrown. *)
Definition handleToggleFavorite (user : option uuid) (now : timestamptz)
    (clientId : uuid) (currentFavorite : option bool) (db : DB) : DB :=
  snd (updateClientFavorite user now clientId (negb (truthy currentFavorite))
         db).

(** [ClientsScreen.getStatusColor] and [getStatusLabel]: above 300.00, above
    150.00, or neither. *)
Definition getStatusColor (client : Client.t) : string :=
  if 30000 <? js_number (Client.total_spent client) then "bg-green-500"
  else if 15000 <? js_number (Client.total_spent client) then "bg-blue-500"
  else "bg-gray-500".

Definition getStatusLabel (client : Client.t) : string :=
  if 30000 <? js_number (Client.total_spent client) then "VIP"
  else if 15000 <? js_number (Client.total_spent client) then "Regular"
  else "Novo".

(** The comparator of [ClientChips] and [QuickActions]: favourites first,
    then the larger [total_spent]. *)
Definition compareClients (a b : Client.t) : Z :=
  if truthy (Client.is_favorite a) && negb (truthy (Client.is_favorite b))
  then -1
  else if negb (truthy (Client.is_favorite a))
          && truthy (Client.is_favorite b)
  then 1
  else js_number (Client.total_spent b) - js_number (Client.total_spent a).

(** [Array.prototype.sort] with a comparator: the sort is stable, so for a
    comparator that orders its inputs consistently the result is the one
    arrangement this insertion computes: an element goes before the first
    later element it does not compare above. *)
Fixpoint insert_sorted {A : Type} (cmp : A -> A -> Z) (x : A) (l : list A)
    : list A :=
  match l with
  | [] => [x]
  | y :: l' =>
      if cmp x y <=? 0 then x :: y :: l' else y :: insert_sorted cmp x l'
  end.

Definition Array_sort {A : Type} (cmp : A -> A -> Z) (l : list A) : list A :=
  fold_right (insert_sorted cmp) [] l.

(** [ClientChips]: [clients.sort(...).slice(0, 4)]. *)
Definition frequentClients (clients : list Client.t) : list Client.t :=
  firstn 4 (Array_sort compareClients clients).

(** [QuickActions]: [clients.sort(...).slice(0, 2)]. *)
Definition topClients (clients : list Client.t) : list Client.t :=
  firstn 2 (Array_sort compareClients clients).

(** A string of ASCII characters only: every code unit is below 128. *)
Fixpoint ascii_only (s : string) : bool :=
  match s with
  | EmptyString => true
  | String c s' => (N_of_ascii c <? 128)%N && ascii_only s'
  end.

(** [String.prototype.toLowerCase] on a string of ASCII characters
    ([ascii_only]): there the method folds the letters A to Z and keeps
    everything else, one character at a time.  On other strings the method
    follows the Unicode case mapping, which depends on the context of a
    character and differs from the database's [LOWER]; that part is not
    modelled, and what is proved of a lower-cased string below is stated for
    ASCII strings. *)
Definition toLowerCase (s : string) : string := LOWER s.

(** [s.includes(sub)]. *)
Fixpoint includes (s sub : string) : bool :=
  String.prefix sub s
  || match s with
     | EmptyString => false
     | String _ s' => includes s' sub
     end.

(** [ClientsScreen]: the clients whose name contains the search text, letter
    case aside. *)
Definition filteredClients (clients : list Client.t) (searchQuery : string)
    : list Client.t :=
  filter (fun client =>
            includes (toLowerCase (Client.name client))
                     (toLowerCase searchQuery))
         clients.

(** [s.split(sep)[0]] for a separator that is not empty: the text before
    the first occurrence of [sep], or all of [s]. *)
Fixpoint split_head (sep s : string) : string :=
  if String.prefix sep s then EmptyString
  else match s with
       | EmptyString => EmptyString
       | String c s' => String c (split_head sep s')
       end.

(** [ServiceForm.handleClientSelect]: the name the form keeps. *)
Definition handleClientSelect (clientName : string) : string :=
  split_head " (" clientName.

(** [a] is shown no later than [b]. *)
Definition precedes (a b : Client.t) : Prop := compareClients a b <= 0.

(** The columns of a service the statistics of its client are computed
    from. *)
Definition stats_key (s : Service.t)
    : uuid * option text * numeric * option timestamptz :=
  (Service.client_id s, Service.status s, Service.value s,
   Service.created_at s).

(** An [UPDATE services] whose [SET] list leaves out the four columns the
    statistics read. *)
Definition keeps_stats_columns (p : Service.patch) : Prop :=
  Service.s_client_id p = KEEP
  /\ Service.s_status p = KEEP
  /\ Service.s_value p = KEEP
  /\ Service.s_created_at p = KEEP.

(** The derived columns of a client. *)
Definition client_stats (c : Client.t) : option numeric * option date :=
  (Client.total_spent c, Client.last_service_date c).

(** What the clients' rows say was spent in all, and what the paid services
    amount to. *)
Definition sum_total_spent (db : DB) : Z :=
  fold_right Z.add 0
    (map (fun c => js_number (Client.total_spent c)) (clients db)).

Definition sum_paid_services (db : DB) : Z :=
  fold_right Z.add 0
    (map Service.value
       (filter (fun s => text_is (Service.status s) "paid"%string)
               (services db))).

(** The lookup of [get_or_create_client] finds the client [cid]. *)
Definition resolves_to_client (u : uuid) (n : text) (cid : uuid) (db : DB)
    : Prop :=
  exists c, find (client_matches u n) (clients db) = Some c
            /\ Client.id c = cid.

(** The lookup of [get_or_create_piece_counter] finds the counter [K]. *)
Definition resolves_to_counter (u c : uuid) (K : uuid) (db : DB) : Prop :=
  exists k, find (counter_matches u c) (piece_counters db) = Some k
            /\ PieceCounter.id k = K.

(** * Properties *)

(** ** Lists, lookups and the error monad *)

Lemma mem_In (x : uuid) (l : list uuid) : mem x l = true <-> In x l.
Proof.
  unfold mem. rewrite existsb_exists. split.
  - intros [y [Hy Heq]]. apply N.eqb_eq in Heq. now subst.
  - intros H. exists x. split; [assumption | apply N.eqb_refl].
Qed.

Lemma mem_not_In (x : uuid) (l : list uuid) : mem x l = false <-> ~ In x l.
Proof.
  rewrite <- mem_In. destruct (mem x l); split; intros H; congruence.
Qed.

Lemma guard_ok (b : bool) (e : error) : guard b e = Ok tt <-> b = true.
Proof. destruct b; simpl; split; intros H; congruence. Qed.

Lemma bind_ok {A B : Type} (r : result A) (k : A -> result B) (b : B) :
  bind r k = Ok b <-> exists a, r = Ok a /\ k a = Ok b.
Proof.
  destruct r as [a | e]; simpl; split.
  - intros H. now exists a.
  - intros [a' [Ha Hk]]. now inversion Ha; subst.
  - discriminate.
  - intros [a' [Ha _]]. discriminate.
Qed.

Lemma bind_guard_ok {B : Type} (c : bool) (e : error) (k : unit -> result B)
    (b : B) :
  bind (guard c e) k = Ok b <-> c = true /\ k tt = Ok b.
Proof.
  destruct c; simpl; split; try tauto; try discriminate.
  intros [H _]. discriminate.
Qed.

Lemma find_app_none {A : Type} (f : A -> bool) (l : list A) (x : A) :
  find f l = None -> find f (l ++ [x]) = if f x then Some x else None.
Proof.
  induction l as [| y l IH]; simpl; [reflexivity |].
  destruct (f y); [discriminate | exact IH].
Qed.

Lemma find_ext_eq {A : Type} (f g : A -> bool) (l : list A) :
  (forall x, f x = g x) -> find f l = find g l.
Proof.
  intros H. induction l as [| y l IH]; simpl; [reflexivity |].
  rewrite H, IH. reflexivity.
Qed.

Lemma find_In {A : Type} (f : A -> bool) (l : list A) (x : A) :
  find f l = Some x -> In x l /\ f x = true.
Proof. apply find_some. Qed.

(** ** Identity resolution *)

Lemma client_matches_lower (u : uuid) (n1 n2 : text) (c : Client.t) :
  LOWER n1 = LOWER n2 -> client_matches u n1 c = client_matches u n2 c.
Proof. intros H. unfold client_matches. now rewrite H. Qed.

Lemma client_matches_new (rnd : uuid) (now : timestamptz) (u : uuid)
    (n1 n2 : text) :
  LOWER n1 = LOWER n2 -> client_matches u n2 (new_client rnd now u n1) = true.
Proof.
  intros H. unfold client_matches. simpl.
  rewrite N.eqb_refl, H, String.eqb_refl. reflexivity.
Qed.

Lemma insert_client_ok (c : Client.t) (db db' : DB) :
  insert_client c db = Ok db' <->
  ~ In (Client.id c) (map Client.id (clients db))
  /\ In (Client.user_id c) (auth_users db)
  /\ db' = with_clients db (clients db ++ [c]).
Proof.
  unfold insert_client.
  rewrite bind_guard_ok, bind_guard_ok, negb_true_iff, mem_not_In, mem_In.
  split.
  - intros [H1 [H2 H3]]. inversion H3. auto.
  - intros [H1 [H2 H3]]. subst. auto.
Qed.

(** The lookup finds what the call before it found or created, under any
    spelling of the name that lower-cases to the same text. *)
Lemma get_or_create_client_again (rnd1 rnd2 : uuid) (now1 now2 : timestamptz)
    (u : uuid) (n1 n2 : text) (db db1 : DB) (cid : uuid) :
  LOWER n1 = LOWER n2 ->
  get_or_create_client rnd1 now1 u n1 db = Ok (cid, db1) ->
  get_or_create_client rnd2 now2 u n2 db1 = Ok (cid, db1).
Proof.
  intros Hlow. unfold get_or_create_client.
  rewrite (find_ext_eq _ _ (clients db1)
             (fun c => client_matches_lower u n2 n1 c (eq_sym Hlow))).
  destruct (find (client_matches u n1) (clients db)) as [c |] eqn:Hfind.
  - intros H. inversion H; subst. now rewrite Hfind.
  - rewrite bind_ok. intros [db' [Hins H]]. inversion H; subst.
    apply insert_client_ok in Hins. destruct Hins as [_ [_ ->]]. simpl.
    rewrite (find_app_none _ _ _ Hfind).
    now rewrite (client_matches_new _ _ _ n1 n1 eq_refl).
Qed.

(** The call succeeds for an account that exists, when the identifier drawn
    for a new row is not taken. *)
Lemma get_or_create_client_succeeds (rnd : uuid) (now : timestamptz)
    (u : uuid) (n : text) (db : DB) :
  In u (auth_users db) ->
  ~ In rnd (map Client.id (clients db)) ->
  exists cid db1, get_or_create_client rnd now u n db = Ok (cid, db1).
Proof.
  intros Hu Hrnd. unfold get_or_create_client.
  destruct (find (client_matches u n) (clients db)) as [c |].
  - now exists (Client.id c), db.
  - exists rnd, (with_clients db (clients db ++ [new_client rnd now u n])).
    assert (H : insert_client (new_client rnd now u n) db
                = Ok (with_clients db (clients db ++ [new_client rnd now u n])))
      by (apply insert_client_ok; auto).
    now rewrite H.
Qed.

(** What the call returns names a client of the account whose name
    lower-cases to the name asked for. *)
Lemma get_or_create_client_names (rnd : uuid) (now : timestamptz)
    (u : uuid) (n : text) (db db1 : DB) (cid : uuid) :
  get_or_create_client rnd now u n db = Ok (cid, db1) ->
  exists c, In c (clients db1) /\ Client.id c = cid
            /\ Client.user_id c = u /\ LOWER (Client.name c) = LOWER n.
Proof.
  unfold get_or_create_client.
  destruct (find (client_matches u n) (clients db)) as [c |] eqn:Hfind.
  - intros H. inversion H; subst. apply find_In in Hfind.
    destruct Hfind as [Hin Hm]. unfold client_matches in Hm.
    apply andb_true_iff in Hm. destruct Hm as [Hu Hn].
    apply N.eqb_eq in Hu. apply String.eqb_eq in Hn. now exists c.
  - rewrite bind_ok. intros [db' [Hins H]]. inversion H; subst.
    apply insert_client_ok in Hins. destruct Hins as [_ [_ ->]].
    exists (new_client cid now u n). simpl. rewrite in_app_iff. simpl. auto.
Qed.



(** C4: within an account, [get_or_create_client] matches a client by
    equality of the lower-cased names: a call under one spelling followed by
    a call under another spelling of the same lower-cased name (as "ana" and
    "Ana") returns the same identifier, that of a client of the account whose
    name lower-cases to it, and the second call creates nothing. *)
Theorem get_or_create_client_case_insensitive
    (rnd1 rnd2 : uuid) (now1 now2 : timestamptz) (A : uuid) (N1 N2 : text)
    (db : DB) :
  In A (auth_users db) ->
  ~ In rnd1 (map Client.id (clients db)) ->
  LOWER N1 = LOWER N2 ->
  exists cid db1,
    get_or_create_client rnd1 now1 A N1 db = Ok (cid, db1)
    /\ get_or_create_client rnd2 now2 A N2 db1 = Ok (cid, db1)
    /\ exists c, In c (clients db1) /\ Client.id c = cid
                 /\ Client.user_id c = A
                 /\ LOWER (Client.name c) = LOWER N2.
Proof.
  intros HA Hrnd Hlow.
  destruct (get_or_create_client_succeeds rnd1 now1 A N1 db HA Hrnd)
    as [cid [db1 H1]].
  exists cid, db1. split; [exact H1 |].
  pose proof (get_or_create_client_again rnd1 rnd2 now1 now2 A N1 N2 db db1
                cid Hlow H1) as H2.
  split; [exact H2 |].
  exact (get_or_create_client_names rnd2 now2 A N2 db1 db1 cid H2).
Qed.

Lemma get_or_create_client_case_insensitive_witness :
  exists cid db1,
    get_or_create_client 10 100 1 "ana" (empty_db false false [1%N])
      = Ok (cid, db1)
    /\ get_or_create_client 11 200 1 "Ana" db1 = Ok (cid, db1)
    /\ exists c, In c (clients db1) /\ Client.id c = cid
                 /\ Client.user_id c = 1%N
                 /\ LOWER (Client.name c) = LOWER "Ana".
Proof.
  apply (get_or_create_client_case_insensitive 10 11 100 200 1 "ana" "Ana"
           (empty_db false false [1%N])).
  - simpl. left. reflexivity.
  - simpl. intros H. exact H.
  - reflexivity.
Defined.

(** ** What each statement leaves alone *)

Lemma recompute_client_stats_inv (cid : uuid) (now : timestamptz)
    (db db' : DB) :
  recompute_client_stats cid now db = Ok db' ->
  services db' = services db
  /\ counters_untouched db db'
  /\ clients db'
     = map (fun c => if N.eqb (Client.id c) cid
                     then set_client_stats
                            (select_total_spent cid (services db))
                            (select_last_service_date cid (services db))
                            now c
                     else c) (clients db).
Proof.
  unfold recompute_client_stats, counters_untouched.
  destruct (mem cid (map Client.id (clients db))) eqn:Hmem.
  - rewrite bind_guard_ok. intros [_ H]. inversion H; subst. simpl. auto.
  - intros H. inversion H; subst. repeat split; try reflexivity.
    apply mem_not_In in Hmem. symmetry.
    rewrite <- (map_id (clients db')) at 2. apply map_ext_in.
    intros c Hc. destruct (N.eqb (Client.id c) cid) eqn:E; [| reflexivity].
    apply N.eqb_eq in E. exfalso. apply Hmem. rewrite <- E.
    now apply in_map.
Qed.

Lemma update_client_stats_inv (NEW OLD : option Service.t)
    (now : timestamptz) (db db' : DB) :
  update_client_stats NEW OLD now db = Ok db' ->
  services db' = services db
  /\ counters_untouched db db'
  /\ map Client.id (clients db') = map Client.id (clients db).
Proof.
  unfold update_client_stats.
  destruct (COALESCE _ _) as [cid |].
  - intros H. apply recompute_client_stats_inv in H.
    destruct H as [Hs [Hk Hc]]. repeat split; try assumption; try apply Hk.
    rewrite Hc, map_map. apply map_ext. intros c.
    now destruct (N.eqb (Client.id c) cid).
  - intros H. inversion H; subst. unfold counters_untouched. auto.
Qed.

Lemma get_or_create_client_inv (rnd : uuid) (now : timestamptz) (u : uuid)
    (n : text) (db db1 : DB) (cid : uuid) :
  get_or_create_client rnd now u n db = Ok (cid, db1) ->
  services db1 = services db
  /\ counters_untouched db db1
  /\ (db1 = db
      \/ find (client_matches u n) (clients db) = None
         /\ cid = rnd
         /\ ~ In rnd (map Client.id (clients db))
         /\ clients db1 = clients db ++ [new_client rnd now u n]).
Proof.
  unfold get_or_create_client, counters_untouched.
  destruct (find (client_matches u n) (clients db)) as [c |].
  - intros H. inversion H; subst. auto.
  - rewrite bind_ok. intros [db' [Hins H]]. inversion H; subst.
    apply insert_client_ok in Hins. destruct Hins as [Hid [_ ->]].
    simpl. repeat split; try reflexivity. right. auto.
Qed.

Lemma insert_service_inv (auth : option uuid) (rnd : uuid)
    (now : timestamptz) (p : Service.payload) (db db' : DB)
    (NEW : Service.t) :
  insert_service auth rnd now p db = Ok (NEW, db') ->
  service_of_payload rnd now p = Ok NEW
  /\ services_constraints db NEW = Ok tt
  /\ update_client_stats (Some NEW) None now
       (with_services db (services db ++ [NEW])) = Ok db'.
Proof.
  unfold insert_service. rewrite bind_guard_ok. intros [_ H].
  apply bind_ok in H. destruct H as [s [Hs H]].
  apply bind_ok in H. destruct H as [[] [Hc H]].
  apply bind_guard_ok in H. destruct H as [_ H].
  apply bind_ok in H. destruct H as [db2 [Ht H]].
  inversion H; subst. auto.
Qed.

Lemma update_service_inv (auth : option uuid) (now : timestamptz)
    (sid : uuid) (p : Service.patch) (db db' : DB) :
  update_service auth now sid p db = Ok db' ->
  db' = db
  \/ exists OLD NEW,
       find (service_addressed auth sid) (services db) = Some OLD
       /\ patched_service db now OLD p = Ok NEW
       /\ services_constraints db NEW = Ok tt
       /\ update_client_stats (Some NEW) (Some OLD) now
            (with_services db
               (replace_first (service_addressed auth sid) NEW (services db)))
          = Ok db'.
Proof.
  unfold update_service.
  destruct (find (service_addressed auth sid) (services db)) as [OLD |].
  - intros H. apply bind_ok in H. destruct H as [NEW [Hp H]].
    apply bind_guard_ok in H. destruct H as [_ H].
    apply bind_ok in H. destruct H as [[] [Hc H]].
    right. exists OLD, NEW. auto.
  - intros H. inversion H. auto.
Qed.

Lemma delete_service_inv (auth : option uuid) (now : timestamptz)
    (sid : uuid) (db db' : DB) :
  delete_service auth now sid db = Ok db' ->
  db' = db
  \/ exists OLD,
       find (service_addressed auth sid) (services db) = Some OLD
       /\ update_client_stats None (Some OLD) now
            (with_services db
               (remove_first (service_addressed auth sid) (services db)))
          = Ok db'.
Proof.
  unfold delete_service.
  destruct (find (service_addressed auth sid) (services db)) as [OLD |].
  - intros H. right. exists OLD. auto.
  - intros H. inversion H. auto.
Qed.

Lemma insert_piece_counter_ok (k : PieceCounter.t) (db db' : DB) :
  insert_piece_counter k db = Ok db' <->
  ~ In (PieceCounter.id k) (map PieceCounter.id (piece_counters db))
  /\ In (PieceCounter.user_id k) (auth_users db)
  /\ In (PieceCounter.client_id k) (map Client.id (clients db))
  /\ db' = with_piece_counters db (piece_counters db ++ [k]).
Proof.
  unfold insert_piece_counter.
  rewrite !bind_guard_ok, negb_true_iff, mem_not_In, !mem_In.
  split.
  - intros [H1 [H2 [H3 H4]]]. inversion H4. auto.
  - intros [H1 [H2 [H3 H4]]]. subst. auto.
Qed.

Lemma get_or_create_piece_counter_inv (rnd : uuid) (now : timestamptz)
    (u c : uuid) (n : text) (db db1 : DB) (kid : uuid) :
  get_or_create_piece_counter rnd now u c n db = Ok (kid, db1) ->
  services_untouched db db1
  /\ piece_counter_history db1 = piece_counter_history db
  /\ (db1 = db /\ In kid (map PieceCounter.id (piece_counters db))
      \/ find (counter_matches u c) (piece_counters db) = None
         /\ kid = rnd
         /\ ~ In rnd (map PieceCounter.id (piece_counters db))
         /\ piece_counters db1
            = piece_counters db ++ [new_piece_counter rnd now u c n]).
Proof.
  unfold get_or_create_piece_counter, services_untouched.
  destruct (find (counter_matches u c) (piece_counters db)) as [k |] eqn:Hf.
  - intros H. inversion H; subst. repeat split; try reflexivity. left.
    split; [reflexivity |]. apply find_In in Hf. now apply in_map.
  - rewrite bind_ok. intros [db' [Hins H]]. inversion H; subst.
    apply insert_piece_counter_ok in Hins.
    destruct Hins as [Hid [_ [_ ->]]]. simpl.
    repeat split; try reflexivity. right. auto.
Qed.

Lemma history_of_payload_inv (rnd : uuid) (now : timestamptz)
    (p : PieceCounterHistory.payload) (h : PieceCounterHistory.t) :
  history_of_payload rnd now p = Ok h ->
  PieceCounterHistory.p_counter_id p
  = VALUE (PieceCounterHistory.counter_id h)
  /\ PieceCounterHistory.p_pieces_added p
     = VALUE (PieceCounterHistory.pieces_added h).
Proof.
  unfold history_of_payload. destruct p as [pi pu pc pn pa pd pt]. simpl.
  destruct (resolve (Some rnd) pi); simpl; [| discriminate].
  destruct pu; simpl; try discriminate.
  destruct pc; simpl; try discriminate.
  destruct pn; simpl; try discriminate.
  destruct pa; simpl; try discriminate.
  intros H. inversion H; subst. simpl. auto.
Qed.

Lemma insert_history_inv (auth : option uuid) (rnd : uuid)
    (now : timestamptz) (p : PieceCounterHistory.payload) (db db' : DB)
    (h : PieceCounterHistory.t) :
  insert_history auth rnd now p db = Ok (h, db') ->
  history_of_payload rnd now p = Ok h
  /\ services_untouched db db'
  /\ In (PieceCounterHistory.counter_id h)
        (map PieceCounter.id (piece_counters db))
  /\ piece_counter_history db' = piece_counter_history db ++ [h]
  /\ piece_counters db'
     = map (fun k => if N.eqb (PieceCounter.id k)
                              (PieceCounterHistory.counter_id h)
                     then bump_counter (PieceCounterHistory.pieces_added h)
                                       now k
                     else k) (piece_counters db).
Proof.
  unfold insert_history, services_untouched.
  rewrite bind_guard_ok. intros [_ H].
  apply bind_ok in H. destruct H as [h' [Hh H]].
  apply bind_guard_ok in H. destruct H as [_ H].
  apply bind_guard_ok in H. destruct H as [_ H].
  apply bind_guard_ok in H. destruct H as [_ H].
  apply bind_guard_ok in H. destruct H as [Hfk H].
  apply bind_ok in H. destruct H as [db2 [Ht H]].
  inversion H; subst. clear H.
  unfold update_piece_counter_total in Ht.
  apply bind_guard_ok in Ht. destruct Ht as [_ Ht].
  inversion Ht; subst. simpl. apply mem_In in Hfk. auto.
Qed.

Lemma update_client_is_favorite_inv (auth : option uuid)
    (now : timestamptz) (cid : uuid) (b : bool) (db db' : DB) :
  update_client_is_favorite auth now cid b db = Ok db' ->
  services db' = services db
  /\ counters_untouched db db'
  /\ clients db'
     = map (fun c => if client_addressed auth cid c
                     then set_is_favorite db now b c
                     else c) (clients db).
Proof.
  unfold update_client_is_favorite, counters_untouched.
  intros H. inversion H; subst. simpl. auto.
Qed.

(** ** Piece counter accumulation *)

Lemma find_map_same_key {A : Type} (f : A -> bool) (g : A -> A)
    (l : list A) :
  (forall x, f (g x) = f x) -> find f (map g l) = option_map g (find f l).
Proof.
  intros H. induction l as [| x l IH]; simpl; [reflexivity |].
  rewrite H. destruct (f x); [reflexivity | exact IH].
Qed.

Lemma find_app_some {A : Type} (f : A -> bool) (l l' : list A) (x : A) :
  find f l = Some x -> find f (l ++ l') = Some x.
Proof.
  induction l as [| y l IH]; simpl; [discriminate |].
  destruct (f y); [trivial | exact IH].
Qed.

Lemma find_none_not_In (K : uuid) (ks : list PieceCounter.t) :
  ~ In K (map PieceCounter.id ks) ->
  find (fun k => N.eqb (PieceCounter.id k) K) ks = None.
Proof.
  intros H. destruct (find _ ks) as [k |] eqn:Hf; [| reflexivity].
  apply find_In in Hf. destruct Hf as [Hin Hk]. apply N.eqb_eq in Hk.
  exfalso. apply H. rewrite <- Hk. now apply in_map.
Qed.

Lemma ledger_total_app (K : uuid) (hs : list PieceCounterHistory.t)
    (h : PieceCounterHistory.t) :
  ledger_total K (hs ++ [h])
  = ledger_total K hs
    + (if N.eqb (PieceCounterHistory.counter_id h) K
       then PieceCounterHistory.pieces_added h else 0).
Proof.
  unfold ledger_total. induction hs as [| x hs IH]; simpl.
  - destruct (N.eqb (PieceCounterHistory.counter_id h) K); simpl; lia.
  - destruct (N.eqb (PieceCounterHistory.counter_id x) K); simpl;
      rewrite IH; lia.
Qed.

Lemma ledger_total_absent (K : uuid) (hs : list PieceCounterHistory.t) :
  (forall h, In h hs -> PieceCounterHistory.counter_id h <> K) ->
  ledger_total K hs = 0.
Proof.
  unfold ledger_total. induction hs as [| x hs IH]; simpl; intros H.
  - reflexivity.
  - destruct (N.eqb (PieceCounterHistory.counter_id x) K) eqn:E.
    + apply N.eqb_eq in E. exfalso. exact (H x (or_introl eq_refl) E).
    + apply IH. intros h Hh. apply H. now right.
Qed.

(** The stored total after one history insertion, read back. *)
Lemma total_pieces_of_insert_history (auth : option uuid) (rnd : uuid)
    (now : timestamptz) (p : PieceCounterHistory.payload) (db db' : DB)
    (h : PieceCounterHistory.t) (K : uuid) :
  insert_history auth rnd now p db = Ok (h, db') ->
  total_pieces_of K db'
  = if N.eqb K (PieceCounterHistory.counter_id h)
    then option_map
           (fun t => add_pieces t (PieceCounterHistory.pieces_added h))
           (total_pieces_of K db)
    else total_pieces_of K db.
Proof.
  intros H. apply insert_history_inv in H.
  destruct H as [_ [_ [_ [_ Hk]]]]. unfold total_pieces_of. rewrite Hk.
  rewrite find_map_same_key.
  - destruct (find _ (piece_counters db)) as [k |] eqn:Hf; simpl.
    + apply find_In in Hf. destruct Hf as [_ Hid]. apply N.eqb_eq in Hid.
      rewrite Hid. now destruct (N.eqb K (PieceCounterHistory.counter_id h)).
    + now destruct (N.eqb K (PieceCounterHistory.counter_id h)).
  - intros k. now destruct (N.eqb (PieceCounter.id k) _).
Qed.

Lemma total_pieces_of_fresh (rnd : uuid) (now : timestamptz) (u c : uuid)
    (n : text) (db db1 : DB) (K : uuid) :
  find (counter_matches u c) (piece_counters db) = None ->
  get_or_create_piece_counter rnd now u c n db = Ok (K, db1) ->
  total_pieces_of K db1 = Some (Some 0)
  /\ ~ In K (map PieceCounter.id (piece_counters db))
  /\ piece_counter_history db1 = piece_counter_history db.
Proof.
  intros Hnone. unfold get_or_create_piece_counter. rewrite Hnone.
  rewrite bind_ok. intros [db' [Hins H]]. inversion H; subst.
  apply insert_piece_counter_ok in Hins. simpl in Hins.
  destruct Hins as [Hid [_ [_ ->]]].
  split; [| auto]. unfold total_pieces_of. simpl.
  rewrite (find_app_none _ _ _ (find_none_not_In _ _ Hid)).
  simpl. now rewrite N.eqb_refl.
Qed.

Lemma exec_appends_to (K : uuid) (s : stmt) (db db' : DB)
    (t : option int4) :
  appends_to K s ->
  exec s db = Ok db' ->
  total_pieces_of K db = Some t ->
  total_pieces_of K db' = Some (add_pieces t (delta_of s)).
Proof.
  destruct s; simpl; try contradiction.
  intros HK H Ht. apply bind_ok in H. destruct H as [[h db2] [Hins H]].
  inversion H; subst. simpl.
  rewrite (total_pieces_of_insert_history _ _ _ _ _ _ _ K Hins), Ht.
  apply insert_history_inv in Hins. destruct Hins as [Hp _].
  apply history_of_payload_inv in Hp. destruct Hp as [Hc Ha].
  rewrite HK in Hc. inversion Hc; subst.
  rewrite Ha, N.eqb_refl. reflexivity.
Qed.

Lemma exec_all_appends_to (K : uuid) (l : list stmt) :
  Forall (appends_to K) l ->
  forall (db db' : DB) (t : int4),
    exec_all l db = Ok db' ->
    total_pieces_of K db = Some (Some t) ->
    total_pieces_of K db'
    = Some (Some (t + fold_right Z.add 0 (map delta_of l))).
Proof.
  induction 1 as [| s l Hs _ IH]; simpl; intros db db' t Hrun Ht.
  - inversion Hrun; subst. rewrite Ht. do 2 f_equal. lia.
  - apply bind_ok in Hrun. destruct Hrun as [db1 [H1 Hrest]].
    pose proof (exec_appends_to K s db db1 (Some t) Hs H1 Ht) as Ht1.
    simpl in Ht1. rewrite (IH db1 db' _ Hrest Ht1). do 2 f_equal. lia.
Qed.

(** C3: for a counter [K] just created by [get_or_create_piece_counter],
    after a sequence of history insertions for [K] with signed deltas
    d1..dn, [total_pieces] of [K] is d1 + ... + dn; no floor is enforced, and
    the total does go below zero (here to -3, from +10 then -13). *)
Theorem total_pieces_is_sum_of_deltas :
  (forall (rnd : uuid) (now : timestamptz) (u c : uuid) (n : text)
          (db db1 db2 : DB) (K : uuid) (l : list stmt),
      find (counter_matches u c) (piece_counters db) = None ->
      get_or_create_piece_counter rnd now u c n db = Ok (K, db1) ->
      Forall (appends_to K) l ->
      exec_all l db1 = Ok db2 ->
      total_pieces_of K db2
      = Some (Some (fold_right Z.add 0 (map delta_of l))))
  /\ (exists (rnd : uuid) (now : timestamptz) (u c : uuid) (n : text)
             (db db1 db2 : DB) (K : uuid) (l : list stmt),
        find (counter_matches u c) (piece_counters db) = None
        /\ get_or_create_piece_counter rnd now u c n db = Ok (K, db1)
        /\ Forall (appends_to K) l
        /\ exec_all l db1 = Ok db2
        /\ total_pieces_of K db2 = Some (Some (-3))).
Proof.
  split.
  - intros rnd now u c n db db1 db2 K l Hnone Hget Hl Hrun.
    destruct (total_pieces_of_fresh _ _ _ _ _ _ _ _ Hnone Hget)
      as [H0 _].
    now rewrite (exec_all_appends_to K l Hl db1 db2 0 Hrun H0).
  - set (h := fun (rnd : uuid) (d : int4) =>
                insert_into_piece_counter_history (Some 1%N) rnd 7
                  (PieceCounterHistory.mk_payload DEFAULT (VALUE 1%N)
                     (VALUE 30%N) (VALUE "Ana"%string) (VALUE d)
                     DEFAULT DEFAULT)).
    exists 30%N, 2, 1%N, 10%N, "Ana"%string,
      (mkDB false false [1%N] [new_client 10 1 1 "Ana"] [] [] []).
    do 2 eexists. exists 30%N, [h 40%N 10; h 41%N (-13)].
    split; [reflexivity |]. split; [vm_compute; reflexivity |]. split.
    + repeat constructor.
    + split; [vm_compute; reflexivity | vm_compute; reflexivity].
Qed.

Lemma total_pieces_is_sum_of_deltas_witness :
  let db := mkDB false false [1%N] [new_client 10 1 1 "Ana"] [] [] [] in
  let h := fun (rnd : uuid) (d : int4) =>
             insert_into_piece_counter_history (Some 1%N) rnd 7
               (PieceCounterHistory.mk_payload DEFAULT (VALUE 1%N)
                  (VALUE 30%N) (VALUE "Ana"%string) (VALUE d)
                  DEFAULT DEFAULT) in
  let l := [h 40%N 10; h 41%N (-3)] in
  let db1 := step db (rpc_get_or_create_piece_counter 30 2 1 10 "Ana") in
  total_pieces_of 30 (run l db1) = Some (Some 7).
Proof.
  intros db h l db1.
  apply (proj1 total_pieces_is_sum_of_deltas 30%N 2 1%N 10%N "Ana"%string
           db db1 (run l db1) 30%N l).
  - reflexivity.
  - vm_compute. reflexivity.
  - repeat constructor.
  - vm_compute. reflexivity.
Defined.

Lemma tracks_untouched (K : uuid) (db db' : DB) :
  counters_untouched db db' ->
  counter_tracks_ledger K db -> counter_tracks_ledger K db'.
Proof.
  unfold counters_untouched, counter_tracks_ledger, total_pieces_of.
  intros [-> ->]. trivial.
Qed.

Lemma tracks_after_trigger (K : uuid) (NEW OLD : option Service.t)
    (now : timestamptz) (db db' : DB) (ss : list Service.t) :
  update_client_stats NEW OLD now (with_services db ss) = Ok db' ->
  counter_tracks_ledger K db -> counter_tracks_ledger K db'.
Proof.
  intros H. apply update_client_stats_inv in H. destruct H as [_ [Hk _]].
  intros Ht. apply (tracks_untouched K (with_services db ss) db' Hk).
  exact Ht.
Qed.

(** Every statement keeps the stored total of [K] equal to the sum over the
    ledger of [K]. *)
Lemma exec_tracks (K : uuid) (s : stmt) (db db' : DB) :
  exec s db = Ok db' ->
  counter_tracks_ledger K db -> counter_tracks_ledger K db'.
Proof.
  destruct s as [rnd now u n | rnd now u c n | auth rnd now p
                 | auth now sid p | auth now sid | auth rnd now p
                 | auth now cid b]; simpl; intros H Ht.
  - apply bind_ok in H. destruct H as [[cid db1] [Hg H]].
    simpl in H. injection H as <-.
    apply get_or_create_client_inv in Hg. destruct Hg as [_ [Hk _]].
    exact (tracks_untouched K db db1 Hk Ht).
  - apply bind_ok in H. destruct H as [[kid db1] [Hg H]].
    simpl in H. injection H as <-.
    apply get_or_create_piece_counter_inv in Hg.
    destruct Hg as [_ [Hh [[-> _] | [_ [_ [_ Hk]]]]]]; [exact Ht |].
    unfold counter_tracks_ledger, total_pieces_of in *. rewrite Hh, Hk.
    destruct (find _ (piece_counters db)) as [k |] eqn:Hf;
      [| discriminate].
    now rewrite (find_app_some _ _ _ _ Hf).
  - apply bind_ok in H. destruct H as [[NEW db1] [Hi H]].
    simpl in H. injection H as <-.
    apply insert_service_inv in Hi. destruct Hi as [_ [_ Hi]].
    exact (tracks_after_trigger K _ _ _ db db1 _ Hi Ht).
  - apply update_service_inv in H.
    destruct H as [-> | [OLD [NEW [_ [_ [_ H]]]]]]; [exact Ht |].
    exact (tracks_after_trigger K _ _ _ db db' _ H Ht).
  - apply delete_service_inv in H.
    destruct H as [-> | [OLD [_ H]]]; [exact Ht |].
    exact (tracks_after_trigger K _ _ _ db db' _ H Ht).
  - apply bind_ok in H. destruct H as [[h db1] [Hi H]].
    simpl in H. injection H as <-.
    unfold counter_tracks_ledger in *.
    rewrite (total_pieces_of_insert_history _ _ _ _ _ _ _ K Hi), Ht.
    apply insert_history_inv in Hi. destruct Hi as [_ [_ [_ [Hh _]]]].
    rewrite Hh, ledger_total_app, (N.eqb_sym K).
    destruct (N.eqb (PieceCounterHistory.counter_id h) K); simpl.
    + reflexivity.
    + do 2 f_equal. lia.
  - apply update_client_is_favorite_inv in H. destruct H as [_ [Hk _]].
    exact (tracks_untouched K db db' Hk Ht).
Qed.

Lemma run_tracks (K : uuid) (l : list stmt) (db : DB) :
  counter_tracks_ledger K db -> counter_tracks_ledger K (run l db).
Proof.
  revert db. unfold run.
  induction l as [| s l IH]; simpl; intros db Ht; [exact Ht |].
  apply IH. unfold step. destruct (exec s db) as [db' |] eqn:He.
  - exact (exec_tracks K s db db' He Ht).
  - exact Ht.
Qed.

(** C5: the incremental update agrees with the recomputation from the
    ledger.  From a counter [K] that [get_or_create_piece_counter] has just
    created, after any sequence of statements (history insertions for any
    counter among them, each rolled back when it raises), the stored
    [total_pieces] of [K] is the sum of [pieces_added] over the history rows
    of [K]. *)
Theorem incremental_total_matches_ledger
    (rnd : uuid) (now : timestamptz) (u c : uuid) (n : text)
    (db db1 : DB) (K : uuid) (l : list stmt) :
  history_fk db ->
  find (counter_matches u c) (piece_counters db) = None ->
  get_or_create_piece_counter rnd now u c n db = Ok (K, db1) ->
  total_pieces_of K (run l db1)
  = Some (Some (ledger_total K (piece_counter_history (run l db1)))).
Proof.
  intros Hfk Hnone Hget. apply run_tracks.
  destruct (total_pieces_of_fresh _ _ _ _ _ _ _ _ Hnone Hget)
    as [H0 [Hid Hh]].
  unfold counter_tracks_ledger. rewrite H0, Hh.
  rewrite ledger_total_absent; [reflexivity |].
  intros h Hin HK. apply Hid. rewrite <- HK. now apply Hfk.
Qed.

Lemma incremental_total_matches_ledger_witness :
  let db := mkDB false false [1%N] [new_client 10 1 1 "Ana"] [] [] [] in
  let h := fun (rnd : uuid) (d : int4) =>
             insert_into_piece_counter_history (Some 1%N) rnd 7
               (PieceCounterHistory.mk_payload DEFAULT (VALUE 1%N)
                  (VALUE 30%N) (VALUE "Ana"%string) (VALUE d)
                  DEFAULT DEFAULT) in
  let l := [h 40%N 10; h 41%N 2147483647; h 42%N (-3)] in
  let db1 := step db (rpc_get_or_create_piece_counter 30 2 1 10 "Ana") in
  total_pieces_of 30 (run l db1) = Some (Some 7)
  /\ ledger_total 30 (piece_counter_history (run l db1)) = 7.
Proof.
  intros db h l db1. split; [| vm_compute; reflexivity].
  apply (incremental_total_matches_ledger 30%N 2 1%N 10%N "Ana"%string
           db db1 30%N l).
  - intros x Hx. destruct Hx.
  - reflexivity.
  - vm_compute. reflexivity.
Defined.

(** ** Client statistics recomputation *)

Lemma filter_andb {A : Type} (f g : A -> bool) (l : list A) :
  filter (fun x => f x && g x) l = filter g (filter f l).
Proof.
  induction l as [| x l IH]; simpl; [reflexivity |].
  destruct (f x); simpl; [| exact IH].
  destruct (g x); now rewrite IH.
Qed.

(** The query of the trigger computes the total the specification names. *)
Lemma select_total_spent_spec (cid : uuid) (ss : list Service.t) :
  select_total_spent cid ss = Some (paid_total cid ss).
Proof.
  unfold select_total_spent, paid_total, services_of.
  rewrite filter_andb.
  now destruct (map Service.value _).
Qed.

Lemma select_last_service_date_spec (cid : uuid) (ss : list Service.t) :
  select_last_service_date cid ss = last_creation_date cid ss.
Proof. reflexivity. Qed.

Lemma services_of_app (cid : uuid) (ss : list Service.t) (x : Service.t) :
  services_of cid (ss ++ [x])
  = services_of cid ss
    ++ (if N.eqb (Service.client_id x) cid then [x] else []).
Proof. unfold services_of. rewrite filter_app. reflexivity. Qed.

Lemma services_of_absent (cid : uuid) (ss : list Service.t) :
  (forall s, In s ss -> Service.client_id s <> cid) ->
  services_of cid ss = [].
Proof.
  unfold services_of. induction ss as [| x ss IH]; simpl; intros H.
  - reflexivity.
  - destruct (N.eqb (Service.client_id x) cid) eqn:E.
    + apply N.eqb_eq in E. exfalso. exact (H x (or_introl eq_refl) E).
    + apply IH. intros s Hs. apply H. now right.
Qed.

Lemma services_of_replace_other (f : Service.t -> bool) (x y : Service.t)
    (cid : uuid) (ss : list Service.t) :
  find f ss = Some x ->
  Service.client_id x <> cid -> Service.client_id y <> cid ->
  services_of cid (replace_first f y ss) = services_of cid ss.
Proof.
  unfold services_of. intros Hf Hx Hy.
  induction ss as [| z ss IH]; simpl in *; [discriminate |].
  destruct (f z).
  - inversion Hf; subst. simpl.
    apply N.eqb_neq in Hx. apply N.eqb_neq in Hy. now rewrite Hx, Hy.
  - simpl. destruct (N.eqb (Service.client_id z) cid); now rewrite IH.
Qed.

Lemma services_of_remove_other (f : Service.t -> bool) (x : Service.t)
    (cid : uuid) (ss : list Service.t) :
  find f ss = Some x ->
  Service.client_id x <> cid ->
  services_of cid (remove_first f ss) = services_of cid ss.
Proof.
  unfold services_of. intros Hf Hx.
  induction ss as [| z ss IH]; simpl in *; [discriminate |].
  destruct (f z).
  - inversion Hf; subst. apply N.eqb_neq in Hx. now rewrite Hx.
  - simpl. destruct (N.eqb (Service.client_id z) cid); now rewrite IH.
Qed.

Lemma In_replace_first {A : Type} (f : A -> bool) (y s : A) (l : list A) :
  In s (replace_first f y l) -> s = y \/ In s l.
Proof.
  induction l as [| x l IH]; simpl; [tauto |].
  destruct (f x); simpl.
  - intros [H | H]; auto.
  - intros [H | H]; auto. destruct (IH H); auto.
Qed.

Lemma In_remove_first {A : Type} (f : A -> bool) (s : A) (l : list A) :
  In s (remove_first f l) -> In s l.
Proof.
  induction l as [| x l IH]; simpl; [tauto |].
  destruct (f x); simpl; [auto |].
  intros [H | H]; auto.
Qed.

Lemma stats_hold_services_of (db db' : DB) (c : Client.t) :
  services_of (Client.id c) (services db')
  = services_of (Client.id c) (services db) ->
  client_stats_hold db c -> client_stats_hold db' c.
Proof.
  unfold client_stats_hold, paid_total, last_creation_date.
  intros ->. trivial.
Qed.

Lemma services_constraints_fk (db : DB) (s : Service.t) :
  services_constraints db s = Ok tt ->
  In (Service.client_id s) (map Client.id (clients db)).
Proof.
  unfold services_constraints. rewrite !bind_guard_ok, guard_ok.
  intros [_ [_ [_ [_ H]]]]. now apply mem_In.
Qed.

(** After the recomputation for [cid], the statistics are consistent again
    when the services of every other client are as they were. *)
Lemma recompute_restores (cid : uuid) (now : timestamptz)
    (db db2 db' : DB) :
  recompute_client_stats cid now db2 = Ok db' ->
  clients db2 = clients db ->
  (forall cid', cid' <> cid ->
     services_of cid' (services db2) = services_of cid' (services db)) ->
  client_stats_consistent db -> client_stats_consistent db'.
Proof.
  intros H Hc Hothers Hinv. apply recompute_client_stats_inv in H.
  destruct H as [Hs [_ Hcl]]. intros c' Hin. rewrite Hcl, Hc in Hin.
  apply in_map_iff in Hin. destruct Hin as [c [Hg Hin]].
  destruct (N.eqb (Client.id c) cid) eqn:E.
  - apply N.eqb_eq in E. subst c'. unfold client_stats_hold. simpl.
    rewrite Hs, E, select_total_spent_spec, select_last_service_date_spec.
    auto.
  - apply N.eqb_neq in E. subst c'.
    apply (stats_hold_services_of db db' c).
    + rewrite Hs. now apply Hothers.
    + now apply Hinv.
Qed.

Lemma patched_service_keeps (db : DB) (now : timestamptz)
    (OLD NEW : Service.t) (p : Service.patch) :
  Service.s_client_id p = KEEP ->
  patched_service db now OLD p = Ok NEW ->
  Service.client_id NEW = Service.client_id OLD.
Proof.
  unfold patched_service. intros ->. simpl.
  intros H. apply bind_ok in H. destruct H as [u [_ H]].
  apply bind_ok in H. destruct H as [n [_ H]].
  apply bind_ok in H. destruct H as [d [_ H]].
  apply bind_ok in H. destruct H as [v [_ H]].
  inversion H; subst. reflexivity.
Qed.

Lemma fk_after_trigger (NEW OLD : option Service.t) (now : timestamptz)
    (db db' : DB) (ss : list Service.t) :
  update_client_stats NEW OLD now (with_services db ss) = Ok db' ->
  (forall s, In s ss -> In (Service.client_id s) (map Client.id (clients db))) ->
  services_fk db'.
Proof.
  intros H Hss. apply update_client_stats_inv in H.
  destruct H as [Hs [_ Hids]]. intros s Hin. rewrite Hids, Hs in *.
  now apply Hss.
Qed.

(** A statement that does not move a service to another client keeps the
    statistics of every client consistent. *)
Lemma exec_client_inv (s : stmt) (db db' : DB) :
  keeps_client s ->
  exec s db = Ok db' ->
  client_inv db -> client_inv db'.
Proof.
  unfold client_inv.
  destruct s as [rnd now u n | rnd now u c n | auth rnd now p
                 | auth now sid p | auth now sid | auth rnd now p
                 | auth now cid b]; simpl; intros Hkeep H [Hinv Hfk].
  - apply bind_ok in H. destruct H as [[cid db1] [Hg H]].
    simpl in H. injection H as <-.
    apply get_or_create_client_inv in Hg.
    destruct Hg as [Hs [_ [-> | [_ [_ [Hid Hc]]]]]]; [auto |]. split.
    + intros c Hin. rewrite Hc in Hin. apply in_app_iff in Hin.
      destruct Hin as [Hin | [<- | []]].
      * apply (stats_hold_services_of db db1 c); [now rewrite Hs | auto].
      * unfold client_stats_hold, paid_total, last_creation_date. simpl.
        rewrite Hs, services_of_absent; [auto |].
        intros s Hin E. apply Hid. rewrite <- E. now apply Hfk.
    + intros s Hin. rewrite Hs in Hin. rewrite Hc, map_app, in_app_iff.
      left. now apply Hfk.
  - apply bind_ok in H. destruct H as [[kid db1] [Hg H]].
    simpl in H. injection H as <-.
    apply get_or_create_piece_counter_inv in Hg.
    destruct Hg as [[Hc Hs] _]. split.
    + intros c0 Hin. rewrite Hc in Hin.
      apply (stats_hold_services_of db db1 c0); [now rewrite Hs | auto].
    + intros s Hin. rewrite Hs in Hin. rewrite Hc. now apply Hfk.
  - apply bind_ok in H. destruct H as [[NEW db1] [Hi H]].
    simpl in H. injection H as <-.
    apply insert_service_inv in Hi. destruct Hi as [_ [Hcs Ht]].
    apply services_constraints_fk in Hcs. split.
    + simpl in Ht.
      apply (recompute_restores _ _ db _ _ Ht); [reflexivity | | exact Hinv].
      intros cid' Hne. simpl. rewrite services_of_app.
      destruct (N.eqb (Service.client_id NEW) cid') eqn:E.
      * apply N.eqb_eq in E. congruence.
      * apply app_nil_r.
    + apply (fk_after_trigger _ _ _ _ _ _ Ht). intros s Hin.
      apply in_app_iff in Hin. destruct Hin as [Hin | [<- | []]]; auto.
  - apply update_service_inv in H.
    destruct H as [-> | [OLD [NEW [Hf [Hp [Hcs Ht]]]]]]; [auto |].
    apply services_constraints_fk in Hcs.
    pose proof (patched_service_keeps _ _ _ _ _ Hkeep Hp) as Hsame. split.
    + simpl in Ht.
      apply (recompute_restores _ _ db _ _ Ht); [reflexivity | | exact Hinv].
      intros cid' Hne. simpl.
      apply (services_of_replace_other _ OLD); [exact Hf | | ]; congruence.
    + apply (fk_after_trigger _ _ _ _ _ _ Ht). intros s Hin.
      apply In_replace_first in Hin. destruct Hin as [-> | Hin]; auto.
  - apply delete_service_inv in H.
    destruct H as [-> | [OLD [Hf Ht]]]; [auto |]. split.
    + simpl in Ht.
      apply (recompute_restores _ _ db _ _ Ht); [reflexivity | | exact Hinv].
      intros cid' Hne. simpl.
      apply (services_of_remove_other _ OLD); [exact Hf | congruence].
    + apply (fk_after_trigger _ _ _ _ _ _ Ht). intros s Hin.
      apply In_remove_first in Hin. auto.
  - apply bind_ok in H. destruct H as [[h db1] [Hi H]].
    simpl in H. injection H as <-.
    apply insert_history_inv in Hi. destruct Hi as [_ [[Hc Hs] _]]. split.
    + intros c Hin. rewrite Hc in Hin.
      apply (stats_hold_services_of db db1 c); [now rewrite Hs | auto].
    + intros s Hin. rewrite Hs in Hin. rewrite Hc. now apply Hfk.
  - apply update_client_is_favorite_inv in H. destruct H as [Hs [_ Hc]].
    split.
    + intros c' Hin. rewrite Hc in Hin. apply in_map_iff in Hin.
      destruct Hin as [c0 [<- Hin]].
      pose proof (Hinv c0 Hin) as Hc0. unfold client_stats_hold in *.
      rewrite Hs. now destruct (client_addressed auth cid c0).
    + intros s Hin. rewrite Hs in Hin. rewrite Hc, map_map.
      rewrite (map_ext _ Client.id); [now apply Hfk |].
      intros c0. now destruct (client_addressed auth cid c0).
Qed.

Lemma run_client_inv (l : list stmt) :
  Forall keeps_client l ->
  forall db, client_inv db -> client_inv (run l db).
Proof.
  unfold run. induction 1 as [| s l Hs _ IH]; simpl; intros db Hinv.
  - exact Hinv.
  - apply IH. unfold step. destruct (exec s db) as [db' |] eqn:He.
    + exact (exec_client_inv s db db' Hs He Hinv).
    + exact Hinv.
Qed.

Lemma empty_db_client_inv (vc tr : bool) (users : list uuid) :
  client_inv (empty_db vc tr users).
Proof. split; intros x []. Qed.

(** X1: in every state reached from the empty database by statements that
    do not move a service to another client, each client's [total_spent] is the
    sum of [value] over its paid services and its [last_service_date] the
    latest creation date of its services, or null without any. *)
Theorem client_stats_consistent_unless_moved (vc tr : bool)
    (users : list uuid) (l : list stmt) :
  Forall keeps_client l ->
  client_stats_consistent (run l (empty_db vc tr users)).
Proof.
  intros Hl. apply (run_client_inv l Hl). apply empty_db_client_inv.
Qed.

(** The two ways the migrations write the trigger agree on every firing:
    [NEW] is present on [INSERT] and [UPDATE], [OLD] alone on [DELETE]. *)
Lemma update_client_stats_variants_agree (NEW OLD : Service.t)
    (now : timestamptz) (db : DB) :
  update_client_statistics INSERT (Some NEW) None now db
  = update_client_stats (Some NEW) None now db
  /\ update_client_statistics UPDATE (Some NEW) (Some OLD) now db
     = update_client_stats (Some NEW) (Some OLD) now db
  /\ update_client_statistics DELETE None (Some OLD) now db
     = update_client_stats None (Some OLD) now db.
Proof. repeat split. Qed.

(** C1 (the claim fails on the code): an [UPDATE] that gives a service to
    another client recomputes the new client only.  Ana's one paid service of
    120.00 is moved to Bia: Ana has no service left, yet her row still says
    [total_spent] = 120.00 and a [last_service_date], where the sum over her
    paid services is 0 and the latest creation date is null. *)
Theorem moved_service_leaves_old_client_stale :
  let paid_120 :=
    Service.mk_payload DEFAULT (VALUE 1%N) (VALUE 10%N) (VALUE "Ana"%string)
      (VALUE "Vestido"%string) (VALUE 12000) DEFAULT (VALUE "paid"%string)
      DEFAULT DEFAULT DEFAULT in
  let to_bia :=
    Service.mk_patch KEEP (SET (Some 11%N)) KEEP KEEP KEEP KEEP KEEP KEEP
      KEEP KEEP in
  let db :=
    run [rpc_get_or_create_client 10 100 1 "Ana";
         rpc_get_or_create_client 11 100 1 "Bia";
         insert_into_services (Some 1%N) 20 86400000001 paid_120;
         update_services (Some 1%N) 86400000002 20 to_bia]
        (empty_db false false [1%N]) in
  exists ana,
    In ana (clients db)
    /\ Client.id ana = 10%N
    /\ services_of 10 (services db) = []
    /\ Client.total_spent ana = Some 12000
    /\ paid_total 10 (services db) = 0
    /\ Client.last_service_date ana = Some 1
    /\ last_creation_date 10 (services db) = None
    /\ ~ client_stats_consistent db.
Proof.
  intros paid_120 to_bia db.
  exists (set_client_stats (Some 12000) (Some 1) 86400000001
            (new_client 10 100 1 "Ana")).
  assert (Hin : In (set_client_stats (Some 12000) (Some 1) 86400000001
                      (new_client 10 100 1 "Ana")) (clients db))
    by (vm_compute; left; reflexivity).
  split; [exact Hin |].
  split; [reflexivity |].
  split; [vm_compute; reflexivity |].
  split; [reflexivity |].
  split; [vm_compute; reflexivity |].
  split; [reflexivity |].
  split; [vm_compute; reflexivity |].
  intros Hinv. destruct (Hinv _ Hin) as [Htotal _].
  vm_compute in Htotal. discriminate.
Qed.

Lemma filter_remove_last {A : Type} (f g : A -> bool) (x : A)
    (l : list A) :
  find f l = Some x -> filter g l = [x] -> filter g (remove_first f l) = [].
Proof.
  intros Hfind Hlast.
  assert (Hgx : g x = true).
  { assert (Hin : In x (filter g l)) by (rewrite Hlast; now left).
    apply filter_In in Hin. tauto. }
  revert Hfind Hlast. induction l as [| z l IH]; simpl; [discriminate |].
  destruct (f z) eqn:Hfz.
  - intros Hx. inversion Hx; subst. rewrite Hgx. intros H. now inversion H.
  - intros Hfind. simpl. destruct (g z) eqn:Hgz.
    + intros H. inversion H; subst.
      apply find_In in Hfind. destruct Hfind as [Hin _].
      assert (Hx : In x (filter g l)) by (apply filter_In; auto).
      rewrite H2 in Hx. destruct Hx.
    + now apply IH.
Qed.

(** The recomputation for a client without services: zero and null. *)
Lemma recompute_zero (cid : uuid) (now : timestamptz) (db : DB) :
  services_of cid (services db) = [] ->
  exists db',
    recompute_client_stats cid now db = Ok db'
    /\ services db' = services db
    /\ forall c, In c (clients db') -> Client.id c = cid ->
                 Client.total_spent c = Some 0
                 /\ Client.last_service_date c = None.
Proof.
  intros Hnone. unfold recompute_client_stats.
  rewrite select_total_spent_spec. unfold paid_total, select_last_service_date.
  rewrite Hnone. simpl.
  destruct (mem cid (map Client.id (clients db))) eqn:Hmem.
  - eexists. split; [reflexivity |]. split; [reflexivity |].
    simpl. intros c Hin Hid. apply in_map_iff in Hin.
    destruct Hin as [c0 [Hg Hin]].
    destruct (N.eqb (Client.id c0) cid) eqn:E.
    + subst c. simpl. auto.
    + subst c. apply N.eqb_neq in E. contradiction.
  - exists db. split; [reflexivity |]. split; [reflexivity |].
    intros c Hin Hid. apply mem_not_In in Hmem. exfalso. apply Hmem.
    rewrite <- Hid. now apply in_map.
Qed.

(** X28: a client that [get_or_create_client] creates has [total_spent] = 0
    and [last_service_date] null; a piece counter that
    [get_or_create_piece_counter] creates has [total_pieces] = 0; the
    recomputation for a client with zero services succeeds and stores 0 and
    null; deleting the last remaining service of a client succeeds and
    resets both fields of that client to 0 and null; and in every state
    reached from the empty database without moving a service to another
    client, a client with zero services has 0 and null. *)
Theorem derived_fields_zero_state :
  (forall (rnd : uuid) (now : timestamptz) (u : uuid) (n : text)
          (db db1 : DB) (cid : uuid),
      find (client_matches u n) (clients db) = None ->
      get_or_create_client rnd now u n db = Ok (cid, db1) ->
      exists c, clients db1 = clients db ++ [c]
                /\ Client.id c = cid
                /\ Client.total_spent c = Some 0
                /\ Client.last_service_date c = None)
  /\ (forall (rnd : uuid) (now : timestamptz) (u c : uuid) (n : text)
             (db db1 : DB) (kid : uuid),
        find (counter_matches u c) (piece_counters db) = None ->
        get_or_create_piece_counter rnd now u c n db = Ok (kid, db1) ->
        exists k, piece_counters db1 = piece_counters db ++ [k]
                  /\ PieceCounter.id k = kid
                  /\ PieceCounter.total_pieces k = Some 0)
  /\ (forall (NEW OLD : option Service.t) (now : timestamptz) (db : DB)
             (cid : uuid),
        COALESCE (option_map Service.client_id NEW)
                 (option_map Service.client_id OLD) = Some cid ->
        services_of cid (services db) = [] ->
        exists db',
          update_client_stats NEW OLD now db = Ok db'
          /\ forall c, In c (clients db') -> Client.id c = cid ->
                       Client.total_spent c = Some 0
                       /\ Client.last_service_date c = None)
  /\ (forall (auth : option uuid) (now : timestamptz) (sid : uuid)
             (db : DB) (s : Service.t),
        find (service_addressed auth sid) (services db) = Some s ->
        services_of (Service.client_id s) (services db) = [s] ->
        exists db',
          delete_service auth now sid db = Ok db'
          /\ services_of (Service.client_id s) (services db') = []
          /\ forall c, In c (clients db') ->
                       Client.id c = Service.client_id s ->
                       Client.total_spent c = Some 0
                       /\ Client.last_service_date c = None)
  /\ (forall (vc tr : bool) (users : list uuid) (l : list stmt)
             (c : Client.t),
        Forall keeps_client l ->
        In c (clients (run l (empty_db vc tr users))) ->
        services_of (Client.id c) (services (run l (empty_db vc tr users)))
        = [] ->
        Client.total_spent c = Some 0
        /\ Client.last_service_date c = None).
Proof.
  split; [| split; [| split; [| split]]].
  - intros rnd now u n db db1 cid Hnone.
    unfold get_or_create_client. rewrite Hnone, bind_ok.
    intros [db' [Hins H]]. inversion H; subst.
    apply insert_client_ok in Hins. destruct Hins as [_ [_ ->]].
    exists (new_client cid now u n). simpl. auto.
  - intros rnd now u c n db db1 kid Hnone.
    unfold get_or_create_piece_counter. rewrite Hnone, bind_ok.
    intros [db' [Hins H]]. inversion H; subst.
    apply insert_piece_counter_ok in Hins.
    destruct Hins as [_ [_ [_ ->]]].
    exists (new_piece_counter kid now u c n). simpl. auto.
  - intros NEW OLD now db cid Hcid Hnone.
    unfold update_client_stats. rewrite Hcid.
    destruct (recompute_zero cid now db Hnone) as [db' [H [_ Hz]]].
    now exists db'.
  - intros auth now sid db s Hfind Hlast.
    unfold delete_service, update_client_stats. rewrite Hfind. simpl.
    pose proof (filter_remove_last _ _ _ _ Hfind Hlast) as Hnone.
    destruct (recompute_zero (Service.client_id s) now
                (with_services db
                   (remove_first (service_addressed auth sid) (services db)))
                Hnone) as [db' [H [Hs Hz]]].
    exists db'. split; [exact H |]. split; [| exact Hz].
    rewrite Hs. exact Hnone.
  - intros vc tr users l c Hl Hin Hnone.
    destruct (run_client_inv l Hl _ (empty_db_client_inv vc tr users))
      as [Hinv _].
    destruct (Hinv c Hin) as [Ht Hd].
    unfold paid_total in Ht. unfold last_creation_date in Hd.
    rewrite Hnone in Ht, Hd. simpl in Ht, Hd. auto.
Qed.

Lemma derived_fields_zero_state_witness :
  let paid_120 :=
    Service.mk_payload DEFAULT (VALUE 1%N) (VALUE 10%N) (VALUE "Ana"%string)
      (VALUE "Vestido"%string) (VALUE 12000) DEFAULT (VALUE "paid"%string)
      DEFAULT DEFAULT DEFAULT in
  let db0 := empty_db false false [1%N] in
  let db :=
    run [rpc_get_or_create_client 10 100 1 "Ana";
         insert_into_services (Some 1%N) 20 86400000001 paid_120] db0 in
  (exists c, clients (step db0 (rpc_get_or_create_client 10 100 1 "Ana"))
             = clients db0 ++ [c]
             /\ Client.id c = 10%N
             /\ Client.total_spent c = Some 0
             /\ Client.last_service_date c = None)
  /\ (exists db',
        delete_service (Some 1%N) 900 20 db = Ok db'
        /\ services_of 10 (services db') = []
        /\ forall c, In c (clients db') -> Client.id c = 10%N ->
                     Client.total_spent c = Some 0
                     /\ Client.last_service_date c = None).
Proof.
  intros paid_120 db0 db. split.
  - apply (proj1 derived_fields_zero_state 10%N 100 1%N "Ana"%string db0
             (step db0 (rpc_get_or_create_client 10 100 1 "Ana")) 10%N).
    + reflexivity.
    + vm_compute. reflexivity.
  - apply (proj1 (proj2 (proj2 (proj2 derived_fields_zero_state)))
             (Some 1%N) 900 20%N db
             (Service.mk 20 1 10 "Ana" "Vestido" 12000 None
                (Some "paid"%string) None (Some 86400000001)
                (Some 86400000001))).
    + vm_compute. reflexivity.
    + vm_compute. reflexivity.
Defined.

(** C6 (the claim fails on the code): a client with zero services does not
    always have [total_spent] = 0 and [last_service_date] null.  Ana's only
    service, paid, of 80.00, is given to Bia by an [UPDATE] of [client_id]:
    the trigger recomputes Bia only, and Ana, with no service left, keeps
    80.00 and her date.  Had the service been deleted instead, the trigger
    would have recomputed Ana and stored 0 and null. *)
Theorem client_without_services_keeps_statistics :
  let paid_80 :=
    Service.mk_payload DEFAULT (VALUE 1%N) (VALUE 10%N) (VALUE "Ana"%string)
      (VALUE "Bainha"%string) (VALUE 8000) DEFAULT (VALUE "paid"%string)
      DEFAULT DEFAULT DEFAULT in
  let to_bia :=
    Service.mk_patch KEEP (SET (Some 11%N)) KEEP KEEP KEEP KEEP KEEP KEEP
      KEEP KEEP in
  let before :=
    run [rpc_get_or_create_client 10 100 1 "Ana";
         rpc_get_or_create_client 11 100 1 "Bia";
         insert_into_services (Some 1%N) 20 172800000005 paid_80]
        (empty_db false false [1%N]) in
  let moved := step before (update_services (Some 1%N) 172800000009 20 to_bia)
  in
  let deleted := step before (delete_from_services (Some 1%N) 172800000009 20)
  in
  (exists ana,
      In ana (clients moved)
      /\ Client.id ana = 10%N
      /\ services_of (Client.id ana) (services moved) = []
      /\ Client.total_spent ana = Some 8000
      /\ Client.last_service_date ana = Some 2)
  /\ ~ (forall c, In c (clients moved) ->
                  services_of (Client.id c) (services moved) = [] ->
                  Client.total_spent c = Some 0
                  /\ Client.last_service_date c = None)
  /\ (services_of 10 (services deleted) = []
      /\ forall c, In c (clients deleted) -> Client.id c = 10%N ->
                   Client.total_spent c = Some 0
                   /\ Client.last_service_date c = None).
Proof.
  intros paid_80 to_bia before moved deleted.
  assert (Hin : In (set_client_stats (Some 8000) (Some 2) 172800000005
                      (new_client 10 100 1 "Ana")) (clients moved))
    by (vm_compute; left; reflexivity).
  split; [| split].
  - eexists. split; [exact Hin |].
    split; [reflexivity |].
    split; [vm_compute; reflexivity |].
    split; reflexivity.
  - intros H. destruct (H _ Hin) as [Ht _]; [vm_compute; reflexivity |].
    vm_compute in Ht. discriminate.
  - split; [vm_compute; reflexivity |].
    intros c Hc Hid.
    assert (Hd : clients deleted
                 = [set_client_stats (Some 0) None 172800000009
                      (new_client 10 100 1 "Ana");
                    new_client 11 100 1 "Bia"])
      by (vm_compute; reflexivity).
    rewrite Hd in Hc. destruct Hc as [<- | [<- | []]].
    + split; reflexivity.
    + discriminate.
Qed.

(** ** Constraints of the [services] table *)

(** An insertion that succeeds carries every required column, a status the
    check admits, and a value the declared checks admit. *)
Lemma insert_service_accepts (auth : option uuid) (rnd : uuid)
    (now : timestamptz) (p : Service.payload) (db db' : DB)
    (NEW : Service.t) :
  insert_service auth rnd now p db = Ok (NEW, db') ->
  Service.p_user_id p = VALUE (Service.user_id NEW)
  /\ Service.p_client_id p = VALUE (Service.client_id NEW)
  /\ Service.p_client_name p = VALUE (Service.client_name NEW)
  /\ Service.p_description p = VALUE (Service.description NEW)
  /\ Service.p_value p = VALUE (Service.value NEW)
  /\ Service.status NEW
     = resolve (Some "progress"%string) (Service.p_status p)
  /\ status_check (Service.status NEW) = true
  /\ value_check db (Service.value NEW) = true.
Proof.
  intros H. apply insert_service_inv in H. destruct H as [Hp [Hc _]].
  unfold services_constraints in Hc.
  apply bind_guard_ok in Hc. destruct Hc as [_ Hc].
  apply bind_guard_ok in Hc. destruct Hc as [Hst Hc].
  apply bind_guard_ok in Hc. destruct Hc as [Hv _].
  revert Hp. unfold service_of_payload.
  destruct p as [pi pu pc pn pd pv pdd ps pno pca pua]. simpl.
  destruct (resolve (Some rnd) pi); simpl; [| discriminate].
  destruct pu; simpl; try discriminate.
  destruct pc; simpl; try discriminate.
  destruct pn; simpl; try discriminate.
  destruct pd; simpl; try discriminate.
  destruct pv; simpl; try discriminate.
  intros H. inversion H; subst. simpl in *. auto 10.
Qed.

(** X22: what every [services] table rejects: an insertion with a status
    outside progress/delivered/paid, or without a required column; and where
    the table declares [CHECK (value >= 0)], one with a negative value. *)
Lemma insert_service_rejects (auth : option uuid) (rnd : uuid)
    (now : timestamptz) (p : Service.payload) (db : DB) :
  (exists s, Service.p_status p = VALUE s /\ status_check (Some s) = false)
  \/ resolve None (Service.p_user_id p) = None
  \/ resolve None (Service.p_client_id p) = None
  \/ resolve None (Service.p_client_name p) = None
  \/ resolve None (Service.p_description p) = None
  \/ resolve None (Service.p_value p) = None
  \/ (exists v, Service.p_value p = VALUE v /\ v < 0
                /\ services_value_check db = true) ->
  exists e, insert_service auth rnd now p db = Err e.
Proof.
  intros Hbad.
  destruct (insert_service auth rnd now p db) as [[NEW db'] | e] eqn:H;
    [| now exists e].
  exfalso. apply insert_service_accepts in H.
  destruct H as [Hu [Hc [Hn [Hd [Hv [Hs [Hsc Hvc]]]]]]].
  destruct Hbad as [[s [Hps Hbad]] | [Hbad | [Hbad | [Hbad | [Hbad
                    | [Hbad | [v [Hpv [Hneg Hchk]]]]]]]]].
  - rewrite Hps in Hs. unfold resolve in Hs. rewrite Hs in Hsc.
    exact (eq_true_false_abs _ Hsc Hbad).
  - rewrite Hu in Hbad. discriminate.
  - rewrite Hc in Hbad. discriminate.
  - rewrite Hn in Hbad. discriminate.
  - rewrite Hd in Hbad. discriminate.
  - rewrite Hv in Hbad. discriminate.
  - rewrite Hpv in Hv. inversion Hv; subst.
    unfold value_check in Hvc. rewrite Hchk in Hvc. simpl in Hvc.
    apply Z.leb_le in Hvc. lia.
Qed.

(** [status] is nullable and a check passes on [NULL]: an insertion that
    gives [status] as [NULL] is stored, outside the three states. *)
Lemma null_status_is_stored :
  let db := step (empty_db false false [1%N])
                 (rpc_get_or_create_client 10 100 1 "Ana") in
  let p :=
    Service.mk_payload DEFAULT (VALUE 1%N) (VALUE 10%N) (VALUE "Ana"%string)
      (VALUE "Bainha"%string) (VALUE 3500) DEFAULT NULL DEFAULT DEFAULT
      DEFAULT in
  map Service.status (services (step db (insert_into_services (Some 1%N) 20
                                           200 p)))
  = [None].
Proof. vm_compute. reflexivity. Qed.

(** C7 (the claim fails on the code): on the [services] table that
    [createService] writes to (the one with [user_id] and [client_name],
    whose [value] column carries no check), a service of value -5.00 is
    stored, and the client's [total_spent] becomes -5.00. *)
Theorem negative_value_is_stored :
  let d := mk_serviceData "Ana" "Bainha" (-500) None "paid" in
  exists row db',
    createService (Some 1%N) 10 20 100 200 d (empty_db false false [1%N])
    = (Ok row, db')
    /\ Service.value row = -500
    /\ services db' = [row]
    /\ map Client.total_spent (clients db') = [Some (-500)].
Proof.
  intros d. do 2 eexists. split; [vm_compute; reflexivity |].
  split; [reflexivity |]. split; reflexivity.
Qed.

(** ** The calls of the application *)

(** C8: [createService] and [addPiecesToCounter] called without an
    authenticated account return the explicit error "User not authenticated"
    and leave the database exactly as it was: no client, service, counter or
    history row is written. *)
Theorem unauthenticated_calls_write_nothing
    (r1 r2 r3 : uuid) (t1 t2 t3 : timestamptz) (d : serviceData)
    (data : piecesData) (db : DB) :
  createService None r1 r2 t1 t2 d db = (Err NotAuthenticated, db)
  /\ addPiecesToCounter None r1 r2 r3 t1 t2 t3 data db
     = (Err NotAuthenticated, db).
Proof. split; reflexivity. Qed.

(** [updateClientFavorite] has no such guard: without an account no row
    passes the policy, and the call succeeds having changed nothing. *)
Lemma updateClientFavorite_unauthenticated (now : timestamptz)
    (clientId : uuid) (isFavorite : bool) (db : DB) :
  exists db',
    updateClientFavorite None now clientId isFavorite db = (Ok tt, db')
    /\ clients db' = clients db.
Proof.
  eexists. split; [reflexivity |]. simpl.
  rewrite <- (map_id (clients db)) at 2. apply map_ext. intros c.
  unfold client_addressed. simpl. now rewrite andb_false_r.
Qed.

Lemma Forall2_map_self {A : Type} (R : A -> A -> Prop) (g : A -> A)
    (l : list A) :
  (forall x, R x (g x)) -> Forall2 R l (map g l).
Proof.
  intros H. induction l as [| x l IH]; simpl; constructor; auto.
Qed.

(** C9: [updateClientFavorite clientId b] succeeds and leaves every table
    but [clients] as it was; row by row, [clients] keeps its identifier,
    owner, name, phone, email, total_spent, last_service_date, notes and
    created_at; a row with another identifier is unchanged altogether, and a
    row that did change has [is_favorite] = [b]. *)
Theorem updateClientFavorite_frame (user : option uuid) (now : timestamptz)
    (clientId : uuid) (isFavorite : bool) (db : DB) :
  exists db',
    updateClientFavorite user now clientId isFavorite db = (Ok tt, db')
    /\ auth_users db' = auth_users db
    /\ services db' = services db
    /\ piece_counters db' = piece_counters db
    /\ piece_counter_history db' = piece_counter_history db
    /\ Forall2 (fun c c' =>
                  same_but_favorite c c'
                  /\ (Client.id c <> clientId -> c' = c)
                  /\ (c' <> c -> Client.is_favorite c' = Some isFavorite))
               (clients db) (clients db').
Proof.
  eexists. split; [reflexivity |]. simpl. repeat (split; [reflexivity |]).
  apply Forall2_map_self. intros c. unfold client_addressed.
  destruct (N.eqb (Client.id c) clientId) eqn:E; simpl.
  - destruct (rls_owner user (Client.user_id c)).
    + unfold same_but_favorite. simpl. repeat split.
      intros Hne. apply N.eqb_eq in E. contradiction.
    + unfold same_but_favorite. repeat split; congruence.
  - unfold same_but_favorite. repeat split; congruence.
Qed.

(** C10: when [get_or_create_client] matches an existing client [c], a
    [createService] that succeeds stores a service that references [c] and
    carries the caller's spelling of the name as [client_name]; the client
    row keeps its own name, so the two differ whenever the caller's spelling
    differs from the stored one. *)
Theorem createService_stores_name_verbatim
    (u : uuid) (r1 r2 : uuid) (t1 t2 : timestamptz) (d : serviceData)
    (db db' : DB) (c : Client.t) (row : Service.t) :
  find (client_matches u (sd_client_name d)) (clients db) = Some c ->
  createService (Some u) r1 r2 t1 t2 d db = (Ok row, db') ->
  services db' = services db ++ [row]
  /\ Service.client_id row = Client.id c
  /\ Service.client_name row = sd_client_name d
  /\ exists c', In c' (clients db')
                /\ Client.id c' = Client.id c
                /\ Client.name c' = Client.name c
                /\ (Client.name c <> sd_client_name d ->
                    Service.client_name row <> Client.name c').
Proof.
  intros Hfind. unfold createService, get_or_create_client. rewrite Hfind.
  destruct (insert_service _ _ _ _ db) as [[NEW db2] | e] eqn:Hins;
    [| discriminate].
  intros H. inversion H; subst. clear H.
  apply insert_service_inv in Hins. destruct Hins as [Hp [_ Ht]].
  unfold service_of_payload in Hp. simpl in Hp. inversion Hp; subst.
  clear Hp. simpl in *.
  apply recompute_client_stats_inv in Ht. simpl in Ht.
  destruct Ht as [Hs [_ Hc]].
  split; [exact Hs |]. split; [reflexivity |]. split; [reflexivity |].
  apply find_In in Hfind. destruct Hfind as [Hin _].
  exists (if N.eqb (Client.id c) (Client.id c)
          then set_client_stats
                 (select_total_spent (Client.id c)
                    (services db
                     ++ [Service.mk r2 u (Client.id c) (sd_client_name d)
                           (sd_description d) (sd_value d)
                           (resolve None (optional (sd_delivery_date d)))
                           (Some (sd_status d)) None (Some t2) (Some t2)]))
                 (select_last_service_date (Client.id c)
                    (services db
                     ++ [Service.mk r2 u (Client.id c) (sd_client_name d)
                           (sd_description d) (sd_value d)
                           (resolve None (optional (sd_delivery_date d)))
                           (Some (sd_status d)) None (Some t2) (Some t2)]))
                 t2 c
          else c).
  split.
  - rewrite Hc. apply in_map_iff. exists c. split; [reflexivity | exact Hin].
  - rewrite N.eqb_refl. simpl. repeat split. congruence.
Qed.

Lemma createService_stores_name_verbatim_witness :
  let db := step (empty_db false false [1%N])
                 (rpc_get_or_create_client 10 100 1 "Ana") in
  let d := mk_serviceData "ana" "Bainha" 3500 None "progress" in
  let row := Service.mk 20 1 10 "ana" "Bainha" 3500 None
               (Some "progress"%string) None (Some 300) (Some 300) in
  let db' := step db (insert_into_services (Some 1%N) 20 300
                        (Service.mk_payload DEFAULT (VALUE 1%N) (VALUE 10%N)
                           (VALUE "ana"%string) (VALUE "Bainha"%string)
                           (VALUE 3500) DEFAULT (VALUE "progress"%string)
                           DEFAULT DEFAULT DEFAULT)) in
  services db' = services db ++ [row]
  /\ Service.client_id row = 10%N
  /\ Service.client_name row = "ana"%string
  /\ exists c', In c' (clients db')
                /\ Client.id c' = 10%N
                /\ Client.name c' = "Ana"%string
                /\ ("Ana"%string <> "ana"%string ->
                    Service.client_name row <> Client.name c').
Proof.
  intros db d row db'.
  apply (createService_stores_name_verbatim 1%N 11%N 20%N 200 300 d db db'
           (new_client 10 100 1 "Ana") row).
  - vm_compute. reflexivity.
  - vm_compute. reflexivity.
Defined.

(** ** The scenarios of the specification *)

Lemma scenario_new_client_has_zero_state :
  map (fun c => (Client.total_spent c, Client.last_service_date c))
      (clients (run [rpc_get_or_create_client 10 100 1 "Ana"]
                    (empty_db false false [1%N])))
  = [(Some 0, None)].
Proof. reflexivity. Qed.

(** Ana: 120.00 paid on day 1, then 80.00 in progress on day 3; the second
    becomes paid; the first is deleted. *)
Lemma scenario_total_spent_follows_services :
  let service := fun (v : numeric) (st : text) =>
    Service.mk_payload DEFAULT (VALUE 1%N) (VALUE 10%N) (VALUE "Ana"%string)
      (VALUE "Vestido"%string) (VALUE v) DEFAULT (VALUE st)
      DEFAULT DEFAULT DEFAULT in
  let now_paid :=
    Service.mk_patch KEEP KEEP KEEP KEEP KEEP KEEP (SET (Some "paid"%string))
      KEEP KEEP KEEP in
  let two :=
    [rpc_get_or_create_client 10 100 1 "Ana";
     insert_into_services (Some 1%N) 20 86400000001
       (service 12000 "paid"%string);
     insert_into_services (Some 1%N) 21 259200000000
       (service 8000 "progress"%string)] in
  let stats := fun l =>
    map (fun c => (Client.total_spent c, Client.last_service_date c))
        (clients (run l (empty_db false false [1%N]))) in
  stats two = [(Some 12000, Some 3)]
  /\ stats (two ++ [update_services (Some 1%N) 500 21 now_paid])
     = [(Some 20000, Some 3)]
  /\ stats (two ++ [update_services (Some 1%N) 500 21 now_paid;
                    delete_from_services (Some 1%N) 600 20])
     = [(Some 8000, Some 3)].
Proof. repeat split; vm_compute; reflexivity. Qed.

(** +10 then -3 on one counter, through the application. *)
Lemma scenario_ten_minus_three :
  let db1 := snd (addPiecesToCounter (Some 1%N) 10 30 40 1 2 3
                    (mk_piecesData "Ana" 10 None)
                    (empty_db false false [1%N])) in
  let db2 := snd (addPiecesToCounter (Some 1%N) 11 31 41 4 5 6
                     (mk_piecesData "Ana" (-3) None) db1) in
  map PieceCounter.total_pieces (piece_counters db2) = [Some 7].
Proof. vm_compute. reflexivity. Qed.

(** ** The shape of a statement's effect *)

Lemma recompute_client_stats_shape (cid : uuid) (now : timestamptz)
    (db db' : DB) :
  recompute_client_stats cid now db = Ok db' ->
  auth_users db' = auth_users db
  /\ services db' = services db
  /\ piece_counters db' = piece_counters db
  /\ piece_counter_history db' = piece_counter_history db
  /\ map client_key (clients db') = map client_key (clients db).
Proof.
  unfold recompute_client_stats.
  destruct (mem cid (map Client.id (clients db))).
  - rewrite bind_guard_ok. intros [_ H]. injection H as <-. simpl.
    repeat split. rewrite map_map. apply map_ext. intros c.
    now destruct (N.eqb (Client.id c) cid).
  - intros H. injection H as <-. auto.
Qed.

Lemma update_client_stats_shape (NEW OLD : option Service.t)
    (now : timestamptz) (db db' : DB) :
  update_client_stats NEW OLD now db = Ok db' ->
  auth_users db' = auth_users db
  /\ services db' = services db
  /\ piece_counters db' = piece_counters db
  /\ piece_counter_history db' = piece_counter_history db
  /\ map client_key (clients db') = map client_key (clients db).
Proof.
  unfold update_client_stats. destruct (COALESCE _ _) as [cid |].
  - apply recompute_client_stats_shape.
  - intros H. injection H as <-. auto.
Qed.

Lemma service_of_payload_user (rnd : uuid) (now : timestamptz)
    (p : Service.payload) (NEW : Service.t) :
  service_of_payload rnd now p = Ok NEW ->
  resolve None (Service.p_user_id p) = Some (Service.user_id NEW).
Proof.
  unfold service_of_payload.
  destruct p as [pi pu pc pn pd pv pdd ps pno pca pua]. simpl.
  destruct (resolve (Some rnd) pi); simpl; [| discriminate].
  destruct pu; simpl; try discriminate.
  destruct pc; simpl; try discriminate.
  destruct pn; simpl; try discriminate.
  destruct pd; simpl; try discriminate.
  destruct pv; simpl; try discriminate.
  intros H. injection H as <-. reflexivity.
Qed.

Lemma services_constraints_inv (db : DB) (s : Service.t) :
  services_constraints db s = Ok tt ->
  numeric_10_2_fits (Service.value s) = true
  /\ status_check (Service.status s) = true
  /\ value_check db (Service.value s) = true
  /\ In (Service.user_id s) (auth_users db)
  /\ In (Service.client_id s) (map Client.id (clients db)).
Proof.
  unfold services_constraints. rewrite !bind_guard_ok, guard_ok.
  intros [H1 [H2 [H3 [H4 H5]]]]. apply mem_In in H4. apply mem_In in H5.
  auto.
Qed.

Lemma patched_service_id (db : DB) (now : timestamptz) (OLD NEW : Service.t)
    (p : Service.patch) :
  patched_service db now OLD p = Ok NEW -> Service.id NEW = Service.id OLD.
Proof.
  unfold patched_service. intros H.
  apply bind_ok in H. destruct H as [u [_ H]].
  apply bind_ok in H. destruct H as [c [_ H]].
  apply bind_ok in H. destruct H as [n [_ H]].
  apply bind_ok in H. destruct H as [d [_ H]].
  apply bind_ok in H. destruct H as [v [_ H]].
  injection H as <-. reflexivity.
Qed.

Lemma find_service_addressed (auth : option uuid) (sid : uuid)
    (ss : list Service.t) (s : Service.t) :
  find (service_addressed auth sid) ss = Some s ->
  In s ss /\ Service.id s = sid /\ rls_owner auth (Service.user_id s) = true.
Proof.
  intros H. apply find_In in H. destruct H as [Hin H].
  unfold service_addressed in H. apply andb_true_iff in H.
  destruct H as [Hid Ho]. apply N.eqb_eq in Hid. auto.
Qed.

(** Every statement that succeeds leaves the accounts alone and changes each
    table by one of its steps. *)
Lemma exec_shape (s : stmt) (db db' : DB) :
  exec s db = Ok db' ->
  auth_users db' = auth_users db
  /\ clients_step db db'
  /\ services_step (issued_as s) db db'
  /\ counters_step db db'
  /\ history_step db db'.
Proof.
  unfold clients_step, services_step, counters_step, history_step.
  destruct s as [rnd now u n | rnd now u c n | auth rnd now p
                 | auth now sid p | auth now sid | auth rnd now p
                 | auth now cid b]; simpl; intros H.
  - apply bind_ok in H. destruct H as [[cid db1] [Hg H]].
    simpl in H. injection H as <-. unfold get_or_create_client in Hg.
    destruct (find (client_matches u n) (clients db)) as [c |] eqn:Hf.
    + injection Hg as _ <-. auto 10.
    + apply bind_ok in Hg. destruct Hg as [db2 [Hins Hg]].
      injection Hg as _ <-. apply insert_client_ok in Hins. simpl in Hins.
      destruct Hins as [Hid [Hu ->]]. simpl.
      split; [reflexivity |]. split; [| auto].
      right. exists (new_client rnd now u n). simpl. auto.
  - apply bind_ok in H. destruct H as [[kid db1] [Hg H]].
    simpl in H. injection H as <-. unfold get_or_create_piece_counter in Hg.
    destruct (find (counter_matches u c) (piece_counters db)) as [k |] eqn:Hf.
    + injection Hg as _ <-. auto 10.
    + apply bind_ok in Hg. destruct Hg as [db2 [Hins Hg]].
      injection Hg as _ <-. apply insert_piece_counter_ok in Hins.
      simpl in Hins. destruct Hins as [Hid [Hu [Hc ->]]]. simpl.
      split; [reflexivity |]. split; [auto |]. split; [auto |].
      split; [| auto].
      right. exists (new_piece_counter rnd now u c n). simpl. auto 10.
  - apply bind_ok in H. destruct H as [[NEW db1] [Hi H]].
    simpl in H. injection H as <-. unfold insert_service in Hi.
    apply bind_guard_ok in Hi. destruct Hi as [Hrls Hi].
    apply bind_ok in Hi. destruct Hi as [NEW' [Hp Hi]].
    apply bind_ok in Hi. destruct Hi as [[] [Hc Hi]].
    apply bind_guard_ok in Hi. destruct Hi as [Hpk Hi].
    apply bind_ok in Hi. destruct Hi as [db2 [Ht Hi]].
    injection Hi as <- <-.
    rewrite (service_of_payload_user _ _ _ _ Hp) in Hrls.
    apply negb_true_iff, mem_not_In in Hpk.
    apply services_constraints_inv in Hc.
    destruct Hc as [_ [_ [_ [Hu Hcl]]]].
    apply update_client_stats_shape in Ht. simpl in Ht.
    destruct Ht as [Ha [Hs [Hk [Hh Hck]]]].
    rewrite Hk, Hh. split; [exact Ha |]. split; [auto |]. split; [| auto].
    right. left. exists NEW'. auto 10.
  - unfold update_service in H.
    destruct (find (service_addressed auth sid) (services db))
      as [OLD |] eqn:Hf.
    + apply bind_ok in H. destruct H as [NEW [Hp H]].
      apply bind_guard_ok in H. destruct H as [Hrls H].
      apply bind_ok in H. destruct H as [[] [Hc H]].
      apply services_constraints_inv in Hc.
      destruct Hc as [_ [_ [_ [Hu Hcl]]]].
      apply update_client_stats_shape in H. simpl in H.
      destruct H as [Ha [Hs [Hk [Hh Hck]]]].
      rewrite Hk, Hh. split; [exact Ha |]. split; [auto |].
      split; [| auto].
      right. right. left.
      exists (service_addressed auth sid), OLD, NEW.
      destruct (find_service_addressed _ _ _ _ Hf) as [_ [_ Ho]].
      pose proof (patched_service_id _ _ _ _ _ Hp). auto 10.
    + injection H as <-. auto 10.
  - unfold delete_service in H.
    destruct (find (service_addressed auth sid) (services db))
      as [OLD |] eqn:Hf.
    + apply update_client_stats_shape in H. simpl in H.
      destruct H as [Ha [Hs [Hk [Hh Hck]]]].
      rewrite Hk, Hh. split; [exact Ha |]. split; [auto |].
      split; [| auto].
      right. right. right. exists (service_addressed auth sid), OLD.
      destruct (find_service_addressed _ _ _ _ Hf) as [_ [_ Ho]]. auto.
    + injection H as <-. auto 10.
  - apply bind_ok in H. destruct H as [[h db1] [Hi H]].
    simpl in H. injection H as <-. unfold insert_history in Hi.
    apply bind_guard_ok in Hi. destruct Hi as [_ Hi].
    apply bind_ok in Hi. destruct Hi as [h' [Hp Hi]].
    apply bind_guard_ok in Hi. destruct Hi as [_ Hi].
    apply bind_guard_ok in Hi. destruct Hi as [Hpk Hi].
    apply bind_guard_ok in Hi. destruct Hi as [Hu Hi].
    apply bind_guard_ok in Hi. destruct Hi as [Hfk Hi].
    apply bind_ok in Hi. destruct Hi as [db2 [Ht Hi]].
    injection Hi as <- <-.
    apply negb_true_iff, mem_not_In in Hpk.
    apply mem_In in Hu. apply mem_In in Hfk.
    unfold update_piece_counter_total in Ht.
    apply bind_guard_ok in Ht. destruct Ht as [_ Ht].
    injection Ht as <-. simpl.
    split; [reflexivity |]. split; [auto |]. split; [auto |]. split.
    + left. rewrite map_map. apply map_ext. intros k.
      now destruct (N.eqb (PieceCounter.id k) _).
    + right. exists h'. auto.
  - unfold update_client_is_favorite in H. injection H as <-. simpl.
    split; [reflexivity |]. split; [| auto 10].
    left. rewrite map_map. apply map_ext. intros c.
    now destruct (client_addressed auth cid c).
Qed.

(** ** Invariants of the reachable states *)

Lemma run_invariant (P : DB -> Prop) :
  (forall s db db', exec s db = Ok db' -> P db -> P db') ->
  forall l db, P db -> P (run l db).
Proof.
  intros Hstep. unfold run. induction l as [| s l IH]; simpl; intros db HP.
  - exact HP.
  - apply IH. unfold step. destruct (exec s db) as [db' |] eqn:He.
    + exact (Hstep s db db' He HP).
    + exact HP.
Qed.

Lemma NoDup_snoc {A : Type} (l : list A) (x : A) :
  NoDup l -> ~ In x l -> NoDup (l ++ [x]).
Proof.
  induction 1 as [| y l Hy Hl IH]; simpl; intros Hx.
  - constructor; [tauto | constructor].
  - constructor.
    + rewrite in_app_iff. simpl. intros [H | [H | []]]; [tauto |].
      apply Hx. now left.
    + apply IH. intros H. apply Hx. now right.
Qed.

Lemma map_replace_first_same {A B : Type} (key : A -> B) (f : A -> bool)
    (x y : A) (l : list A) :
  find f l = Some x -> key y = key x ->
  map key (replace_first f y l) = map key l.
Proof.
  intros Hf Hk. induction l as [| z l IH]; simpl in *; [discriminate |].
  destruct (f z).
  - injection Hf as ->. simpl. now rewrite Hk.
  - simpl. now rewrite IH.
Qed.

Lemma NoDup_map_remove_first {A B : Type} (key : A -> B) (f : A -> bool)
    (l : list A) :
  NoDup (map key l) -> NoDup (map key (remove_first f l)).
Proof.
  induction l as [| z l IH]; simpl; intros H; [exact H |].
  inversion H as [| ? ? Hz Hl]; subst. destruct (f z); [exact Hl |].
  simpl. constructor; [| now apply IH].
  intros Hin. apply Hz. apply in_map_iff in Hin.
  destruct Hin as [w [Hw Hin]]. apply in_map_iff. exists w.
  split; [exact Hw |]. now apply In_remove_first in Hin.
Qed.

Lemma client_ids_of_keys (l l' : list Client.t) :
  map client_key l' = map client_key l -> map Client.id l' = map Client.id l.
Proof.
  intros H. apply (f_equal (map (fun k => fst (fst k)))) in H.
  now rewrite !map_map in H.
Qed.

Lemma counter_ids_of_keys (l l' : list PieceCounter.t) :
  map counter_key l' = map counter_key l ->
  map PieceCounter.id l' = map PieceCounter.id l.
Proof.
  intros H. apply (f_equal (map (fun k => fst (fst k)))) in H.
  now rewrite !map_map in H.
Qed.

Lemma exec_primary_keys (s : stmt) (db db' : DB) :
  exec s db = Ok db' -> primary_keys db -> primary_keys db'.
Proof.
  intros H [Hc [Hs [Hk Hh]]]. apply exec_shape in H.
  destruct H as [_ [Sc [Ss [Sk Sh]]]]. repeat split.
  - destruct Sc as [E | [c [-> [Hid _]]]].
    + now rewrite (client_ids_of_keys _ _ E).
    + rewrite map_app. simpl. now apply NoDup_snoc.
  - destruct Ss as [-> | [[NEW [-> [_ [Hid _]]]]
                         | [[f [OLD [NEW [Hf [-> [_ [_ [Hid _]]]]]]]]
                            | [f [OLD [_ [-> _]]]]]]].
    + exact Hs.
    + rewrite map_app. simpl. now apply NoDup_snoc.
    + now rewrite (map_replace_first_same Service.id f OLD NEW _ Hf Hid).
    + now apply NoDup_map_remove_first.
  - destruct Sk as [E | [k [-> [Hid _]]]].
    + now rewrite (counter_ids_of_keys _ _ E).
    + rewrite map_app. simpl. now apply NoDup_snoc.
  - destruct Sh as [-> | [h [-> [Hid _]]]].
    + exact Hh.
    + rewrite map_app. simpl. now apply NoDup_snoc.
Qed.

(** X2: in every state reached from the empty database, no two rows of a
    table share their [id]: the primary keys of [clients], [services],
    [piece_counters] and [piece_counter_history] hold. *)
Theorem primary_keys_hold (vc tr : bool) (users : list uuid)
    (l : list stmt) :
  primary_keys (run l (empty_db vc tr users)).
Proof.
  apply (run_invariant primary_keys exec_primary_keys).
  repeat split; constructor.
Qed.

Lemma clients_step_ids (db db' : DB) (x : uuid) :
  clients_step db db' ->
  In x (map Client.id (clients db)) -> In x (map Client.id (clients db')).
Proof.
  intros [E | [c [-> _]]] Hin.
  - now rewrite (client_ids_of_keys _ _ E).
  - rewrite map_app, in_app_iff. now left.
Qed.

Lemma counters_step_ids (db db' : DB) (x : uuid) :
  counters_step db db' ->
  In x (map PieceCounter.id (piece_counters db)) ->
  In x (map PieceCounter.id (piece_counters db')).
Proof.
  intros [E | [k [-> _]]] Hin.
  - now rewrite (counter_ids_of_keys _ _ E).
  - rewrite map_app, in_app_iff. now left.
Qed.

Lemma In_of_keys {A B : Type} (key : A -> B) (l l' : list A) (x' : A) :
  map key l' = map key l -> In x' l' ->
  exists x, In x l /\ key x = key x'.
Proof.
  intros E Hin. apply (in_map key) in Hin. rewrite E in Hin.
  apply in_map_iff in Hin. destruct Hin as [x [Hk Hx]]. now exists x.
Qed.

Lemma exec_foreign_keys (s : stmt) (db db' : DB) :
  exec s db = Ok db' -> foreign_keys db -> foreign_keys db'.
Proof.
  intros H [Fc [Fs [Fk Fh]]]. apply exec_shape in H.
  destruct H as [Ha [Sc [Ss [Sk Sh]]]]. unfold foreign_keys. rewrite Ha.
  split; [| split; [| split]].
  - intros c' Hin. destruct Sc as [E | [c [E [_ [Hu _]]]]].
    + destruct (In_of_keys _ _ _ _ E Hin) as [c [Hc Hkey]].
      injection Hkey as _ Hu _. rewrite <- Hu. now apply Fc.
    + rewrite E in Hin. apply in_app_iff in Hin.
      destruct Hin as [Hin | [<- | []]]; auto.
  - assert (Hold : forall x, In x (services db) ->
                     In (Service.user_id x) (auth_users db)
                     /\ In (Service.client_id x)
                          (map Client.id (clients db'))).
    { intros x Hx. destruct (Fs x Hx) as [Hu Hc]. split; [exact Hu |].
      now apply (clients_step_ids db db'). }
    intros x Hin.
    destruct Ss as [E | [[NEW [E [_ [_ [Hu Hc]]]]]
                         | [[f [OLD [NEW [_ [E [_ [_ [_ [Hu Hc]]]]]]]]]
                            | [f [OLD [_ [E _]]]]]]]; rewrite E in Hin.
    + now apply Hold.
    + apply in_app_iff in Hin. destruct Hin as [Hin | [<- | []]].
      * now apply Hold.
      * split; [exact Hu |]. now apply (clients_step_ids db db').
    + apply In_replace_first in Hin. destruct Hin as [-> | Hin].
      * split; [exact Hu |]. now apply (clients_step_ids db db').
      * now apply Hold.
    + apply In_remove_first in Hin. now apply Hold.
  - intros k' Hin. destruct Sk as [E | [k [E [_ [Hu [Hc _]]]]]].
    + destruct (In_of_keys _ _ _ _ E Hin) as [k [Hk Hkey]].
      injection Hkey as _ Hu Hc. rewrite <- Hu, <- Hc.
      destruct (Fk k Hk) as [H1 H2]. split; [exact H1 |].
      now apply (clients_step_ids db db').
    + rewrite E in Hin. apply in_app_iff in Hin.
      destruct Hin as [Hin | [<- | []]].
      * destruct (Fk k' Hin) as [H1 H2]. split; [exact H1 |].
        now apply (clients_step_ids db db').
      * split; [exact Hu |]. now apply (clients_step_ids db db').
  - intros h' Hin. destruct Sh as [E | [h [E [_ [Hu Hc]]]]];
      rewrite E in Hin.
    + destruct (Fh h' Hin) as [H1 H2]. split; [exact H1 |].
      now apply (counters_step_ids db db').
    + apply in_app_iff in Hin. destruct Hin as [Hin | [<- | []]].
      * destruct (Fh h' Hin) as [H1 H2]. split; [exact H1 |].
        now apply (counters_step_ids db db').
      * split; [exact Hu |]. now apply (counters_step_ids db db').
Qed.

(** X3: in every state reached from the empty database the references
    hold: each [user_id] is an account, each [client_id] of a service or a
    piece counter is a client, each [counter_id] of a history row is a piece
    counter. *)
Theorem foreign_keys_hold (vc tr : bool) (users : list uuid)
    (l : list stmt) :
  foreign_keys (run l (empty_db vc tr users)).
Proof.
  apply (run_invariant foreign_keys exec_foreign_keys).
  repeat split; contradiction.
Qed.

Lemma find_none_lookup_key {A K : Type} (f : A -> bool) (key : A -> K)
    (k : K) (l : list A) :
  (forall x, key x = k -> f x = true) ->
  find f l = None -> ~ In k (map key l).
Proof.
  intros Hk Hf Hin. apply in_map_iff in Hin. destruct Hin as [x [Hx Hin]].
  pose proof (find_none f l Hf x Hin) as Hn.
  rewrite (Hk x Hx) in Hn. discriminate.
Qed.

Lemma exec_client_lookup_keys (s : stmt) (db db' : DB) :
  exec s db = Ok db' ->
  NoDup (map client_lookup_key (clients db)) ->
  NoDup (map client_lookup_key (clients db')).
Proof.
  intros H Hnd. apply exec_shape in H. destruct H as [_ [Sc _]].
  destruct Sc as [E | [c [-> [_ [_ Hf]]]]].
  - apply (f_equal (map (fun k : uuid * uuid * text =>
                           (snd (fst k), LOWER (snd k))))) in E.
    rewrite !map_map in E. unfold client_lookup_key. simpl in E.
    now rewrite E.
  - rewrite map_app. simpl. apply NoDup_snoc; [exact Hnd |].
    eapply find_none_lookup_key; [| exact Hf].
    intros x Hx. unfold client_lookup_key in Hx.
    injection Hx as Hu Hn. unfold client_matches.
    rewrite Hu, Hn, N.eqb_refl, String.eqb_refl. reflexivity.
Qed.

(** X4: in every state reached from the empty database an account has at
    most one client per lower-cased name: [get_or_create_client] is the only
    statement that adds a client, and it adds none where one matches. *)
Theorem one_client_per_name (vc tr : bool) (users : list uuid)
    (l : list stmt) :
  NoDup (map client_lookup_key (clients (run l (empty_db vc tr users)))).
Proof.
  apply (run_invariant
           (fun db => NoDup (map client_lookup_key (clients db)))
           exec_client_lookup_keys).
  constructor.
Qed.

Lemma exec_counter_lookup_keys (s : stmt) (db db' : DB) :
  exec s db = Ok db' ->
  NoDup (map counter_lookup_key (piece_counters db)) ->
  NoDup (map counter_lookup_key (piece_counters db')).
Proof.
  intros H Hnd. apply exec_shape in H. destruct H as [_ [_ [_ [Sk _]]]].
  destruct Sk as [E | [k [-> [_ [_ [_ Hf]]]]]].
  - apply (f_equal (map (fun k : uuid * uuid * uuid =>
                           (snd (fst k), snd k)))) in E.
    rewrite !map_map in E. unfold counter_lookup_key. simpl in E.
    now rewrite E.
  - rewrite map_app. simpl. apply NoDup_snoc; [exact Hnd |].
    eapply find_none_lookup_key; [| exact Hf].
    intros x Hx. unfold counter_lookup_key in Hx.
    injection Hx as Hu Hc. unfold counter_matches.
    rewrite Hu, Hc, !N.eqb_refl. reflexivity.
Qed.

(** X5: in every state reached from the empty database there is at most
    one piece counter per account and client, although the table declares no
    uniqueness on the pair: [get_or_create_piece_counter] is the only
    statement that adds a counter. *)
Theorem one_counter_per_client (vc tr : bool) (users : list uuid)
    (l : list stmt) :
  NoDup (map counter_lookup_key
           (piece_counters (run l (empty_db vc tr users)))).
Proof.
  apply (run_invariant
           (fun db => NoDup (map counter_lookup_key (piece_counters db)))
           exec_counter_lookup_keys).
  constructor.
Qed.

(** ** More on identity resolution *)

Lemma counter_matches_new (rnd : uuid) (now : timestamptz) (u c : uuid)
    (n : text) :
  counter_matches u c (new_piece_counter rnd now u c n) = true.
Proof. unfold counter_matches. simpl. now rewrite !N.eqb_refl. Qed.



(** ** Row-level security *)

Lemma filter_replace_first_out {A : Type} (f g : A -> bool) (x y : A)
    (l : list A) :
  find f l = Some x -> g x = false -> g y = false ->
  filter g (replace_first f y l) = filter g l.
Proof.
  intros Hf Hx Hy. induction l as [| z l IH]; simpl in *; [discriminate |].
  destruct (f z).
  - injection Hf as ->. simpl. now rewrite Hx, Hy.
  - simpl. destruct (g z); now rewrite IH.
Qed.

Lemma filter_remove_first_out {A : Type} (f g : A -> bool) (x : A)
    (l : list A) :
  find f l = Some x -> g x = false ->
  filter g (remove_first f l) = filter g l.
Proof.
  intros Hf Hx. induction l as [| z l IH]; simpl in *; [discriminate |].
  destruct (f z).
  - injection Hf as ->. now rewrite Hx.
  - simpl. destruct (g z); now rewrite IH.
Qed.

(** X7: whatever the statement and whether it succeeds, the services that
    do not belong to the account it runs as are afterwards exactly the rows
    they were, in the same order: the policies on [services] let a caller
    add, change and remove only rows of its own. *)
Theorem services_of_others_untouched (s : stmt) (db : DB) :
  filter (fun x => negb (rls_owner (issued_as s) (Service.user_id x)))
         (services (step db s))
  = filter (fun x => negb (rls_owner (issued_as s) (Service.user_id x)))
           (services db).
Proof.
  unfold step. destruct (exec s db) as [db' |] eqn:He; [| reflexivity].
  apply exec_shape in He. destruct He as [_ [_ [Ss _]]].
  destruct Ss as [-> | [[NEW [-> [Ho _]]]
                       | [[f [OLD [NEW [Hf [-> [Ho [Hn _]]]]]]]
                          | [f [OLD [Hf [-> Ho]]]]]]].
  - reflexivity.
  - rewrite filter_app. simpl. rewrite Ho. simpl. apply app_nil_r.
  - apply (filter_replace_first_out _ _ OLD); [exact Hf | |].
    + now rewrite Ho.
    + now rewrite Hn.
  - apply (filter_remove_first_out _ _ OLD); [exact Hf |]. now rewrite Ho.
Qed.

Lemma find_not_addressed (auth : option uuid) (sid : uuid)
    (ss : list Service.t) :
  (forall x, In x ss -> Service.id x = sid ->
             rls_owner auth (Service.user_id x) = false) ->
  find (service_addressed auth sid) ss = None.
Proof.
  intros H. destruct (find _ ss) as [x |] eqn:Hf; [| reflexivity].
  destruct (find_service_addressed _ _ _ _ Hf) as [Hin [Hid Ho]].
  rewrite (H x Hin Hid) in Ho. discriminate.
Qed.

(** X8: an [UPDATE] or a [DELETE] of a service identifier that names no
    service of the caller (none at all, or one of another account) raises no
    error and changes nothing. *)
Theorem not_own_service_is_noop (auth : option uuid) (now : timestamptz)
    (sid : uuid) (p : Service.patch) (db : DB) :
  (forall x, In x (services db) -> Service.id x = sid ->
             rls_owner auth (Service.user_id x) = false) ->
  update_service auth now sid p db = Ok db
  /\ delete_service auth now sid db = Ok db.
Proof.
  intros H. unfold update_service, delete_service.
  now rewrite (find_not_addressed _ _ _ H).
Qed.

Lemma not_own_service_is_noop_witness :
  let paid_120 :=
    Service.mk_payload DEFAULT (VALUE 1%N) (VALUE 10%N) (VALUE "Ana"%string)
      (VALUE "Vestido"%string) (VALUE 12000) DEFAULT (VALUE "paid"%string)
      DEFAULT DEFAULT DEFAULT in
  let db :=
    run [rpc_get_or_create_client 10 100 1 "Ana";
         insert_into_services (Some 1%N) 20 86400000001 paid_120]
        (empty_db false false [1%N; 2%N]) in
  let to_progress :=
    Service.mk_patch KEEP KEEP KEEP KEEP KEEP KEEP
      (SET (Some "progress"%string)) KEEP KEEP KEEP in
  update_service (Some 2%N) 500 20 to_progress db = Ok db
  /\ delete_service (Some 2%N) 500 20 db = Ok db.
Proof.
  intros paid_120 db to_progress.
  apply (not_own_service_is_noop (Some 2%N) 500 20%N to_progress db).
  intros x Hin Hid. vm_compute in Hin.
  destruct Hin as [<- | []]. reflexivity.
Defined.

(** ** Bounds of the derived columns *)

Lemma recompute_overflow (cid : uuid) (now : timestamptz) (db : DB) :
  In cid (map Client.id (clients db)) ->
  10000000000 <= paid_total cid (services db) ->
  recompute_client_stats cid now db = Err numeric_value_out_of_range.
Proof.
  intros Hin Hbig. unfold recompute_client_stats.
  apply mem_In in Hin. rewrite Hin, select_total_spent_spec.
  unfold numeric_10_2_fits.
  replace (paid_total cid (services db) <? 10000000000) with false
    by (symmetry; apply Z.ltb_ge; exact Hbig).
  now rewrite andb_false_r.
Qed.

(** X9: an insertion that every constraint of [services] admits is still
    rejected as a whole, with "numeric value out of range", when it would
    bring the paid total of its client to 100,000,000.00 or more: the
    trigger cannot store that total in [DECIMAL(10,2)]. *)
Theorem insert_service_total_overflow (auth : option uuid) (rnd : uuid)
    (now : timestamptz) (p : Service.payload) (db : DB) (NEW : Service.t) :
  service_of_payload rnd now p = Ok NEW ->
  rls_owner auth (Service.user_id NEW) = true ->
  services_constraints db NEW = Ok tt ->
  ~ In (Service.id NEW) (map Service.id (services db)) ->
  10000000000 <= paid_total (Service.client_id NEW) (services db ++ [NEW]) ->
  insert_service auth rnd now p db = Err numeric_value_out_of_range.
Proof.
  intros Hp Hrls Hc Hid Hbig. unfold insert_service.
  rewrite (service_of_payload_user _ _ _ _ Hp), Hrls, Hp. simpl.
  rewrite Hc. simpl. apply mem_not_In in Hid. rewrite Hid. simpl.
  unfold update_client_stats. simpl.
  rewrite recompute_overflow; [reflexivity | | exact Hbig].
  simpl. now apply services_constraints_fk in Hc.
Qed.

Lemma insert_service_total_overflow_witness :
  let service := fun (v : numeric) =>
    Service.mk_payload DEFAULT (VALUE 1%N) (VALUE 10%N) (VALUE "Ana"%string)
      (VALUE "Vestido"%string) (VALUE v) DEFAULT (VALUE "paid"%string)
      DEFAULT DEFAULT DEFAULT in
  let db :=
    run [rpc_get_or_create_client 10 100 1 "Ana";
         insert_into_services (Some 1%N) 20 200 (service 9999999999)]
        (empty_db false false [1%N]) in
  insert_service (Some 1%N) 21 300 (service 1) db
  = Err numeric_value_out_of_range.
Proof.
  intros service db.
  apply (insert_service_total_overflow (Some 1%N) 21 300 (service 1) db
           (Service.mk 21 1 10 "Ana" "Vestido" 1 None (Some "paid"%string)
              None (Some 300) (Some 300))).
  - reflexivity.
  - reflexivity.
  - vm_compute. reflexivity.
  - vm_compute. intros [H | []]. discriminate.
  - vm_compute. discriminate.
Defined.

Lemma forallb_false_In {A : Type} (P : A -> bool) (x : A) (l : list A) :
  In x l -> P x = false -> forallb P l = false.
Proof.
  intros Hin Hx. destruct (forallb P l) eqn:E; [| reflexivity].
  rewrite forallb_forall in E. rewrite (E x Hin) in Hx. discriminate.
Qed.

(** X10: a history insertion is rejected as a whole, with "out of range",
    when the counter it names holds a total that the delta would take
    outside [INTEGER]; no history row is written. *)
Theorem insert_history_total_overflow (auth : option uuid) (rnd : uuid)
    (now : timestamptz) (p : PieceCounterHistory.payload) (db : DB)
    (h : PieceCounterHistory.t) (k : PieceCounter.t) (t : int4) :
  history_of_payload rnd now p = Ok h ->
  In k (piece_counters db) ->
  PieceCounter.id k = PieceCounterHistory.counter_id h ->
  PieceCounter.total_pieces k = Some t ->
  (t + PieceCounterHistory.pieces_added h < -2147483648
   \/ 2147483647 < t + PieceCounterHistory.pieces_added h) ->
  exists e, insert_history auth rnd now p db = Err e.
Proof.
  intros Hp Hk Hid Ht Hout.
  destruct (insert_history auth rnd now p db) as [[h' db'] | e] eqn:H;
    [| now exists e].
  exfalso. unfold insert_history in H.
  apply bind_guard_ok in H. destruct H as [_ H].
  rewrite Hp in H. simpl in H.
  apply bind_guard_ok in H. destruct H as [_ H].
  apply bind_guard_ok in H. destruct H as [_ H].
  apply bind_guard_ok in H. destruct H as [_ H].
  apply bind_guard_ok in H. destruct H as [_ H].
  apply bind_ok in H. destruct H as [db2 [Ht2 _]].
  unfold update_piece_counter_total in Ht2.
  apply bind_guard_ok in Ht2. destruct Ht2 as [Hall _].
  simpl in Hall. rewrite (forallb_false_In _ k) in Hall;
    [discriminate | exact Hk |].
  rewrite Hid, N.eqb_refl, Ht. simpl. unfold int4_fits.
  destruct Hout as [Hlow | Hhigh].
  - replace (-2147483648 <=? t + PieceCounterHistory.pieces_added h)
      with false by (symmetry; apply Z.leb_gt; exact Hlow).
    reflexivity.
  - replace (t + PieceCounterHistory.pieces_added h <=? 2147483647)
      with false by (symmetry; apply Z.leb_gt; exact Hhigh).
    apply andb_false_r.
Qed.

Lemma insert_history_total_overflow_witness :
  let add := fun (d : int4) =>
    PieceCounterHistory.mk_payload DEFAULT (VALUE 1%N) (VALUE 30%N)
      (VALUE "Ana"%string) (VALUE d) DEFAULT DEFAULT in
  let db :=
    run [rpc_get_or_create_client 10 100 1 "Ana";
         rpc_get_or_create_piece_counter 30 200 1 10 "Ana";
         insert_into_piece_counter_history (Some 1%N) 40 300
           (add 2147483647)]
        (empty_db false false [1%N]) in
  exists e, insert_history (Some 1%N) 41 400 (add 1) db = Err e.
Proof.
  intros add db.
  apply (insert_history_total_overflow (Some 1%N) 41 400 (add 1) db
           (PieceCounterHistory.mk 41 1 30 "Ana" 1 None (Some 400))
           (PieceCounter.mk 30 1 10 "Ana" (Some 2147483647) (Some 200)
              (Some 300))
           2147483647).
  - reflexivity.
  - vm_compute. left. reflexivity.
  - reflexivity.
  - reflexivity.
  - right. vm_compute. reflexivity.
Defined.

(** ** The calls, request by request *)

(** X11: [createService] is two requests, not one transaction.  For a name
    that matches no client of the account, when the insertion is then
    rejected (for a status outside the three, or a value of more than ten
    digits), the call fails and yet leaves behind the client row the first
    request created; no service row is written. *)
Theorem createService_leaves_client_behind
    (u : uuid) (r1 r2 : uuid) (t1 t2 : timestamptz) (d : serviceData)
    (db : DB) :
  In u (auth_users db) ->
  ~ In r1 (map Client.id (clients db)) ->
  find (client_matches u (sd_client_name d)) (clients db) = None ->
  status_check (Some (sd_status d)) = false
  \/ numeric_10_2_fits (sd_value d) = false ->
  exists e db',
    createService (Some u) r1 r2 t1 t2 d db = (Err e, db')
    /\ clients db' = clients db ++ [new_client r1 t1 u (sd_client_name d)]
    /\ services db' = services db.
Proof.
  intros Hu Hr Hf Hst. unfold createService, get_or_create_client.
  rewrite Hf.
  assert (Hins : insert_client (new_client r1 t1 u (sd_client_name d)) db
                 = Ok (with_clients db
                         (clients db
                          ++ [new_client r1 t1 u (sd_client_name d)])))
    by (apply insert_client_ok; auto).
  rewrite Hins. simpl.
  match goal with
  | |- context [insert_service ?a ?r ?n ?p ?b] =>
      destruct (insert_service a r n p b) as [[NEW db2] | e] eqn:He
  end.
  - exfalso. pose proof (insert_service_inv _ _ _ _ _ _ _ He) as [_ [Hc _]].
    apply services_constraints_inv in Hc. destruct Hc as [Hfit _].
    apply insert_service_accepts in He. cbn [Service.p_value
      Service.p_status resolve] in He.
    destruct He as [_ [_ [_ [_ [Hv [Hs [Hsc _]]]]]]].
    destruct Hst as [Hst | Hst].
    + rewrite Hs in Hsc. exact (eq_true_false_abs _ Hsc Hst).
    + injection Hv as Hv. rewrite <- Hv in Hfit.
      exact (eq_true_false_abs _ Hfit Hst).
  - exists e. eexists. split; [reflexivity |]. simpl. auto.
Qed.

Lemma createService_leaves_client_behind_witness :
  let d := mk_serviceData "Ana" "Bainha" 3500 None "pago" in
  let db := empty_db false false [1%N] in
  exists e db',
    createService (Some 1%N) 10 20 100 200 d db = (Err e, db')
    /\ clients db' = clients db ++ [new_client 10 100 1 "Ana"]
    /\ services db' = services db.
Proof.
  intros d db.
  apply (createService_leaves_client_behind 1 10 20 100 200 d db).
  - simpl. left. reflexivity.
  - simpl. intros H. exact H.
  - reflexivity.
  - left. reflexivity.
Defined.

Lemma createService_inv (u : uuid) (r1 r2 : uuid) (t1 t2 : timestamptz)
    (d : serviceData) (db db' : DB) (row : Service.t) :
  createService (Some u) r1 r2 t1 t2 d db = (Ok row, db') ->
  exists db1,
    get_or_create_client r1 t1 u (sd_client_name d) db
    = Ok (Service.client_id row, db1)
    /\ services_constraints db1 row = Ok tt
    /\ recompute_client_stats (Service.client_id row) t2
         (with_services db1 (services db1 ++ [row])) = Ok db'.
Proof.
  unfold createService.
  destruct (get_or_create_client r1 t1 u (sd_client_name d) db)
    as [[cid db1] | e]; [| discriminate].
  destruct (insert_service _ _ _ _ db1) as [[NEW db2] | e] eqn:Hins;
    [| discriminate].
  intros H. injection H as <- <-.
  apply insert_service_inv in Hins. destruct Hins as [Hp [Hc Ht]].
  unfold service_of_payload in Hp. simpl in Hp. injection Hp as <-.
  exists db1. simpl in *. auto.
Qed.

(** X12: after a [createService] that succeeds the client the new service
    references exists, and its row is up to date: [total_spent] is the sum
    of its paid services, the new one included, and [last_service_date] the
    latest creation date among them. *)
Theorem createService_refreshes_client
    (u : uuid) (r1 r2 : uuid) (t1 t2 : timestamptz) (d : serviceData)
    (db db' : DB) (row : Service.t) :
  createService (Some u) r1 r2 t1 t2 d db = (Ok row, db') ->
  In row (services db')
  /\ (exists c, In c (clients db') /\ Client.id c = Service.client_id row)
  /\ forall c, In c (clients db') -> Client.id c = Service.client_id row ->
               client_stats_hold db' c.
Proof.
  intros H. apply createService_inv in H.
  destruct H as [db1 [_ [Hc Ht]]].
  apply services_constraints_fk in Hc.
  apply recompute_client_stats_inv in Ht. simpl in Ht.
  destruct Ht as [Hs [_ Hcl]]. split; [| split].
  - rewrite Hs, in_app_iff. right. now left.
  - apply in_map_iff in Hc. destruct Hc as [c [Hid Hin]].
    eexists. split.
    + rewrite Hcl. apply in_map. exact Hin.
    + simpl. now destruct (N.eqb (Client.id c) (Service.client_id row)).
  - intros c' Hin Hid. rewrite Hcl in Hin. apply in_map_iff in Hin.
    destruct Hin as [c [Hg Hin]].
    destruct (N.eqb (Client.id c) (Service.client_id row)) eqn:E.
    + subst c'. unfold client_stats_hold. simpl. apply N.eqb_eq in E.
      rewrite Hs, E, select_total_spent_spec. auto.
    + subst c'. apply N.eqb_neq in E. contradiction.
Qed.

Lemma createService_refreshes_client_witness :
  let db := snd (createService (Some 1%N) 10 20 100 86400000001
                   (mk_serviceData "Ana" "Vestido" 12000 None "paid")
                   (empty_db false false [1%N])) in
  let d := mk_serviceData "ana" "Bainha" 3500 None "paid" in
  let row := Service.mk 21 1 10 "ana" "Bainha" 3500 None
               (Some "paid"%string) None (Some 259200000000)
               (Some 259200000000) in
  let db' := snd (createService (Some 1%N) 11 21 300 259200000000 d db) in
  In row (services db')
  /\ (exists c, In c (clients db')
                /\ Client.id c = Service.client_id row)
  /\ forall c, In c (clients db') ->
               Client.id c = Service.client_id row ->
               client_stats_hold db' c.
Proof.
  intros db d row db'.
  apply (createService_refreshes_client 1 11 21 300 259200000000 d db db'
           row).
  vm_compute. reflexivity.
Defined.

Lemma find_counter_some (K : uuid) (ks : list PieceCounter.t) :
  In K (map PieceCounter.id ks) ->
  exists k, find (fun k => N.eqb (PieceCounter.id k) K) ks = Some k.
Proof.
  intros H. destruct (find _ ks) as [k |] eqn:Hf; [now exists k |].
  apply in_map_iff in H. destruct H as [k [Hk Hin]].
  pose proof (find_none _ _ Hf k Hin) as Hn. simpl in Hn.
  rewrite Hk, N.eqb_refl in Hn. discriminate.
Qed.

Lemma addPiecesToCounter_inv (u : uuid) (r1 r2 r3 : uuid)
    (t1 t2 t3 : timestamptz) (data : piecesData) (db db' : DB)
    (h : PieceCounterHistory.t) :
  addPiecesToCounter (Some u) r1 r2 r3 t1 t2 t3 data db = (Ok h, db') ->
  exists cid dbA dbB p,
    get_or_create_client r1 t1 u (pd_client_name data) db = Ok (cid, dbA)
    /\ get_or_create_piece_counter r2 t2 u cid (pd_client_name data) dbA
       = Ok (PieceCounterHistory.counter_id h, dbB)
    /\ insert_history (Some u) r3 t3 p dbB = Ok (h, db')
    /\ PieceCounterHistory.pieces_added h = pd_pieces_added data.
Proof.
  unfold addPiecesToCounter.
  destruct (get_or_create_client r1 t1 u (pd_client_name data) db)
    as [[cid dbA] | e] eqn:Hgc; [| discriminate].
  destruct (get_or_create_piece_counter r2 t2 u cid (pd_client_name data)
              dbA) as [[K dbB] | e] eqn:Hgk; [| discriminate].
  destruct (insert_history _ _ _ _ dbB) as [[h' db3] | e] eqn:Hins;
    [| discriminate].
  intros H. injection H as <- <-.
  pose proof (insert_history_inv _ _ _ _ _ _ _ Hins) as [Hp _].
  apply history_of_payload_inv in Hp. simpl in Hp. destruct Hp as [Hc Ha].
  injection Hc as ->. injection Ha as Ha.
  exists cid, dbA, dbB. eexists. split; [reflexivity |].
  split; [exact Hgk |]. split; [exact Hins | now symmetry].
Qed.

(** The total a counter starts from: what it holds, or 0 where the call is
    about to create it. *)
Lemma addPiecesToCounter_total (u : uuid) (r1 r2 r3 : uuid)
    (t1 t2 t3 : timestamptz) (data : piecesData) (db db' : DB)
    (h : PieceCounterHistory.t) :
  addPiecesToCounter (Some u) r1 r2 r3 t1 t2 t3 data db = (Ok h, db') ->
  total_pieces_of (PieceCounterHistory.counter_id h) db'
  = Some (add_pieces
            (match total_pieces_of (PieceCounterHistory.counter_id h) db with
             | Some t => t
             | None => Some 0
             end)
            (pd_pieces_added data)).
Proof.
  intros H. apply addPiecesToCounter_inv in H.
  destruct H as [cid [dbA [dbB [p [Hc [Hk [Hi Hd]]]]]]].
  rewrite (total_pieces_of_insert_history _ _ _ _ _ _ _
             (PieceCounterHistory.counter_id h) Hi), N.eqb_refl, Hd.
  apply get_or_create_client_inv in Hc. destruct Hc as [_ [[HcA _] _]].
  apply get_or_create_piece_counter_inv in Hk.
  destruct Hk as [_ [_ [[-> Hin] | [_ [HK [Hfresh Hks]]]]]].
  - unfold total_pieces_of in *. rewrite HcA in *.
    destruct (find_counter_some _ _ Hin) as [k ->]. reflexivity.
  - unfold total_pieces_of. rewrite Hks, <- HcA, HK.
    rewrite (find_none_not_In _ _ Hfresh).
    rewrite (find_app_none _ _ _ (find_none_not_In _ _ Hfresh)).
    simpl. now rewrite N.eqb_refl.
Qed.

(** X13: [addPiecesToCounter], when it succeeds, records the caller's delta
    in the history row it returns and adds it to the total of the counter
    that row names, counted from 0 when the call created the counter. *)
Theorem addPiecesToCounter_adds_delta (u : uuid) (r1 r2 r3 : uuid)
    (t1 t2 t3 : timestamptz) (data : piecesData) (db db' : DB)
    (h : PieceCounterHistory.t) :
  addPiecesToCounter (Some u) r1 r2 r3 t1 t2 t3 data db = (Ok h, db') ->
  PieceCounterHistory.pieces_added h = pd_pieces_added data
  /\ In h (piece_counter_history db')
  /\ total_pieces_of (PieceCounterHistory.counter_id h) db'
     = Some (add_pieces
               (match total_pieces_of (PieceCounterHistory.counter_id h) db
                with
                | Some t => t
                | None => Some 0
                end)
               (pd_pieces_added data)).
Proof.
  intros H. split; [| split].
  - apply addPiecesToCounter_inv in H.
    destruct H as [cid [dbA [dbB [p [_ [_ [_ Hd]]]]]]]. exact Hd.
  - apply addPiecesToCounter_inv in H.
    destruct H as [cid [dbA [dbB [p [_ [_ [Hi _]]]]]]].
    apply insert_history_inv in Hi. destruct Hi as [_ [_ [_ [-> _]]]].
    rewrite in_app_iff. right. now left.
  - exact (addPiecesToCounter_total _ _ _ _ _ _ _ _ _ _ _ H).
Qed.

Lemma addPiecesToCounter_adds_delta_witness :
  let db := snd (addPiecesToCounter (Some 1%N) 10 30 40 1 2 3
                   (mk_piecesData "Ana" 10 None)
                   (empty_db false false [1%N])) in
  let data := mk_piecesData "Ana" (-3) None in
  let h := PieceCounterHistory.mk 41 1 30 "Ana" (-3) None (Some 6) in
  let db' := snd (addPiecesToCounter (Some 1%N) 11 31 41 4 5 6 data db) in
  PieceCounterHistory.pieces_added h = -3
  /\ In h (piece_counter_history db')
  /\ total_pieces_of 30 db'
     = Some (add_pieces
               (match total_pieces_of 30 db with
                | Some t => t
                | None => Some 0
                end) (-3)).
Proof.
  intros db data h db'.
  apply (addPiecesToCounter_adds_delta 1 11 31 41 4 5 6 data db db' h).
  vm_compute. reflexivity.
Defined.

Lemma find_after_get_or_create_client (rnd : uuid) (now : timestamptz)
    (u : uuid) (n1 n2 : text) (db db1 : DB) (cid : uuid) :
  LOWER n1 = LOWER n2 ->
  get_or_create_client rnd now u n1 db = Ok (cid, db1) ->
  exists c, find (client_matches u n2) (clients db1) = Some c
            /\ Client.id c = cid.
Proof.
  intros Hlow. unfold get_or_create_client.
  rewrite (find_ext_eq _ _ (clients db1)
             (fun c => client_matches_lower u n2 n1 c (eq_sym Hlow))).
  destruct (find (client_matches u n1) (clients db)) as [c |] eqn:Hf.
  - intros H. injection H as <- <-. now exists c.
  - rewrite bind_ok. intros [db' [Hins H]]. injection H as <- <-.
    apply insert_client_ok in Hins. destruct Hins as [_ [_ ->]]. simpl.
    rewrite (find_app_none _ _ _ Hf),
      (client_matches_new _ _ _ n1 n1 eq_refl).
    now eexists.
Qed.

Lemma find_after_get_or_create_piece_counter (rnd : uuid)
    (now : timestamptz) (u c : uuid) (n : text) (db db1 : DB) (K : uuid) :
  get_or_create_piece_counter rnd now u c n db = Ok (K, db1) ->
  exists k, find (counter_matches u c) (piece_counters db1) = Some k
            /\ PieceCounter.id k = K.
Proof.
  unfold get_or_create_piece_counter.
  destruct (find (counter_matches u c) (piece_counters db)) as [k |] eqn:Hf.
  - intros H. injection H as <- <-. now exists k.
  - rewrite bind_ok. intros [db' [Hins H]]. injection H as <- <-.
    apply insert_piece_counter_ok in Hins.
    destruct Hins as [_ [_ [_ ->]]]. simpl.
    rewrite (find_app_none _ _ _ Hf), counter_matches_new. now eexists.
Qed.

(** X14: two [addPiecesToCounter] calls in sequence by one account, under
    names that lower-case to the same text, land on the same counter: the
    second history row names the counter of the first, and that counter
    holds the total it started from plus both deltas. *)
Theorem addPiecesToCounter_same_counter (u : uuid)
    (r1 r2 r3 r4 r5 r6 : uuid) (t1 t2 t3 t4 t5 t6 : timestamptz)
    (d1 d2 : piecesData) (db db1 db2 : DB)
    (h1 h2 : PieceCounterHistory.t) :
  LOWER (pd_client_name d1) = LOWER (pd_client_name d2) ->
  addPiecesToCounter (Some u) r1 r2 r3 t1 t2 t3 d1 db = (Ok h1, db1) ->
  addPiecesToCounter (Some u) r4 r5 r6 t4 t5 t6 d2 db1 = (Ok h2, db2) ->
  PieceCounterHistory.counter_id h2 = PieceCounterHistory.counter_id h1
  /\ total_pieces_of (PieceCounterHistory.counter_id h1) db2
     = Some (add_pieces
               (add_pieces
                  (match total_pieces_of (PieceCounterHistory.counter_id h1)
                           db with
                   | Some t => t
                   | None => Some 0
                   end)
                  (pd_pieces_added d1))
               (pd_pieces_added d2)).
Proof.
  intros Hlow H1 H2.
  assert (Hsame : PieceCounterHistory.counter_id h2
                  = PieceCounterHistory.counter_id h1).
  { pose proof (addPiecesToCounter_inv _ _ _ _ _ _ _ _ _ _ _ H1)
      as [cid [dbA [dbB [p [Hc [Hk [Hi _]]]]]]].
    destruct (find_after_get_or_create_client _ _ _ _ _ _ _ _ Hlow Hc)
      as [c [Hfc Hcid]].
    destruct (find_after_get_or_create_piece_counter _ _ _ _ _ _ _ _ Hk)
      as [k [Hfk HK]].
    apply get_or_create_piece_counter_inv in Hk.
    destruct Hk as [[HclB _] _].
    apply insert_history_inv in Hi.
    destruct Hi as [_ [[Hcl1 _] [_ [_ Hks]]]].
    pose proof (addPiecesToCounter_inv _ _ _ _ _ _ _ _ _ _ _ H2)
      as [cid2 [dbA2 [dbB2 [p2 [Hc2 [Hk2 _]]]]]].
    unfold get_or_create_client in Hc2.
    rewrite Hcl1, HclB, Hfc in Hc2. injection Hc2 as <- <-.
    unfold get_or_create_piece_counter in Hk2.
    rewrite Hks, find_map_same_key, Hcid, Hfk in Hk2.
    - simpl in Hk2. injection Hk2 as Hk2 _. rewrite <- Hk2, <- HK.
      now rewrite N.eqb_refl.
    - intros x. now destruct (N.eqb (PieceCounter.id x) _). }
  split; [exact Hsame |].
  pose proof (addPiecesToCounter_total _ _ _ _ _ _ _ _ _ _ _ H1) as T1.
  pose proof (addPiecesToCounter_total _ _ _ _ _ _ _ _ _ _ _ H2) as T2.
  rewrite Hsame in T2. rewrite T2, T1. reflexivity.
Qed.

Lemma addPiecesToCounter_same_counter_witness :
  let db := empty_db false false [1%N] in
  let d1 := mk_piecesData "Ana" 10 None in
  let d2 := mk_piecesData "ANA" (-3) None in
  let h1 := PieceCounterHistory.mk 40 1 30 "Ana" 10 None (Some 3) in
  let h2 := PieceCounterHistory.mk 41 1 30 "ANA" (-3) None (Some 6) in
  let db1 := snd (addPiecesToCounter (Some 1%N) 10 30 40 1 2 3 d1 db) in
  let db2 := snd (addPiecesToCounter (Some 1%N) 11 31 41 4 5 6 d2 db1) in
  PieceCounterHistory.counter_id h2 = PieceCounterHistory.counter_id h1
  /\ total_pieces_of (PieceCounterHistory.counter_id h1) db2
     = Some (add_pieces
               (add_pieces
                  (match total_pieces_of (PieceCounterHistory.counter_id h1)
                           db with
                   | Some t => t
                   | None => Some 0
                   end)
                  (pd_pieces_added d1))
               (pd_pieces_added d2)).
Proof.
  intros db d1 d2 h1 h2 db1 db2.
  apply (addPiecesToCounter_same_counter 1 10 30 40 11 31 41 1 2 3 4 5 6
           d1 d2 db db1 db2 h1 h2).
  - reflexivity.
  - vm_compute. reflexivity.
  - vm_compute. reflexivity.
Defined.

(** ** Favourites *)

Lemma client_addressed_set_is_favorite (auth : option uuid) (cid : uuid)
    (db : DB) (now : timestamptz) (b : bool) (c : Client.t) :
  client_addressed auth cid (set_is_favorite db now b c)
  = client_addressed auth cid c.
Proof. reflexivity. Qed.

(** X15: of two [updateClientFavorite] calls in sequence for the same
    client, only the second shows: the database is the one the second call
    alone would have produced. *)
Theorem updateClientFavorite_last_write_wins (user : option uuid)
    (now1 now2 : timestamptz) (clientId : uuid) (b1 b2 : bool) (db : DB) :
  snd (updateClientFavorite user now2 clientId b2
         (snd (updateClientFavorite user now1 clientId b1 db)))
  = snd (updateClientFavorite user now2 clientId b2 db).
Proof.
  unfold updateClientFavorite, update_client_is_favorite, with_clients.
  simpl. f_equal. rewrite map_map. apply map_ext. intros c.
  destruct (client_addressed user clientId c) eqn:E.
  - rewrite client_addressed_set_is_favorite, E.
    unfold set_is_favorite. simpl.
    now destruct (updated_at_triggers db).
  - now rewrite E.
Qed.

(** X16: toggling a favourite twice, each time from the flag the screen
    shows, brings a client whose flag was [b] back to [b]; every row keeps
    all its columns but [is_favorite] and [updated_at], and the other tables
    are untouched. *)
Theorem handleToggleFavorite_twice (user : option uuid)
    (now1 now2 : timestamptz) (clientId : uuid) (b : bool) (db : DB) :
  let db2 :=
    handleToggleFavorite user now2 clientId (Some (negb b))
      (handleToggleFavorite user now1 clientId (Some b) db) in
  services db2 = services db
  /\ piece_counters db2 = piece_counters db
  /\ piece_counter_history db2 = piece_counter_history db
  /\ Forall2 (fun c c2 =>
                same_but_favorite c c2
                /\ (Client.is_favorite c = Some b ->
                    Client.is_favorite c2 = Some b))
             (clients db) (clients db2).
Proof.
  unfold handleToggleFavorite, updateClientFavorite,
    update_client_is_favorite. simpl.
  repeat (split; [reflexivity |]).
  rewrite map_map. apply Forall2_map_self. intros c.
  destruct (client_addressed user clientId c) eqn:E.
  - rewrite client_addressed_set_is_favorite, E.
    unfold same_but_favorite. simpl. repeat split.
    intros _. now destruct b.
  - rewrite E. unfold same_but_favorite. repeat split; auto.
Qed.

(** ** The client list *)

(** X17: the label and the colour of a client always name the same tier:
    "VIP" with green above 300.00, "Regular" with blue above 150.00 up to
    300.00, "Novo" with gray up to 150.00 (a null total counts as 0). *)
Theorem status_label_matches_colour (client : Client.t) :
  let total := js_number (Client.total_spent client) in
  (30000 < total
   /\ getStatusLabel client = "VIP"%string
   /\ getStatusColor client = "bg-green-500"%string)
  \/ (15000 < total <= 30000
      /\ getStatusLabel client = "Regular"%string
      /\ getStatusColor client = "bg-blue-500"%string)
  \/ (total <= 15000
      /\ getStatusLabel client = "Novo"%string
      /\ getStatusColor client = "bg-gray-500"%string).
Proof.
  unfold getStatusLabel, getStatusColor. simpl.
  destruct (30000 <? js_number (Client.total_spent client)) eqn:E1.
  - left. apply Z.ltb_lt in E1. auto.
  - apply Z.ltb_ge in E1.
    destruct (15000 <? js_number (Client.total_spent client)) eqn:E2.
    + right. left. apply Z.ltb_lt in E2. auto.
    + right. right. apply Z.ltb_ge in E2. auto.
Qed.

(** ** The most frequent clients *)

Lemma precedes_iff (a b : Client.t) :
  precedes a b <->
  (truthy (Client.is_favorite a) = true
   /\ truthy (Client.is_favorite b) = false)
  \/ (truthy (Client.is_favorite a) = truthy (Client.is_favorite b)
      /\ js_number (Client.total_spent b)
         <= js_number (Client.total_spent a)).
Proof.
  unfold precedes, compareClients.
  destruct (truthy (Client.is_favorite a)),
    (truthy (Client.is_favorite b)); simpl; split; intros H;
    try lia; try (right; split; [reflexivity | lia]);
    try (left; split; reflexivity);
    try (destruct H as [[H1 H2] | [H1 H2]]; try discriminate; lia).
Qed.

Lemma precedes_total (a b : Client.t) : ~ precedes a b -> precedes b a.
Proof.
  rewrite !precedes_iff.
  destruct (truthy (Client.is_favorite a)),
    (truthy (Client.is_favorite b)); intros H.
  - right. split; [reflexivity |].
    destruct (Z_le_gt_dec (js_number (Client.total_spent a))
                (js_number (Client.total_spent b))); [assumption |].
    exfalso. apply H. right. split; [reflexivity | lia].
  - exfalso. apply H. left. auto.
  - left. auto.
  - right. split; [reflexivity |].
    destruct (Z_le_gt_dec (js_number (Client.total_spent a))
                (js_number (Client.total_spent b))); [assumption |].
    exfalso. apply H. right. split; [reflexivity | lia].
Qed.

Lemma precedes_trans (a b c : Client.t) :
  precedes a b -> precedes b c -> precedes a c.
Proof.
  rewrite !precedes_iff.
  destruct (truthy (Client.is_favorite a)),
    (truthy (Client.is_favorite b)),
    (truthy (Client.is_favorite c));
    intros [[H1 H2] | [H1 H2]] [[H3 H4] | [H3 H4]];
    try discriminate; try (left; split; reflexivity);
    right; split; try reflexivity; lia.
Qed.

Lemma insert_sorted_perm {A : Type} (cmp : A -> A -> Z) (x : A)
    (l : list A) :
  Permutation (x :: l) (insert_sorted cmp x l).
Proof.
  induction l as [| y l IH]; simpl; [apply Permutation_refl |].
  destruct (cmp x y <=? 0); [apply Permutation_refl |].
  apply (perm_trans (perm_swap y x l)). now apply perm_skip.
Qed.

Lemma Array_sort_perm {A : Type} (cmp : A -> A -> Z) (l : list A) :
  Permutation l (Array_sort cmp l).
Proof.
  unfold Array_sort. induction l as [| x l IH]; simpl.
  - apply perm_nil.
  - apply (perm_trans (perm_skip x IH)). apply insert_sorted_perm.
Qed.

Lemma insert_sorted_hd (x y : Client.t) (l : list Client.t) :
  precedes y x -> HdRel precedes y l ->
  HdRel precedes y (insert_sorted compareClients x l).
Proof.
  intros Hyx Hhd. destruct l as [| z l]; simpl.
  - now constructor.
  - destruct (compareClients x z <=? 0); constructor; [exact Hyx |].
    now inversion Hhd.
Qed.

Lemma insert_sorted_sorted (x : Client.t) (l : list Client.t) :
  Sorted precedes l -> Sorted precedes (insert_sorted compareClients x l).
Proof.
  induction 1 as [| y l Hl IH Hhd]; simpl.
  - repeat constructor.
  - destruct (compareClients x y <=? 0) eqn:E.
    + apply Z.leb_le in E. constructor; [now constructor |].
      now constructor.
    + apply Z.leb_gt in E. constructor; [exact IH |].
      apply insert_sorted_hd; [| exact Hhd].
      apply precedes_total. unfold precedes. lia.
Qed.

Lemma Array_sort_sorted (l : list Client.t) :
  StronglySorted precedes (Array_sort compareClients l).
Proof.
  apply Sorted_StronglySorted.
  - intros a b c. apply precedes_trans.
  - unfold Array_sort. induction l as [| x l IH]; simpl.
    + constructor.
    + now apply insert_sorted_sorted.
Qed.

Lemma StronglySorted_app {A : Type} (R : A -> A -> Prop) (l1 l2 : list A) :
  StronglySorted R (l1 ++ l2) ->
  StronglySorted R l1 /\ forall x y, In x l1 -> In y l2 -> R x y.
Proof.
  induction l1 as [| z l1 IH]; simpl; intros H.
  - split; [constructor | contradiction].
  - inversion H as [| ? ? Hs Hall]; subst.
    destruct (IH Hs) as [H1 H2]. rewrite Forall_forall in Hall. split.
    + constructor; [exact H1 |]. rewrite Forall_forall.
      intros w Hw. apply Hall. rewrite in_app_iff. now left.
    + intros x y [<- | Hx] Hy.
      * apply Hall. rewrite in_app_iff. now right.
      * now apply H2.
Qed.

(** The first [k] of the sorted clients: in order, drawn from the clients,
    and no client left out would be shown before one of them. *)
Lemma top_of_sorted (k : nat) (clients : list Client.t) :
  let shown := firstn k (Array_sort compareClients clients) in
  let rest := skipn k (Array_sort compareClients clients) in
  List.length shown = Nat.min k (List.length clients)
  /\ Permutation clients (shown ++ rest)
  /\ StronglySorted precedes shown
  /\ forall x y, In x shown -> In y rest -> precedes x y.
Proof.
  intros shown rest. unfold shown, rest.
  pose proof (Array_sort_perm compareClients clients) as Hperm.
  pose proof (Array_sort_sorted clients) as Hsort.
  rewrite <- (firstn_skipn k (Array_sort compareClients clients)) in Hsort.
  apply StronglySorted_app in Hsort. destruct Hsort as [H1 H2].
  split; [| split; [| split]].
  - rewrite length_firstn, (Permutation_length Hperm). reflexivity.
  - now rewrite firstn_skipn.
  - exact H1.
  - exact H2.
Qed.

(** X18: [ClientChips] shows at most four clients and [QuickActions] at
    most two, all of them when there are fewer: clients of the list, in
    order, favourites before the others and within each group by decreasing
    [total_spent]; a client left out never ranks strictly before one that is
    shown. *)
Theorem most_frequent_clients (clients : list Client.t) :
  (forall a b,
      precedes a b <->
      (truthy (Client.is_favorite a) = true
       /\ truthy (Client.is_favorite b) = false)
      \/ (truthy (Client.is_favorite a) = truthy (Client.is_favorite b)
          /\ js_number (Client.total_spent b)
             <= js_number (Client.total_spent a)))
  /\ (List.length (frequentClients clients)
      = Nat.min 4 (List.length clients)
      /\ StronglySorted precedes (frequentClients clients)
      /\ exists rest,
           Permutation clients (frequentClients clients ++ rest)
           /\ forall x y, In x (frequentClients clients) -> In y rest ->
                          precedes x y)
  /\ (List.length (topClients clients) = Nat.min 2 (List.length clients)
      /\ StronglySorted precedes (topClients clients)
      /\ exists rest,
           Permutation clients (topClients clients ++ rest)
           /\ forall x y, In x (topClients clients) -> In y rest ->
                          precedes x y).
Proof.
  split; [exact precedes_iff |]. split.
  - destruct (top_of_sorted 4 clients) as [H1 [H2 [H3 H4]]].
    split; [exact H1 |]. split; [exact H3 |].
    exists (skipn 4 (Array_sort compareClients clients)). now split.
  - destruct (top_of_sorted 2 clients) as [H1 [H2 [H3 H4]]].
    split; [exact H1 |]. split; [exact H3 |].
    exists (skipn 2 (Array_sort compareClients clients)). now split.
Qed.

(** ** Searching and picking a client name *)

Lemma prefix_app (s t : string) : String.prefix s (s ++ t) = true.
Proof.
  induction s as [| c s IH]; simpl; [now destruct t |].
  destruct (ascii_dec c c); [exact IH | contradiction].
Qed.

Lemma includes_prefix (s sub : string) :
  String.prefix sub s = true -> includes s sub = true.
Proof. intros H. destruct s; cbn [includes]; now rewrite H. Qed.

Lemma includes_app (a m b : string) : includes (a ++ m ++ b) m = true.
Proof.
  induction a as [| c a IH]; simpl.
  - apply includes_prefix, prefix_app.
  - rewrite IH. apply orb_true_r.
Qed.

Lemma includes_refl (s : string) : includes s s = true.
Proof.
  apply includes_prefix. induction s as [| c s IH]; simpl; [reflexivity |].
  destruct (ascii_dec c c); [exact IH | contradiction].
Qed.

Lemma includes_empty (s : string) : includes s "" = true.
Proof. destruct s; reflexivity. Qed.

Lemma LOWER_app (a b : string) : LOWER (a ++ b) = (LOWER a ++ LOWER b)%string.
Proof.
  induction a as [| c a IH]; simpl; [reflexivity |]. now rewrite IH.
Qed.

(** X19: the search box of the client list.  An empty search keeps every
    client; a search only ever narrows the list; for a name and a search
    text of ASCII characters, a client is kept whenever the search text
    occurs in its name, letter case aside; and so, again for ASCII names,
    the client that [get_or_create_client] would match for a name is among
    those a search for that name keeps. *)
Theorem filteredClients_finds_by_name :
  (forall clients, filteredClients clients "" = clients)
  /\ (forall clients q c, In c (filteredClients clients q) -> In c clients)
  /\ (forall clients q c a m b,
        ascii_only (Client.name c) = true ->
        ascii_only q = true ->
        In c clients ->
        Client.name c = (a ++ m ++ b)%string ->
        LOWER m = LOWER q ->
        In c (filteredClients clients q))
  /\ (forall clients q c u,
        ascii_only (Client.name c) = true ->
        ascii_only q = true ->
        In c clients ->
        client_matches u q c = true ->
        In c (filteredClients clients q)).
Proof.
  unfold filteredClients, toLowerCase. split; [| split; [| split]].
  - intros clients. simpl. induction clients as [| c l IH]; simpl.
    + reflexivity.
    + now rewrite includes_empty, IH.
  - intros clients q c H. apply filter_In in H. tauto.
  - intros clients q c a m b _ _ Hin Hname Hlow. apply filter_In.
    split; [exact Hin |].
    rewrite Hname, !LOWER_app, <- Hlow. apply includes_app.
  - intros clients q c u _ _ Hin Hm. apply filter_In. split; [exact Hin |].
    unfold client_matches in Hm. apply andb_true_iff in Hm.
    destruct Hm as [_ Hn]. apply String.eqb_eq in Hn. rewrite Hn.
    apply includes_refl.
Qed.

Lemma filteredClients_finds_by_name_witness :
  let clients := [new_client 10 100 1 "Maria Clara"; new_client 11 100 1 "Ana"]
  in
  In (new_client 10 100 1 "Maria Clara") (filteredClients clients "CLA")
  /\ In (new_client 11 100 1 "Ana") (filteredClients clients "ana").
Proof.
  intros clients. split.
  - apply (proj1 (proj2 (proj2 filteredClients_finds_by_name)) clients
             "CLA"%string (new_client 10 100 1 "Maria Clara")
             "Maria "%string "Cla"%string "ra"%string).
    + reflexivity.
    + reflexivity.
    + simpl. left. reflexivity.
    + reflexivity.
    + reflexivity.
  - apply (proj2 (proj2 (proj2 filteredClients_finds_by_name)) clients
             "ana"%string (new_client 11 100 1 "Ana") 1%N).
    + reflexivity.
    + reflexivity.
    + simpl. right. left. reflexivity.
    + reflexivity.
Defined.

Lemma prefix_empty (s : string) : String.prefix "" s = true.
Proof. now destruct s. Qed.

Lemma prefix_paren_split_head (s : string) :
  String.prefix "(" s = false ->
  String.prefix "(" (split_head " (" s) = false.
Proof.
  destruct s as [| c s]; [reflexivity |].
  cbn [split_head String.prefix].
  destruct (ascii_dec "(" c) as [Heq | Hne].
  - now rewrite prefix_empty.
  - intros _. destruct (ascii_dec " " c) as [Hsp | Hsp].
    + destruct (String.prefix "(" s); [reflexivity |].
      cbn [String.prefix].
      destruct (ascii_dec "(" c); [contradiction | reflexivity].
    + cbn [String.prefix].
      destruct (ascii_dec "(" c); [contradiction | reflexivity].
Qed.

Lemma split_head_clean (s : string) :
  includes (split_head " (" s) " (" = false.
Proof.
  induction s as [| c s IH]; [reflexivity |].
  cbn [split_head]. destruct (String.prefix " (" (String c s)) eqn:E.
  - reflexivity.
  - cbn [includes]. rewrite IH, orb_false_r.
    cbn [String.prefix] in *.
    destruct (ascii_dec " " c); [| reflexivity].
    now apply prefix_paren_split_head.
Qed.

Lemma split_head_id (s : string) :
  includes s " (" = false -> split_head " (" s = s.
Proof.
  induction s as [| c s IH]; [reflexivity |].
  cbn [includes split_head]. intros H. apply orb_false_iff in H.
  destruct H as [Hp Hi]. rewrite Hp, (IH Hi). reflexivity.
Qed.

Lemma split_head_before (name tail : string) :
  String.prefix " (" tail = true ->
  includes name " (" = false ->
  split_head " (" (name ++ tail) = name.
Proof.
  intros Htail. induction name as [| c name IH].
  - intros _. cbn [append]. destruct tail as [| t tail]; [reflexivity |].
    cbn [split_head]. now rewrite Htail.
  - cbn [includes]. intros H. apply orb_false_iff in H.
    destruct H as [Hp Hi]. cbn [append split_head].
    replace (String.prefix " (" (String c (name ++ tail))) with false.
    + now rewrite (IH Hi).
    + symmetry. cbn [String.prefix] in Hp |- *.
      destruct (ascii_dec " " c); [| reflexivity].
      destruct name as [| d name];
        [| cbn [append String.prefix] in Hp |- *;
           destruct (ascii_dec "(" d); [| reflexivity];
           now rewrite prefix_empty in Hp].
      cbn [append]. destruct tail as [| t tail]; [reflexivity |].
      cbn [String.prefix] in Htail |- *.
      destruct (ascii_dec " " t) as [<- | ]; [| discriminate].
      destruct (ascii_dec "(" " "); [discriminate | reflexivity].
Qed.

Lemma split_head_app (name rest : string) :
  includes name " (" = false ->
  split_head " (" (name ++ " (" ++ rest) = name.
Proof.
  apply split_head_before. cbn [append String.prefix].
  destruct (ascii_dec " " " "); [| contradiction].
  destruct (ascii_dec "(" "("); [| contradiction].
  apply prefix_empty.
Qed.

(** X20: picking a suggestion in the service form.  From a suggestion
    written as a name, then " (", then anything, the form keeps the name,
    when the name itself has no " ("; a name without " (" is kept as it is;
    and whatever is picked, the name kept has no " (" in it, so a client
    whose own name has one is cut at the first. *)
Theorem handleClientSelect_keeps_name :
  (forall name rest,
      includes name " (" = false ->
      handleClientSelect (name ++ " (" ++ rest) = name)
  /\ (forall name,
        includes name " (" = false -> handleClientSelect name = name)
  /\ (forall picked, includes (handleClientSelect picked) " (" = false)
  /\ (forall picked,
        handleClientSelect (handleClientSelect picked)
        = handleClientSelect picked).
Proof.
  unfold handleClientSelect. split; [| split; [| split]].
  - exact split_head_app.
  - exact split_head_id.
  - exact split_head_clean.
  - intros picked. apply split_head_id, split_head_clean.
Qed.

Lemma handleClientSelect_keeps_name_witness :
  handleClientSelect "Maria (Ultimo: 28/05)" = "Maria"%string
  /\ handleClientSelect "Maria" = "Maria"%string.
Proof.
  split.
  - apply (proj1 handleClientSelect_keeps_name "Maria"%string
             "Ultimo: 28/05)"%string).
    reflexivity.
  - apply (proj1 (proj2 handleClientSelect_keeps_name) "Maria"%string).
    reflexivity.
Defined.

(** ** Edits that the statistics do not read *)

Lemma services_of_keys (cid : uuid) (l l' : list Service.t) :
  map stats_key l = map stats_key l' ->
  paid_total cid l = paid_total cid l'
  /\ last_creation_date cid l = last_creation_date cid l'.
Proof.
  unfold paid_total, last_creation_date, services_of.
  revert l'. induction l as [| x l IH]; intros [| y l'] H;
    try discriminate; [split; reflexivity |].
  simpl in H. injection H as Hc Hs Hv Ht Hrest.
  destruct (IH l' Hrest) as [H1 H2]. simpl.
  rewrite Hc. destruct (N.eqb (Service.client_id y) cid); simpl.
  - rewrite Hs, Ht. split.
    + destruct (text_is (Service.status y) "paid"); simpl; congruence.
    + now rewrite H2.
  - auto.
Qed.

Lemma patched_service_stats_key (db : DB) (now : timestamptz)
    (OLD NEW : Service.t) (p : Service.patch) :
  keeps_stats_columns p ->
  patched_service db now OLD p = Ok NEW ->
  stats_key NEW = stats_key OLD.
Proof.
  intros [Hc [Hs [Hv Ht]]]. unfold patched_service.
  rewrite Hc, Hs, Hv, Ht. simpl. intros H.
  apply bind_ok in H. destruct H as [u [_ H]].
  apply bind_ok in H. destruct H as [n [_ H]].
  apply bind_ok in H. destruct H as [d [_ H]].
  injection H as <-. reflexivity.
Qed.

(** X21: on a database whose client statistics are consistent, an [UPDATE]
    of a service that sets neither [client_id], [status], [value] nor
    [created_at] (a new description, delivery date or note) recomputes the
    client and stores what was there: no client's [total_spent] or
    [last_service_date] changes. *)
Theorem unrelated_update_keeps_stats (auth : option uuid)
    (now : timestamptz) (sid : uuid) (p : Service.patch) (db db' : DB) :
  client_stats_consistent db ->
  keeps_stats_columns p ->
  update_service auth now sid p db = Ok db' ->
  map client_stats (clients db') = map client_stats (clients db).
Proof.
  intros Hinv Hkeep H. apply update_service_inv in H.
  destruct H as [-> | [OLD [NEW [Hf [Hp [_ Ht]]]]]]; [reflexivity |].
  pose proof (patched_service_stats_key _ _ _ _ _ Hkeep Hp) as Hkey.
  simpl in Ht. apply recompute_client_stats_inv in Ht. simpl in Ht.
  destruct Ht as [_ [_ Hcl]]. rewrite Hcl, map_map.
  apply map_ext_in. intros c Hin.
  destruct (N.eqb (Client.id c) (Service.client_id NEW)) eqn:E;
    [| reflexivity].
  apply N.eqb_eq in E. destruct (Hinv c Hin) as [Htot Hlast].
  destruct (services_of_keys (Service.client_id NEW)
              (replace_first (service_addressed auth sid) NEW (services db))
              (services db)
              (map_replace_first_same stats_key _ OLD NEW _ Hf Hkey))
    as [K1 K2].
  unfold client_stats. simpl.
  rewrite select_total_spent_spec, select_last_service_date_spec, K1, K2.
  rewrite Htot, Hlast, E. reflexivity.
Qed.

Lemma unrelated_update_keeps_stats_witness :
  let paid_120 :=
    Service.mk_payload DEFAULT (VALUE 1%N) (VALUE 10%N) (VALUE "Ana"%string)
      (VALUE "Vestido"%string) (VALUE 12000) DEFAULT (VALUE "paid"%string)
      DEFAULT DEFAULT DEFAULT in
  let l := [rpc_get_or_create_client 10 100 1 "Ana";
            insert_into_services (Some 1%N) 20 86400000001 paid_120] in
  let db := run l (empty_db false false [1%N]) in
  let p := Service.mk_patch KEEP KEEP KEEP (SET (Some "Vestido longo"%string))
             KEEP (SET (Some 19900)) KEEP KEEP KEEP KEEP in
  let db' := step db (update_services (Some 1%N) 500 20 p) in
  map Service.description (services db') = ["Vestido longo"%string]
  /\ map client_stats (clients db') = map client_stats (clients db).
Proof.
  intros paid_120 l db p db'. split; [vm_compute; reflexivity |].
  apply (unrelated_update_keeps_stats (Some 1%N) 500 20%N p db db').
  - apply (run_client_inv l); [| apply empty_db_client_inv].
    repeat constructor.
  - repeat split.
  - vm_compute. reflexivity.
Defined.

(** ** Witnesses of the invariant and of the rejections *)

Lemma client_stats_consistent_unless_moved_witness :
  let service := fun (v : numeric) (st : text) =>
    Service.mk_payload DEFAULT (VALUE 1%N) (VALUE 10%N) (VALUE "Ana"%string)
      (VALUE "Vestido"%string) (VALUE v) DEFAULT (VALUE st)
      DEFAULT DEFAULT DEFAULT in
  let now_paid :=
    Service.mk_patch KEEP KEEP KEEP KEEP KEEP KEEP (SET (Some "paid"%string))
      KEEP KEEP KEEP in
  client_stats_consistent
    (run [rpc_get_or_create_client 10 100 1 "Ana";
          insert_into_services (Some 1%N) 20 86400000001
            (service 12000 "paid"%string);
          insert_into_services (Some 1%N) 21 259200000000
            (service 8000 "progress"%string);
          update_services (Some 1%N) 500 21 now_paid;
          delete_from_services (Some 1%N) 600 20]
         (empty_db false false [1%N])).
Proof.
  intros service now_paid.
  apply (client_stats_consistent_unless_moved false false [1%N]).
  repeat constructor.
Defined.

Lemma insert_service_rejects_witness :
  let db := step (empty_db false false [1%N])
                 (rpc_get_or_create_client 10 100 1 "Ana") in
  let p :=
    Service.mk_payload DEFAULT (VALUE 1%N) (VALUE 10%N) (VALUE "Ana"%string)
      DEFAULT (VALUE 3500) DEFAULT (VALUE "paid"%string) DEFAULT DEFAULT
      DEFAULT in
  exists e, insert_service (Some 1%N) 20 200 p db = Err e.
Proof.
  intros db p. apply (insert_service_rejects (Some 1%N) 20 200 p db).
  right. right. right. right. left. reflexivity.
Defined.

(** ** Resolved identities stay resolved *)

Lemma find_by_key {A K : Type} (key : A -> K) (f : A -> bool)
    (l l' : list A) (x : A) :
  (forall a b, key a = key b -> f a = f b) ->
  map key l' = map key l ->
  find f l = Some x ->
  exists x', find f l' = Some x' /\ key x' = key x.
Proof.
  intros Hf. revert l'. induction l as [| a l IH]; intros [| b l'] E H;
    try discriminate.
  simpl in *. injection E as Ek E. rewrite (Hf b a Ek).
  destruct (f a).
  - injection H as <-. now exists b.
  - now apply IH.
Qed.

Lemma exec_resolves_to_client (u : uuid) (n : text) (cid : uuid) (s : stmt)
    (db db' : DB) :
  exec s db = Ok db' ->
  resolves_to_client u n cid db -> resolves_to_client u n cid db'.
Proof.
  intros H [c [Hf Hid]]. apply exec_shape in H. destruct H as [_ [Sc _]].
  unfold resolves_to_client. destruct Sc as [E | [c0 [-> _]]].
  - destruct (find_by_key client_key (client_matches u n) _ _ c
                (fun a b Hk => ltac:(unfold client_key in Hk;
                                     injection Hk as _ Hu Hn;
                                     unfold client_matches;
                                     now rewrite Hu, Hn)) E Hf)
      as [c' [Hf' Hk]].
    exists c'. split; [exact Hf' |]. unfold client_key in Hk.
    injection Hk as Hi _ _. congruence.
  - exists c. split; [| exact Hid]. now apply find_app_some.
Qed.

Lemma exec_resolves_to_counter (u c : uuid) (K : uuid) (s : stmt)
    (db db' : DB) :
  exec s db = Ok db' ->
  resolves_to_counter u c K db -> resolves_to_counter u c K db'.
Proof.
  intros H [k [Hf Hid]]. apply exec_shape in H.
  destruct H as [_ [_ [_ [Sk _]]]]. unfold resolves_to_counter.
  destruct Sk as [E | [k0 [-> _]]].
  - destruct (find_by_key counter_key (counter_matches u c) _ _ k
                (fun a b Hk => ltac:(unfold counter_key in Hk;
                                     injection Hk as _ Hu Hc;
                                     unfold counter_matches;
                                     now rewrite Hu, Hc)) E Hf)
      as [k' [Hf' Hk]].
    exists k'. split; [exact Hf' |]. unfold counter_key in Hk.
    injection Hk as Hi _ _. congruence.
  - exists k. split; [| exact Hid]. now apply find_app_some.
Qed.

(** X23: an identity, once resolved, stays resolved.  After
    [get_or_create_client] has returned a client for a name, the same call
    under any spelling of the name returns that client, and creates nothing,
    after any sequence of further statements; likewise
    [get_or_create_piece_counter] for an account and a client. *)
Theorem resolved_identities_are_stable :
  (forall (r1 r2 : uuid) (t1 t2 : timestamptz) (u : uuid) (n1 n2 : text)
          (db db1 : DB) (cid : uuid) (l : list stmt),
      LOWER n1 = LOWER n2 ->
      get_or_create_client r1 t1 u n1 db = Ok (cid, db1) ->
      get_or_create_client r2 t2 u n2 (run l db1) = Ok (cid, run l db1))
  /\ (forall (r1 r2 : uuid) (t1 t2 : timestamptz) (u c : uuid)
             (n1 n2 : text) (db db1 : DB) (K : uuid) (l : list stmt),
        get_or_create_piece_counter r1 t1 u c n1 db = Ok (K, db1) ->
        get_or_create_piece_counter r2 t2 u c n2 (run l db1)
        = Ok (K, run l db1)).
Proof.
  split.
  - intros r1 r2 t1 t2 u n1 n2 db db1 cid l Hlow H.
    pose proof (find_after_get_or_create_client _ _ _ _ _ _ _ _ Hlow H)
      as H1.
    destruct (run_invariant (resolves_to_client u n2 cid)
                (exec_resolves_to_client u n2 cid) l db1 H1)
      as [c [Hf Hid]].
    unfold get_or_create_client. now rewrite Hf, Hid.
  - intros r1 r2 t1 t2 u c n1 n2 db db1 K l H.
    pose proof (find_after_get_or_create_piece_counter _ _ _ _ _ _ _ _ H)
      as H1.
    destruct (run_invariant (resolves_to_counter u c K)
                (exec_resolves_to_counter u c K) l db1 H1)
      as [k [Hf Hid]].
    unfold get_or_create_piece_counter. now rewrite Hf, Hid.
Qed.

Lemma resolved_identities_are_stable_witness :
  let paid_120 :=
    Service.mk_payload DEFAULT (VALUE 1%N) (VALUE 10%N) (VALUE "Ana"%string)
      (VALUE "Vestido"%string) (VALUE 12000) DEFAULT (VALUE "paid"%string)
      DEFAULT DEFAULT DEFAULT in
  let db1 := step (empty_db false false [1%N])
                  (rpc_get_or_create_client 10 100 1 "Ana") in
  let l := [rpc_get_or_create_client 11 200 1 "Bia";
            insert_into_services (Some 1%N) 20 300 paid_120;
            update_clients_is_favorite (Some 1%N) 400 10 true] in
  get_or_create_client 12 500 1 "ANA" (run l db1) = Ok (10%N, run l db1).
Proof.
  intros paid_120 db1 l.
  apply (proj1 resolved_identities_are_stable 10%N 12%N 100 500 1%N
           "Ana"%string "ANA"%string (empty_db false false [1%N]) db1 10%N
           l).
  - reflexivity.
  - vm_compute. reflexivity.
Defined.

(** ** The totals add up *)

Lemma sum_map_add {A : Type} (f g : A -> Z) (l : list A) :
  fold_right Z.add 0 (map (fun x => f x + g x) l)
  = fold_right Z.add 0 (map f l) + fold_right Z.add 0 (map g l).
Proof. induction l as [| x l IH]; simpl; lia. Qed.

Lemma sum_one_match (cid : uuid) (v : Z) (cs : list Client.t) :
  NoDup (map Client.id cs) ->
  In cid (map Client.id cs) ->
  fold_right Z.add 0
    (map (fun c => if N.eqb cid (Client.id c) then v else 0) cs) = v.
Proof.
  induction cs as [| c cs IH]; simpl; intros Hnd Hin; [contradiction |].
  inversion Hnd as [| ? ? Hc Hnd']; subst.
  destruct (N.eqb cid (Client.id c)) eqn:E.
  - apply N.eqb_eq in E. subst cid.
    assert (Hz : fold_right Z.add 0
                   (map (fun c0 => if N.eqb (Client.id c) (Client.id c0)
                                   then v else 0) cs) = 0).
    { clear IH Hin Hnd Hnd'. induction cs as [| d cs IH]; simpl;
        [reflexivity |].
      destruct (N.eqb (Client.id c) (Client.id d)) eqn:E.
      - apply N.eqb_eq in E. exfalso. apply Hc. simpl. left. now symmetry.
      - apply IH. intros H. apply Hc. now right. }
    lia.
  - apply N.eqb_neq in E. destruct Hin as [Hin | Hin]; [congruence |].
    rewrite (IH Hnd' Hin). lia.
Qed.

Lemma paid_total_cons (cid : uuid) (s : Service.t) (ss : list Service.t) :
  paid_total cid (s :: ss)
  = (if N.eqb (Service.client_id s) cid
     then if text_is (Service.status s) "paid" then Service.value s else 0
     else 0)
    + paid_total cid ss.
Proof.
  unfold paid_total, services_of. simpl.
  destruct (N.eqb (Service.client_id s) cid); simpl; [| lia].
  destruct (text_is (Service.status s) "paid"); simpl; lia.
Qed.

Lemma sum_paid_totals (cs : list Client.t) (ss : list Service.t) :
  NoDup (map Client.id cs) ->
  (forall s, In s ss -> In (Service.client_id s) (map Client.id cs)) ->
  fold_right Z.add 0 (map (fun c => paid_total (Client.id c) ss) cs)
  = fold_right Z.add 0
      (map Service.value
         (filter (fun s => text_is (Service.status s) "paid"%string) ss)).
Proof.
  intros Hnd. induction ss as [| s ss IH]; intros Hfk.
  - simpl. induction cs as [| c cs IHc]; simpl; [reflexivity |].
    inversion Hnd; subst. now rewrite IHc.
  - rewrite (map_ext _ _ (fun c => paid_total_cons (Client.id c) s ss)).
    rewrite (sum_map_add
               (fun c => if N.eqb (Service.client_id s) (Client.id c)
                         then if text_is (Service.status s) "paid"
                              then Service.value s else 0
                         else 0)
               (fun c => paid_total (Client.id c) ss)).
    unfold numeric in *.
    rewrite IH by (intros x Hx; apply Hfk; now right).
    simpl. destruct (text_is (Service.status s) "paid") eqn:Ep.
    + rewrite (sum_one_match _ _ _ Hnd (Hfk s (or_introl eq_refl))).
      simpl. reflexivity.
    + rewrite (map_ext _ (fun _ => 0)).
      * assert (Hz : forall l : list Client.t,
                   fold_right Z.add 0 (map (fun _ => 0) l) = 0)
          by (induction l; simpl; lia).
        rewrite Hz. reflexivity.
      * intros c. now destruct (N.eqb (Service.client_id s) (Client.id c)).
Qed.

(** X24: in every state reached from the empty database without moving a
    service to another client, the [total_spent] of all clients add up to
    the value of all paid services. *)
Theorem totals_add_up (vc tr : bool) (users : list uuid) (l : list stmt) :
  Forall keeps_client l ->
  sum_total_spent (run l (empty_db vc tr users))
  = sum_paid_services (run l (empty_db vc tr users)).
Proof.
  intros Hl.
  destruct (run_client_inv l Hl _ (empty_db_client_inv vc tr users))
    as [Hinv Hfk].
  assert (Hpk : primary_keys (run l (empty_db vc tr users))).
  { apply (run_invariant primary_keys exec_primary_keys).
    repeat split; constructor. }
  destruct Hpk as [Hnd _].
  unfold sum_total_spent, sum_paid_services.
  rewrite <- (sum_paid_totals _ _ Hnd Hfk). f_equal.
  apply map_ext_in. intros c Hin. destruct (Hinv c Hin) as [-> _].
  reflexivity.
Qed.

Lemma totals_add_up_witness :
  let service := fun (c : uuid) (v : numeric) (st : text) =>
    Service.mk_payload DEFAULT (VALUE 1%N) (VALUE c) (VALUE "x"%string)
      (VALUE "Vestido"%string) (VALUE v) DEFAULT (VALUE st)
      DEFAULT DEFAULT DEFAULT in
  let l := [rpc_get_or_create_client 10 100 1 "Ana";
            rpc_get_or_create_client 11 100 1 "Bia";
            insert_into_services (Some 1%N) 20 200
              (service 10%N 12000 "paid"%string);
            insert_into_services (Some 1%N) 21 300
              (service 11%N 8000 "paid"%string);
            insert_into_services (Some 1%N) 22 400
              (service 11%N 5000 "progress"%string)] in
  sum_total_spent (run l (empty_db false false [1%N])) = 20000
  /\ sum_paid_services (run l (empty_db false false [1%N])) = 20000.
Proof.
  intros service l. split; [| vm_compute; reflexivity].
  rewrite (totals_add_up false false [1%N] l).
  - vm_compute. reflexivity.
  - repeat constructor.
Defined.

(** ** Whose client a service may name *)

Lemma paid_total_app (cid : uuid) (ss : list Service.t) (s : Service.t) :
  Service.client_id s = cid ->
  Service.status s = Some "paid"%string ->
  paid_total cid (ss ++ [s]) = paid_total cid ss + Service.value s.
Proof.
  intros Hc Hs. unfold paid_total. rewrite services_of_app, Hc, N.eqb_refl.
  rewrite filter_app, map_app, fold_right_app. simpl. rewrite Hs. simpl.
  generalize (map Service.value
                (filter (fun s0 => text_is (Service.status s0) "paid")
                        (services_of cid ss))).
  intros vs. induction vs as [| v vs IH]; simpl; lia.
Qed.

(** X25: the policy on [services] looks at the [user_id] of the new row
    only.  An account can insert a paid service under any client row,
    whoever owns it; the insertion succeeds, the service belongs to the
    caller, and the trigger adds its value to that client's
    [total_spent]. *)
Theorem insert_service_under_any_client (u : uuid) (rnd : uuid)
    (now : timestamptz) (c : Client.t) (name description : text)
    (value : numeric) (db : DB) :
  In u (auth_users db) ->
  In c (clients db) ->
  ~ In rnd (map Service.id (services db)) ->
  numeric_10_2_fits value = true ->
  value_check db value = true ->
  numeric_10_2_fits (paid_total (Client.id c) (services db) + value) = true ->
  exists NEW db',
    insert_service (Some u) rnd now
      (Service.mk_payload DEFAULT (VALUE u) (VALUE (Client.id c))
         (VALUE name) (VALUE description) (VALUE value) DEFAULT
         (VALUE "paid"%string) DEFAULT DEFAULT DEFAULT) db
    = Ok (NEW, db')
    /\ Service.user_id NEW = u
    /\ Service.client_id NEW = Client.id c
    /\ exists c', In c' (clients db')
                  /\ client_key c' = client_key c
                  /\ Client.total_spent c'
                     = Some (paid_total (Client.id c) (services db) + value).
Proof.
  intros Hu Hc Hrnd Hfit Hvc Htot.
  assert (Hcid : In (Client.id c) (map Client.id (clients db)))
    by now apply in_map.
  unfold insert_service. cbn [resolve Service.p_user_id rls_owner].
  rewrite N.eqb_refl. cbn [guard bind service_of_payload resolve required
                             Service.p_id Service.p_user_id
                             Service.p_client_id Service.p_client_name
                             Service.p_description Service.p_value
                             Service.p_delivery_date Service.p_status
                             Service.p_notes Service.p_created_at
                             Service.p_updated_at].
  unfold services_constraints. cbn [Service.value Service.status
                                     Service.user_id Service.client_id
                                     Service.id].
  rewrite Hfit, Hvc. apply mem_In in Hu. apply mem_In in Hcid.
  rewrite Hu, Hcid. apply mem_not_In in Hrnd. rewrite Hrnd.
  cbn [status_check guard bind negb String.eqb]. simpl.
  unfold update_client_stats, recompute_client_stats. simpl.
  rewrite Hcid, select_total_spent_spec, paid_total_app by reflexivity.
  simpl. rewrite Htot. simpl.
  eexists. eexists. split; [reflexivity |]. simpl.
  split; [reflexivity |]. split; [reflexivity |].
  eexists. split.
  - apply in_map_iff. exists c. split; [reflexivity | exact Hc].
  - rewrite N.eqb_refl. simpl. split; reflexivity.
Qed.

Lemma insert_service_under_any_client_witness :
  let db := step (empty_db false false [1%N; 2%N])
                 (rpc_get_or_create_client 10 100 1 "Ana") in
  let c := new_client 10 100 1 "Ana" in
  exists NEW db',
    insert_service (Some 2%N) 20 200
      (Service.mk_payload DEFAULT (VALUE 2%N) (VALUE (Client.id c))
         (VALUE "Ana"%string) (VALUE "Bainha"%string) (VALUE 3500) DEFAULT
         (VALUE "paid"%string) DEFAULT DEFAULT DEFAULT) db
    = Ok (NEW, db')
    /\ Service.user_id NEW = 2%N
    /\ Service.client_id NEW = Client.id c
    /\ exists c', In c' (clients db')
                  /\ client_key c' = client_key c
                  /\ Client.total_spent c'
                     = Some (paid_total (Client.id c) (services db) + 3500).
Proof.
  intros db c.
  apply (insert_service_under_any_client 2 20 200 c "Ana" "Bainha" 3500 db).
  - simpl. right. left. reflexivity.
  - simpl. left. reflexivity.
  - simpl. intros H. exact H.
  - reflexivity.
  - reflexivity.
  - reflexivity.
Defined.

(** ** Favourites and ownership *)

(** X26: [updateClientFavorite] reaches the caller's own clients only: a
    client row of another account is left exactly as it was, whatever
    identifier the call names, while a row of the caller with that
    identifier gets the flag. *)
Theorem updateClientFavorite_only_own_clients (user : option uuid)
    (now : timestamptz) (clientId : uuid) (isFavorite : bool) (db : DB) :
  Forall2 (fun c c' =>
             (rls_owner user (Client.user_id c) = false -> c' = c)
             /\ (rls_owner user (Client.user_id c) = true ->
                 Client.id c = clientId ->
                 Client.is_favorite c' = Some isFavorite))
          (clients db)
          (clients (snd (updateClientFavorite user now clientId isFavorite
                           db))).
Proof.
  unfold updateClientFavorite, update_client_is_favorite. simpl.
  apply Forall2_map_self. intros c. unfold client_addressed.
  destruct (rls_owner user (Client.user_id c)); split; intros H;
    try discriminate.
  - intros ->. now rewrite N.eqb_refl.
  - now rewrite andb_false_r.
Qed.

(** ** Inserting a service and deleting it again *)

Lemma find_app_last {A : Type} (f : A -> bool) (l : list A) (x : A) :
  (forall y, In y l -> f y = false) -> f x = true ->
  find f (l ++ [x]) = Some x /\ remove_first f (l ++ [x]) = l.
Proof.
  intros Hl Hx. induction l as [| y l IH]; simpl.
  - now rewrite Hx.
  - rewrite (Hl y (or_introl eq_refl)).
    destruct IH as [H1 H2]; [intros z Hz; apply Hl; now right |].
    now rewrite H1, H2.
Qed.

(** X27: on a database whose client statistics are consistent, inserting a
    service and then deleting it, as the same account, puts back the
    [services] table and every client's [total_spent] and
    [last_service_date]. *)
Theorem insert_then_delete_service (auth : option uuid) (rnd : uuid)
    (now1 now2 : timestamptz) (p : Service.payload) (db db1 db2 : DB)
    (NEW : Service.t) :
  client_stats_consistent db ->
  insert_service auth rnd now1 p db = Ok (NEW, db1) ->
  delete_service auth now2 (Service.id NEW) db1 = Ok db2 ->
  services db2 = services db
  /\ map client_stats (clients db2) = map client_stats (clients db).
Proof.
  intros Hinv Hins Hdel.
  assert (Hshape : exec (insert_into_services auth rnd now1 p) db = Ok db1)
    by (simpl; now rewrite Hins).
  apply exec_shape in Hshape. simpl in Hshape.
  destruct Hshape as [_ [_ [Ss _]]].
  apply insert_service_inv in Hins. destruct Hins as [Hp [_ Ht]].
  simpl in Ht. apply recompute_client_stats_inv in Ht. simpl in Ht.
  destruct Ht as [Hs1 [_ Hc1]].
  assert (Hfresh : ~ In (Service.id NEW) (map Service.id (services db))
                   /\ rls_owner auth (Service.user_id NEW) = true).
  { destruct Ss as [E | [[N' [E [Ho [Hid _]]]]
                        | [[f [O [N' [Hf [E _]]]]] | [f [O [Hf [E _]]]]]]].
    - rewrite Hs1 in E. exfalso.
      apply (f_equal (@List.length _)) in E. rewrite length_app in E.
      simpl in E. lia.
    - rewrite Hs1 in E. apply app_inj_tail in E. destruct E as [_ <-].
      auto.
    - rewrite Hs1 in E. exfalso.
      apply (f_equal (@List.length _)) in E. rewrite length_app in E.
      assert (Hlen : forall (l : list Service.t),
                 List.length (replace_first f N' l) = List.length l).
      { induction l as [| z l IHl]; simpl; [reflexivity |].
        destruct (f z); simpl; now rewrite ?IHl. }
      rewrite Hlen in E. simpl in E. lia.
    - rewrite Hs1 in E. exfalso.
      apply (f_equal (@List.length _)) in E. rewrite length_app in E.
      assert (Hlen : forall (l : list Service.t),
                 (List.length (remove_first f l) <= List.length l)%nat).
      { induction l as [| z l IHl]; simpl; [lia |].
        destruct (f z); simpl; lia. }
      specialize (Hlen (services db)). simpl in E. lia. }
  destruct Hfresh as [Hid Ho].
  destruct (find_app_last (service_addressed auth (Service.id NEW))
              (services db) NEW) as [Hfind Hrem].
  { intros y Hy. unfold service_addressed.
    destruct (N.eqb (Service.id y) (Service.id NEW)) eqn:E;
      [| reflexivity].
    apply N.eqb_eq in E. exfalso. apply Hid. rewrite <- E.
    now apply in_map. }
  { unfold service_addressed. now rewrite N.eqb_refl, Ho. }
  unfold delete_service in Hdel. rewrite Hs1, Hfind, Hrem in Hdel.
  simpl in Hdel. apply recompute_client_stats_inv in Hdel. simpl in Hdel.
  destruct Hdel as [Hs2 [_ Hc2]]. split; [exact Hs2 |].
  rewrite Hc2, Hc1, !map_map. apply map_ext_in. intros c Hin.
  destruct (Hinv c Hin) as [Htot Hlast].
  destruct (N.eqb (Client.id c) (Service.client_id NEW)) eqn:E.
  - simpl. rewrite E. unfold client_stats. simpl. apply N.eqb_eq in E.
    rewrite select_total_spent_spec, select_last_service_date_spec, <- E.
    now rewrite Htot, Hlast.
  - now rewrite E.
Qed.

Lemma insert_then_delete_service_witness :
  let service := fun (v : numeric) =>
    Service.mk_payload DEFAULT (VALUE 1%N) (VALUE 10%N) (VALUE "Ana"%string)
      (VALUE "Vestido"%string) (VALUE v) DEFAULT (VALUE "paid"%string)
      DEFAULT DEFAULT DEFAULT in
  let l := [rpc_get_or_create_client 10 100 1 "Ana";
            insert_into_services (Some 1%N) 20 86400000001 (service 12000)]
  in
  let db := run l (empty_db false false [1%N]) in
  let NEW := Service.mk 21 1 10 "Ana" "Vestido" 8000 None
               (Some "paid"%string) None (Some 259200000000)
               (Some 259200000000) in
  let db1 := step db (insert_into_services (Some 1%N) 21 259200000000
                        (service 8000)) in
  let db2 := step db1 (delete_from_services (Some 1%N) 500 21) in
  services db2 = services db
  /\ map client_stats (clients db2) = map client_stats (clients db).
Proof.
  intros service l db NEW db1 db2.
  apply (insert_then_delete_service (Some 1%N) 21 259200000000 500
           (service 8000) db db1 db2 NEW).
  - apply (run_client_inv l); [| apply empty_db_client_inv].
    repeat constructor.
  - vm_compute. reflexivity.
  - vm_compute. reflexivity.
Defined.
